(** * codexctl: the update / restore orchestration of [codexctl/__init__.py]

    A shallow embedding of the pure and the effectful parts of the module,
    followed by the properties established about them.

    - Python strings are [string] (sequences of bytes); the string methods
      used by the module ([split], [join], [startswith], [lower], [in]) are
      defined in [Module Py].
    - Python exceptions are values of [exn]; a computation that may raise
      returns a [result].
    - Interactive code runs in the monad [M] over a [World] (the operator's
      pending answers, the update configuration file, the staged updates,
      the working directory and the server thread) and records a trace of
      what it does.
    - The partition-swap script [RESTORE_CODE] is run over the U-Boot
      environment of the device. *)

From Stdlib Require Import ZArith Ascii DecimalString.
From stdpp Require Import base option list strings gmap.

Open Scope Z_scope.

(* ===================================================================== *)
(** * Python values *)
(* ===================================================================== *)

Module Py.

(** [s.startswith(prefix)] *)
Definition startswith (s prefix : string) : bool := String.prefix prefix s.

(** [s.split(sep)] for a one-character separator: never returns the empty
    list, [''.split(sep) == ['']]. *)
Fixpoint split (s : string) (sep : ascii) : list string :=
  match s with
  | EmptyString => [EmptyString]
  | String c s' =>
      if Ascii.eqb c sep then EmptyString :: split s' sep
      else match split s' sep with
           | [] => [String c EmptyString]
           | field :: fields => String c field :: fields
           end
  end.

(** [sep.join(l)] *)
Definition join (sep : string) (l : list string) : string :=
  String.concat sep l.

(** [c in s] for a one-character string [c] *)
Fixpoint contains (s : string) (c : ascii) : bool :=
  match s with
  | EmptyString => false
  | String c' s' => Ascii.eqb c' c || contains s' c
  end.

(** [sub in s] for strings *)
Fixpoint str_in (sub s : string) : bool :=
  String.prefix sub s ||
  match s with
  | EmptyString => false
  | String _ s' => str_in sub s'
  end.

(** [s.lower()] on the ASCII letters; other bytes are left as they are. *)
Definition lower_ascii (c : ascii) : ascii :=
  let n := N_of_ascii c in
  if (65 <=? n)%N && (n <=? 90)%N then ascii_of_N (n + 32) else c.

Fixpoint lower (s : string) : string :=
  match s with
  | EmptyString => EmptyString
  | String c s' => String (lower_ascii c) (lower s')
  end.

(** [str(n)] / [f"{n}"] for an [int] *)
Definition str_int (n : Z) : string := NilZero.string_of_int (Z.to_int n).

(** [l.insert(i, x)] for [0 <= i]: past the end it appends. *)
Definition list_insert {A} (i : nat) (x : A) (l : list A) : list A :=
  take i l ++ x :: drop i l.

(** [x in l] for a list of strings *)
Definition list_contains (l : list string) (x : string) : bool :=
  bool_decide (x ∈ l).

(** [repr(s)] for a string of printable characters without quotes or
    backslashes, and [repr] of a list of such strings. *)
Definition repr_str (s : string) : string := "'" +:+ s +:+ "'".

Definition repr_list (l : list string) : string :=
  "[" +:+ String.concat ", " (repr_str <$> l) +:+ "]".

End Py.

(** The line feed, the separator the module splits and joins on. *)
Definition LF : ascii := "010"%char.
Definition NL : string := String LF EmptyString.

(* ===================================================================== *)
(** * Exceptions and results *)
(* ===================================================================== *)

Inductive exn : Type :=
| SystemExit (msg : string)
| SystemError (msg : string)
| CalledProcessError (cmd : list string) (returncode : Z)
| EOFError
| IndexError
| ForeignError (origin : string).

Inductive result (A : Type) : Type :=
| Return (a : A)
| Raise (e : exn).
Arguments Return {A} a.
Arguments Raise {A} e.

(* ===================================================================== *)
(** * [set_server_config] (lines 143-164) *)
(* ===================================================================== *)

(** One iteration of [for i in range(0, len(data_attributes))]: the list is
    read and written through its index; [line] remembers the index after the
    last line that starts with [[General]]. *)
Definition set_server_config_step
    (st : result (list string * nat)) (i : nat) : result (list string * nat) :=
  match st with
  | Raise e => Raise e
  | Return (data_attributes, line) =>
      match data_attributes !! i with
      | None => Raise IndexError
      | Some cur =>
          let line := if Py.startswith cur "[General]" then (i + 1)%nat else line in
          if negb (Py.startswith cur "SERVER=") then Return (data_attributes, line)
          else Return (<[i := "#" +:+ cur]> data_attributes, line)
      end
  end.

Definition set_server_config (contents server_host_name : string) : result string :=
  let data_attributes := Py.split contents LF in
  let line := 0%nat in
  match foldl set_server_config_step (Return (data_attributes, line))
              (seq 0 (length data_attributes)) with
  | Raise e => Raise e
  | Return (data_attributes, line) =>
      let data_attributes :=
        Py.list_insert line ("SERVER=" +:+ server_host_name) data_attributes in
      let converted := Py.join NL data_attributes in
      Return converted
  end.

(** [server_host_name = f"http://{server_ip}:{port}"] (line 185) *)
Definition server_host_name (server_ip : string) (port : Z) : string :=
  "http://" +:+ server_ip +:+ ":" +:+ Py.str_int port.

(* ===================================================================== *)
(** * The partition-swap script [RESTORE_CODE] (lines 28-45) *)
(* ===================================================================== *)

Module Shell.

(** State of one run of the script: the U-Boot environment of the device
    (read by [fw_printenv], written by [fw_setenv]), every [fw_setenv]
    call in the order it was made, the lines echoed, and the exit status
    of the last command. The tools [fw_printenv] and [fw_setenv] are
    taken to succeed. *)
Record state := mk_state {
  uboot : gmap string string;
  setenv_log : list (string * string);
  echoed : list string;
  status : Z
}.

Definition start (env : gmap string string) : state :=
  {| uboot := env; setenv_log := []; echoed := []; status := 0 |}.

(** [/sbin/fw_setenv "name" "value"] *)
Definition fw_setenv (name value : string) (st : state) : state :=
  {| uboot := <[name := value]> (uboot st);
     setenv_log := setenv_log st ++ [(name, value)];
     echoed := echoed st;
     status := 0 |}.

(** [$(/sbin/fw_printenv -n name)]: the value of the variable, the
    trailing line feed removed by the command substitution. *)
Definition fw_printenv_n (name : string) (st : state) : option string :=
  uboot st !! name.

(** [echo "text"] *)
Definition echo (text : string) (st : state) : state :=
  {| uboot := uboot st;
     setenv_log := setenv_log st;
     echoed := echoed st ++ [text];
     status := 0 |}.

(** Bytes that take part in field splitting (the default IFS) or in
    pathname expansion of an unquoted expansion. *)
Definition is_special (c : ascii) : bool :=
  match c with
  | " " | "009" | "010" | "*" | "?" | "[" | "\" => true
  | _ => false
  end%char.

Fixpoint plain (s : string) : bool :=
  match s with
  | EmptyString => true
  | String c s' => negb (is_special c) && plain s'
  end.

(** The unquoted expansion [$OLDPART]. A non-empty value without blanks
    and pattern characters expands to itself, one field. Other values
    (several fields, none, or a pattern matched against the working
    directory) are outside the fragment of the shell that is modelled:
    [None]. *)
Definition expand_unquoted (value : string) : option string :=
  match value with
  | EmptyString => None
  | _ => if plain value then Some value else None
  end.

(** [[ lhs == rhs ]] with three arguments: string equality; the exit
    status is 0 when the strings are equal and 1 otherwise. *)
Definition test_eq (lhs rhs : string) : Z :=
  if String.eqb lhs rhs then 0 else 1.

(** The script. [None]: the device has no [active_partition] variable or
    its value is outside the modelled fragment. *)
Definition RESTORE_CODE (env : gmap string string) : option state :=
  let st := start env in
  let st := fw_setenv "upgrade_available" "1" st in
  let st := fw_setenv "bootcount" "0" st in
  OLDPART ← fw_printenv_n "active_partition" st;
  lhs ← expand_unquoted OLDPART;
  let NEWPART := if test_eq lhs "2" =? 0 then "3" else "2" in
  let st := echo ("new: " +:+ NEWPART) st in
  let st := echo ("fallback: " +:+ OLDPART) st in
  let st := fw_setenv "fallback_partition" OLDPART st in
  let st := fw_setenv "active_partition" NEWPART st in
  Some st.

(** [a] is written before [b]: the log has a [fw_setenv] of [a] with no
    [fw_setenv] of [b] before it and one of [b] after it. *)
Definition written_before (a b : string) (log : list (string * string)) : Prop :=
  ∃ l1 va l2 vb l3,
    log = l1 ++ (a, va) :: l2 ++ (b, vb) :: l3 ∧
    Forall (λ kv, kv.1 ≠ b) l1.

End Shell.

(* ===================================================================== *)
(** * [get_host_ip] (lines 48-65) *)
(* ===================================================================== *)

Inductive address_family := AF_INET | AF_INET6 | AF_LINK.

Record snic := mk_snic { family : address_family; address : string }.

Definition is_AF_INET (f : address_family) : bool :=
  match f with AF_INET => true | _ => false end.

(** The inner loop [for snic in snics]; [inl] is the early [return]. *)
Fixpoint get_host_ip_snics (snics : list snic) (possible_ips : list string)
  : list string + list string :=
  match snics with
  | [] => inr possible_ips
  | snic :: snics' =>
      if is_AF_INET (family snic) then
        if Py.startswith (address snic) "10.11.99" then inl [address snic]
        else get_host_ip_snics snics' (possible_ips ++ [address snic])
      else get_host_ip_snics snics' possible_ips
  end.

(** The outer loop [for interface, snics in psutil.net_if_addrs().items()]. *)
Fixpoint get_host_ip_interfaces (interfaces : list (string * list snic))
    (possible_ips : list string) : list string + list string :=
  match interfaces with
  | [] => inr possible_ips
  | (_, snics) :: interfaces' =>
      match get_host_ip_snics snics possible_ips with
      | inl found => inl found
      | inr possible_ips => get_host_ip_interfaces interfaces' possible_ips
      end
  end.

(** [net_if_addrs = None]: importing or calling [psutil] raised; the
    exception is logged and the addresses collected so far (none) are
    returned. *)
Definition get_host_ip (net_if_addrs : option (list (string * list snic))) : list string :=
  match net_if_addrs with
  | None => []
  | Some interfaces =>
      match get_host_ip_interfaces interfaces [] with
      | inl found => found
      | inr possible_ips => possible_ips
      end
  end.

(* ===================================================================== *)
(** * [version_lookup] (lines 68-87) *)
(* ===================================================================== *)

(** The catalog [updateman] ([codexctl/updates.py]) is a collaborator of
    this module; it is taken as a parameter: the latest version it gives
    for a device value, the pinned toltec version and the keys of the two
    identifier tables. *)
Record UpdateManager := mk_UpdateManager {
  get_latest_version : Z → string;
  latest_toltec_version : string;
  id_lookups_rm1 : gset string;
  id_lookups_rm2 : gset string
}.

Definition invalid_device_msg : string := "Error: Invalid device given!".
Definition invalid_version_msg : string :=
  "Error: Invalid version! Examples: latest, toltec, 3.2.3.1595, 2.15.0.1067".

Definition version_lookup (updateman : UpdateManager) (version : string) (device : Z)
  : result string :=
  if String.eqb version "latest" then Return (get_latest_version updateman device)
  else if String.eqb version "toltec" then Return (latest_toltec_version updateman)
  else
    match (if device =? 2 then Return (id_lookups_rm2 updateman)
           else if device =? 1 then Return (id_lookups_rm1 updateman)
           else Raise (SystemError invalid_device_msg)) with
    | Raise e => Raise e
    | Return version_dict =>
        if bool_decide (version ∈ version_dict) then Return version
        else Raise (SystemExit invalid_version_msg)
    end.

(* ===================================================================== *)
(** * The world of a workflow *)
(* ===================================================================== *)

(** Commands run on the device, locally ([subprocess]) or through the SSH
    session ([exec_command]). *)
Inductive command :=
| RunRestoreCode                      (* the script RESTORE_CODE *)
| SystemctlStartUpdateEngine          (* systemctl start update-engine *)
| UpdateEngineClientUpdate            (* update_engine_client -update *)
| NcProbe (server_host : string)      (* sleep 2 && echo | nc {server_host} 8080 *)
| ShutdownNow.                        (* shutdown now *)

Record completed := mk_completed {
  exit_status : Z;
  out_text : string;
  err_text : string
}.

Inductive credential := KeyFilename (path : string) | Password (password : string).

Inductive connect_outcome :=
| Connected
| AuthenticationException
| OtherException (what : string).

(** The connected SSH client. *)
Record Remote := mk_Remote { remote_ip : string }.

(** [scanUpdates()]: the staged identifiers of each device, in the order
    of the dictionary. *)
Abbreviation versions := (list (string * list string)).

Inductive event :=
| Print (text : string)
| Input (prompt : string) (answer : option string)
| Chdir (path : string)
| Mkdtemp (path : string)
| Mkdir (path : string)
| Rmtree (path : string)
| SshConnect (ip : string) (cred : credential)
| WriteConf (text : string)
| ThreadStart (available_versions : string * list string) (server_host : string)
| RunLocal (c : command)
| ExecRemote (ip : string) (c : command).

(** What the workflows change: the answers the operator will still give,
    the file [/usr/share/remarkable/update.conf] of the device, the staged
    updates, the working directory and the daemon thread that serves the
    updates ([None] until it is started). *)
Record World := mk_World {
  stdin : list string;
  update_conf : string;
  staged : versions;
  cwd : string;
  server_thread : option (string * list string * string)
}.

(** What the workflows only observe. [get_version], like [scanUpdates] and
    [startUpdate], belongs to collaborators of this module and is taken as a
    parameter: it returns the value of [updateman.get_version] and the
    updates staged afterwards. *)
Record Env := mk_Env {
  REMOTE_DEPS_MET : bool;
  is_rm : bool;
  update_conf_isfile : bool;
  net_if_addrs : option (list (string * list snic));
  path_isfile : string → bool;
  path_exists : string → string → bool;
  mkdtemp : string;
  ssh_connect : string → credential → connect_outcome;
  run_local : command → completed;
  exec_remote : string → command → completed;
  updateman : UpdateManager;
  get_version : string → Z → string → versions → option string * versions
}.

Record Args := mk_Args {
  auth : option string;
  serve_folder : option string;
  version : string
}.

(** An optional argument is true in a condition when it is a non-empty
    string: [Some (String _ _)]. *)

(** ** The monad of workflows: state, exceptions and a trace *)

(** A run returns a value or raises, leaves a world, and lists what it did
    in order. *)
Definition M (A : Type) : Type := World → result A * World * list event.

Definition ret {A} (a : A) : M A := λ w, (Return a, w, []).
Definition raise {A} (e : exn) : M A := λ w, (Raise e, w, []).
Definition bind {A B} (m : M A) (k : A → M B) : M B :=
  λ w, match m w with
       | (Return a, w1, evs1) =>
           match k a w1 with
           | (r, w2, evs2) => (r, w2, evs1 ++ evs2)
           end
       | (Raise e, w1, evs1) => (Raise e, w1, evs1)
       end.
Definition of_result {A} (r : result A) : M A := λ w, (r, w, []).

Notation "x <- m ;; k" := (bind m (λ x, k))
  (at level 20, m at level 99, k at level 200, only parsing).
Notation "m ;; k" := (bind m (λ _, k))
  (at level 100, k at level 200, only parsing).

Definition result_of {A} (run : result A * World * list event) : result A := run.1.1.
Definition world_of {A} (run : result A * World * list event) : World := run.1.2.
Definition events_of {A} (run : result A * World * list event) : list event := run.2.

Definition emit (e : event) : M unit := λ w, (Return tt, w, [e]).

(** [print(text)] *)
Definition print (text : string) : M unit := emit (Print text).

Definition set_stdin (answers : list string) (w : World) : World :=
  {| stdin := answers; update_conf := update_conf w; staged := staged w;
     cwd := cwd w; server_thread := server_thread w |}.

(** [input(prompt)]: the next answer of the operator; [EOFError] when there
    is none. *)
Definition input (prompt : string) : M string :=
  λ w, match stdin w with
       | [] => (Raise EOFError, w, [Input prompt None])
       | answer :: rest => (Return answer, set_stdin rest w, [Input prompt (Some answer)])
       end.

(** A [while True] loop around [input]: a function of the pending answers
    that returns the result, the answers left and what happened. *)
Definition interact {A}
    (loop : list string → result A * list string * list event) : M A :=
  λ w, match loop (stdin w) with
       | (r, rest, evs) => (r, set_stdin rest w, evs)
       end.

Definition getcwd : M string := λ w, (Return (cwd w), w, []).

(** [os.chdir(path)]; the folder is taken to be there. *)
Definition chdir (path : string) : M unit :=
  λ w, (Return tt,
        {| stdin := stdin w; update_conf := update_conf w; staged := staged w;
           cwd := path; server_thread := server_thread w |},
        [Chdir path]).

Definition read_update_conf : M string := λ w, (Return (update_conf w), w, []).

Definition write_update_conf (text : string) : M unit :=
  λ w, (Return tt,
        {| stdin := stdin w; update_conf := text; staged := staged w;
           cwd := cwd w; server_thread := server_thread w |},
        [WriteConf text]).

(** [scanUpdates()] *)
Definition scanUpdates : M versions := λ w, (Return (staged w), w, []).

(** [updateman.get_version(version, device, download_folder)] *)
Definition updateman_get_version (env : Env) (version : string) (device : Z)
    (download_folder : string) : M (option string) :=
  λ w, match get_version env version device download_folder (staged w) with
       | (r, staged') =>
           (Return r,
            {| stdin := stdin w; update_conf := update_conf w; staged := staged';
               cwd := cwd w; server_thread := server_thread w |},
            [])
       end.

(** [threading.Thread(target=startUpdate, args=(available_versions,
    server_host), daemon=True).start()] *)
Definition thread_start (available_versions : string * list string)
    (server_host : string) : M unit :=
  λ w, (Return tt,
        {| stdin := stdin w; update_conf := update_conf w; staged := staged w;
           cwd := cwd w;
           server_thread := Some (available_versions.1, available_versions.2, server_host) |},
        [ThreadStart available_versions server_host]).

(** [subprocess.run(argv, check=True)]: a non-zero exit status raises
    [CalledProcessError] with the arguments and the status. *)
Definition subprocess_run_check (env : Env) (c : command) (argv : list string) : M unit :=
  emit (RunLocal c) ;;
  if exit_status (run_local env c) =? 0 then ret tt
  else raise (CalledProcessError argv (exit_status (run_local env c))).

(** [subprocess.Popen(argv, stdout=PIPE, stderr=PIPE)] followed by [wait()] *)
Definition subprocess_popen (env : Env) (c : command) : M completed :=
  emit (RunLocal c) ;; ret (run_local env c).

(** [remarkable_remote.exec_command(c)] *)
Definition exec_command (env : Env) (remarkable_remote : Remote) (c : command)
  : M completed :=
  emit (ExecRemote (remote_ip remarkable_remote) c) ;;
  ret (exec_remote env (remote_ip remarkable_remote) c).

(* ===================================================================== *)
(** * [connect_to_rm] (lines 90-140) *)
(* ===================================================================== *)

Definition use_password_prompt : string :=
  "Would you like to use a password to connect? (Y/n): ".
Definition key_prompt : string := "Enter path to SSH key: ".
Definition password_prompt : string := "Enter RM SSH password: ".

(** The loop of lines 111-125: a key file is asked for until one connects;
    [except Exception] swallows every failure of [client.connect]. *)
Fixpoint connect_key_loop (env : Env) (ip : string) (answers : list string)
  : result unit * list string * list event :=
  match answers with
  | [] => (Raise EOFError, [], [Input key_prompt None])
  | key_path :: answers' =>
      if negb (path_isfile env key_path) then
        let '(r, rest, evs) := connect_key_loop env ip answers' in
        (r, rest, Input key_prompt (Some key_path) :: Print "Invalid path given" :: evs)
      else
        match ssh_connect env ip (KeyFilename key_path) with
        | Connected =>
            (Return tt, answers',
             [Input key_prompt (Some key_path); SshConnect ip (KeyFilename key_path)])
        | _ =>
            let '(r, rest, evs) := connect_key_loop env ip answers' in
            (r, rest,
             Input key_prompt (Some key_path) :: SshConnect ip (KeyFilename key_path)
               :: Print "Error while connecting to device: {error}" :: evs)
        end
  end.

(** The loop of lines 127-137: only [AuthenticationException] is caught. *)
Fixpoint connect_password_loop (env : Env) (ip : string) (answers : list string)
  : result unit * list string * list event :=
  match answers with
  | [] => (Raise EOFError, [], [Input password_prompt None])
  | password :: answers' =>
      match ssh_connect env ip (Password password) with
      | Connected =>
          (Return tt, answers',
           [Input password_prompt (Some password); SshConnect ip (Password password)])
      | AuthenticationException =>
          let '(r, rest, evs) := connect_password_loop env ip answers' in
          (r, rest,
           Input password_prompt (Some password) :: SshConnect ip (Password password)
             :: Print "Incorrect password given" :: evs)
      | OtherException what =>
          (Raise (ForeignError what), answers',
           [Input password_prompt (Some password); SshConnect ip (Password password)])
      end
  end.

Definition default_ip : string := "10.11.99.1".

Definition connect_to_rm (env : Env) (args : Args) (ip : string) : M Remote :=
  let client := {| remote_ip := ip |} in
  connected <- (match auth args with
                | Some (String c s) =>
                    let args_auth := String c s in
                    let cred := if path_isfile env args_auth
                                then KeyFilename args_auth else Password args_auth in
                    emit (SshConnect ip cred) ;;
                    match ssh_connect env ip cred with
                    | Connected => print "Connected to device" ;; ret true
                    | AuthenticationException =>
                        print "Incorrect password or ssh path given in arguments!" ;;
                        ret false
                    | OtherException what => raise (ForeignError what)
                    end
                | _ => ret false
                end) ;;
  if (connected : bool) then ret client
  else
    answer <- input use_password_prompt ;;
    (if Py.contains (Py.lower answer) "n"
     then interact (connect_key_loop env ip)
     else interact (connect_password_loop env ip)) ;;
    print "Connected to device" ;;
    ret client.

(* ===================================================================== *)
(** * [edit_config] (lines 184-210) and [get_remarkable_ip] (lines 213-219) *)
(* ===================================================================== *)

(** The file is read and written on the device, directly when the tool runs
    on it and through SFTP otherwise; both branches patch it the same way.
    Reading and writing are taken to succeed. *)
Definition edit_config (server_ip : string) (port : Z)
    (remarkable_remote : option Remote) : M unit :=
  let server_host_name := server_host_name server_ip port in
  match remarkable_remote with
  | None =>
      contents <- read_update_conf ;;
      modified_conf_version <- of_result (set_server_config contents server_host_name) ;;
      write_update_conf modified_conf_version
  | Some ftp =>
      contents <- read_update_conf ;;
      modified_conf_version <- of_result (set_server_config contents server_host_name) ;;
      write_update_conf modified_conf_version
  end.

Definition remarkable_ip_prompt : string :=
  "Please enter the IP of the remarkable device: ".
Definition sure_prompt_ip : string := "Are you sure? (Y/n) ".

Fixpoint get_remarkable_ip_loop (answers : list string)
  : result string * list string * list event :=
  match answers with
  | [] => (Raise EOFError, [], [Input remarkable_ip_prompt None])
  | remote_ip :: answers' =>
      match answers' with
      | [] => (Raise EOFError, [],
               [Input remarkable_ip_prompt (Some remote_ip); Input sure_prompt_ip None])
      | sure :: answers'' =>
          if negb (String.eqb (Py.lower sure) "n") then
            (Return remote_ip, answers'',
             [Input remarkable_ip_prompt (Some remote_ip);
              Input sure_prompt_ip (Some sure)])
          else
            let '(r, rest, evs) := get_remarkable_ip_loop answers'' in
            (r, rest,
             Input remarkable_ip_prompt (Some remote_ip)
               :: Input sure_prompt_ip (Some sure) :: evs)
      end
  end.

Definition get_remarkable_ip : M string := interact get_remarkable_ip_loop.

(* ===================================================================== *)
(** * [get_available_version] (lines 332-340) *)
(* ===================================================================== *)

(** The first device whose staged identifiers contain [version], as the
    one-entry dictionary [{device: ids}]; [None] when the loop ends. *)
Definition get_available_version (version : string) : M (option (string * list string)) :=
  available_versions <- scanUpdates ;;
  ret (find (λ entry, Py.list_contains entry.2 version) available_versions).

(* ===================================================================== *)
(** * [do_install] (lines 343-510) *)
(* ===================================================================== *)

Definition DQUOTE : string := String "034"%char EmptyString.

Definition deps_msg_install : string :=
  "Error: Detected as running on the remote device, but could not resolve dependencies. "
  +:+ "Please install them with " +:+ DQUOTE +:+ "pip install -r requirements.txt".

Definition server_host_prompt : string :=
  String LF "Please enter your IP for the network the device is connected to: ".
Definition sure_prompt : string := "Are you sure? (Y/n): ".
Definition shutdown_prompt : string := "Done! Would you like to shutdown? (y/N): ".
Definition update_error_msg : string := "There was an error updating :(".
Definition unreachable_msg : string :=
  "Device cannot reach server! Is the firewall blocking connections?".

(** Lines 343-384: enter the serve folder and make sure that the version is
    staged, downloading it when it is not. Returns the version that is
    served and the temporary folder, if one was made. *)
Definition install_ensure_staged (env : Env) (args : Args) (device_type : Z)
  : M (string * list string * option string) :=
  temp_path <- (match serve_folder args with
                | Some (String c s) => chdir (String c s) ;; ret None
                | _ =>
                    emit (Mkdtemp (mkdtemp env)) ;;
                    chdir (mkdtemp env) ;;
                    ret (Some (mkdtemp env))
                end) ;;
  here <- getcwd ;;
  (if negb (path_exists env here "updates") then emit (Mkdir "updates") else ret tt) ;;
  _ <- scanUpdates ;;
  version <- of_result (version_lookup (updateman env) (version args) device_type) ;;
  available_versions <- get_available_version version ;;
  match available_versions with
  | Some available_versions => ret (available_versions, temp_path)
  | None =>
      print ("The version firmware file you specified could not be found, "
             +:+ "attempting to download (" +:+ version +:+ ")") ;;
      here <- getcwd ;;
      result <- updateman_get_version env version device_type (here +:+ "/updates") ;;
      match result with
      | None => raise (SystemExit "Error: Was not able to download firmware file!")
      | Some result =>
          if String.eqb result "Not in version list"
          then raise (SystemExit "Error: This version is not supported!")
          else
            available_versions <- get_available_version version ;;
            match available_versions with
            | None =>
                raise (SystemExit
                         "Error: Something went wrong trying to download update file!")
            | Some available_versions => ret (available_versions, temp_path)
            end
      end
  end.

(** The loop of lines 414-425: the operator's address is asked for until it
    is one of the listed addresses and is confirmed. *)
Fixpoint ask_server_host (host_interfaces : string) (answers : list string)
  : result string * list string * list event :=
  match answers with
  | [] => (Raise EOFError, [], [Input server_host_prompt None])
  | server_host :: answers' =>
      if negb (Py.list_contains (Py.split host_interfaces LF) server_host) then
        let '(r, rest, evs) := ask_server_host host_interfaces answers' in
        (r, rest,
         Input server_host_prompt (Some server_host)
           :: Print "Error: Invalid IP given" :: evs)
      else
        match answers' with
        | [] => (Raise EOFError, [],
                 [Input server_host_prompt (Some server_host); Input sure_prompt None])
        | sure :: answers'' =>
            if Py.contains (Py.lower sure) "n" then
              let '(r, rest, evs) := ask_server_host host_interfaces answers'' in
              (r, rest,
               Input server_host_prompt (Some server_host)
                 :: Input sure_prompt (Some sure) :: evs)
            else
              (Return server_host, answers'',
               [Input server_host_prompt (Some server_host);
                Input sure_prompt (Some sure)])
        end
  end.

Definition could_not_find_usb_msg (host_interfaces : string) : string :=
  NL +:+ host_interfaces +:+ NL +:+
  "Could not find USB interface, assuming connected over WiFi (interfaces list above)".

(** Lines 405-407, [len(server_host) == 1]: the one address is the address
    of the server and the device is reached at its USB address, the default
    of [connect_to_rm]. *)
Definition topology_usb (env : Env) (args : Args) (server_host : string)
  : M (string * option Remote) :=
  remarkable_remote <- connect_to_rm env args default_ip ;;
  ret (server_host, Some remarkable_remote).

(** Lines 408-429: the addresses are listed and the operator is asked for
    the own address and for the address of the device. *)
Definition topology_wifi (env : Env) (args : Args) (server_host : list string)
  : M (string * option Remote) :=
  let host_interfaces := Py.join NL server_host in
  print (could_not_find_usb_msg host_interfaces) ;;
  server_host <- interact (ask_server_host host_interfaces) ;;
  remote_ip <- get_remarkable_ip ;;
  remarkable_remote <- connect_to_rm env args remote_ip ;;
  ret (server_host, Some remarkable_remote).

(** Lines 386-429: the address the server binds to and the session with
    the device, [None] when the tool runs on the device itself.
    [get_host_ip] returns a list, so [server_host is None] never holds. *)
Definition install_topology (env : Env) (args : Args) : M (string * option Remote) :=
  if negb (is_rm env) then
    if negb (REMOTE_DEPS_MET env) then raise (SystemExit deps_msg_install)
    else
      let server_host := get_host_ip (net_if_addrs env) in
      match server_host with
      | [server_host] => topology_usb env args server_host
      | _ => topology_wifi env args server_host
      end
  else ret ("0.0.0.0", None).

(** Lines 444-505: trigger the update engine of the device and wait for it. *)
Definition install_update (env : Env) (server_host : string)
    (remarkable_remote : option Remote) : M unit :=
  match remarkable_remote with
  | None =>
      print "Enabling update service" ;;
      subprocess_run_check env SystemctlStartUpdateEngine
        ["/bin/systemctl"; "start"; "update-engine"] ;;
      process <- subprocess_popen env UpdateEngineClientUpdate ;;
      (if negb (exit_status process =? 0) then
         print (err_text process) ;;
         raise (SystemExit update_error_msg)
       else ret tt) ;;
      answer <- input shutdown_prompt ;;
      if Py.contains (Py.lower answer) "y"
      then subprocess_run_check env ShutdownNow ["/sbin/shutdown"; "now"]
      else ret tt
  | Some remarkable_remote =>
      print "Checking if device can reach server" ;;
      probe <- exec_command env remarkable_remote (NcProbe server_host) ;;
      let check := exit_status probe in
      (if negb (check =? 0) then raise (SystemExit unreachable_msg) else ret tt) ;;
      print "Starting update service on device" ;;
      _ <- exec_command env remarkable_remote SystemctlStartUpdateEngine ;;
      client <- exec_command env remarkable_remote UpdateEngineClientUpdate ;;
      let exit_status := exit_status client in
      (if negb (exit_status =? 0) then
         print (err_text client) ;;
         raise (SystemExit update_error_msg)
       else ret tt) ;;
      print "Success! Please restart the reMarkable device!"
  end.

(** The text of lines 434-436, with the [repr] of the one-entry
    dictionary. *)
Definition available_versions_msg (available_versions : string * list string) : string :=
  "Available versions to update to are: {"
  +:+ Py.repr_str available_versions.1 +:+ ": "
  +:+ Py.repr_list available_versions.2 +:+ "}" +:+ NL
  +:+ "The device will update to the latest one.".

Definition do_install (env : Env) (args : Args) (device_type : Z) : M unit :=
  orig_cwd <- getcwd ;;
  staged_version <- install_ensure_staged env args device_type ;;
  let '(available_versions, temp_path) := staged_version in
  topology <- install_topology env args ;;
  let '(server_host, remarkable_remote) := topology in
  edit_config server_host 8080 remarkable_remote ;;
  print (available_versions_msg available_versions) ;;
  thread_start available_versions server_host ;;
  install_update env server_host remarkable_remote ;;
  chdir orig_cwd ;;
  match temp_path with
  | Some temp_path => emit (Rmtree temp_path)
  | None => ret tt
  end.

(* ===================================================================== *)
(** * [do_restore] (lines 513-553) *)
(* ===================================================================== *)

Definition restore_prompt : string := "Are you sure you want to restore? (y/N): ".

Definition deps_msg_restore : string := deps_msg_install +:+ DQUOTE.

(** In the arguments of the local run, "RESTORE_CODE" stands for the text
    of the script. *)
Definition do_restore (env : Env) (args : Args) : M unit :=
  answer <- input restore_prompt ;;
  (if negb (Py.contains (Py.lower answer) "y")
   then raise (SystemExit "Aborted!!!") else ret tt) ;;
  if update_conf_isfile env then
    subprocess_run_check env RunRestoreCode ["/bin/bash"; "-l"; "-c"; "RESTORE_CODE"] ;;
    answer <- input shutdown_prompt ;;
    if Py.contains (Py.lower answer) "y"
    then subprocess_run_check env ShutdownNow ["shutdown"; "now"]
    else ret tt
  else if negb (REMOTE_DEPS_MET env) then raise (SystemExit deps_msg_restore)
  else
    remote_ip <- (match get_host_ip (net_if_addrs env) with
                  | [_] => print "Detected as USB connection" ;; ret default_ip
                  | _ => print "Detected as WiFi connection" ;; get_remarkable_ip
                  end) ;;
    remarkable_remote <- connect_to_rm env args remote_ip ;;
    stdout <- exec_command env remarkable_remote RunRestoreCode ;;
    let _ := exit_status stdout in
    print "Done, Please reboot the device!".

(* ===================================================================== *)
(** * Vocabulary of the properties *)
(* ===================================================================== *)

(** A line of the configuration document after deactivation. *)
Definition deactivate (l : string) : string :=
  if Py.startswith l "SERVER=" then "#" +:+ l else l.

(** The lines of a document and its active [SERVER=] lines. *)
Definition lines (doc : string) : list string := Py.split doc LF.

Definition active_server_lines (doc : string) : list string :=
  filter (λ l, Py.startswith l "SERVER=" = true) (lines doc).

(** The value of [line] after the loop of [set_server_config] has run over
    the lines [todo], the first of them at index [i]. *)
Fixpoint insertion_point (i line : nat) (todo : list string) : nat :=
  match todo with
  | [] => line
  | l :: todo' =>
      insertion_point (S i)
        (if Py.startswith l "[General]" then (i + 1)%nat else line) todo'
  end.

(** A text without line feed. *)
Definition single_line (s : string) : Prop := Py.contains s LF = false.

(** The IPv4 addresses of the interfaces, in the order of enumeration, and
    those of the USB-tether subnet among them. *)
Abbreviation is_inet := (λ n : snic, is_AF_INET (family n) = true).
Abbreviation is_usb := (λ a : string, Py.startswith a "10.11.99" = true).

Definition ipv4_addresses (net : option (list (string * list snic))) : list string :=
  match net with
  | None => []
  | Some interfaces => address <$> filter is_inet (mjoin (snd <$> interfaces))
  end.

Definition usb_candidates (net : option (list (string * list snic))) : list string :=
  filter is_usb (ipv4_addresses net).

(** [env] with other results of the commands run through the session. *)
Definition with_exec_remote (f : string → command → completed) (env : Env) : Env :=
  {| REMOTE_DEPS_MET := REMOTE_DEPS_MET env; is_rm := is_rm env;
     update_conf_isfile := update_conf_isfile env; net_if_addrs := net_if_addrs env;
     path_isfile := path_isfile env; path_exists := path_exists env;
     mkdtemp := mkdtemp env; ssh_connect := ssh_connect env;
     run_local := run_local env; exec_remote := f;
     updateman := updateman env; get_version := get_version env |}.

(** Every value returned by a run of [m] satisfies [Q]. *)
Definition returns_only {A} (Q : A → Prop) (m : M A) : Prop :=
  ∀ w a, result_of (m w) = Return a → Q a.

(** Every event of every run of [m] satisfies [P]. *)
Definition emits_only {A} (P : event → Prop) (m : M A) : Prop :=
  ∀ w, Forall P (events_of (m w)).

(** The update client of the device was run and completed as [client]. *)
Definition client_ran (env : Env) (evs : list event) (client : completed) : Prop :=
  (RunLocal UpdateEngineClientUpdate ∈ evs
   ∧ client = run_local env UpdateEngineClientUpdate)
  ∨ (∃ ip, ExecRemote ip UpdateEngineClientUpdate ∈ evs
         ∧ client = exec_remote env ip UpdateEngineClientUpdate).

Definition is_update_client (e : event) : Prop :=
  match e with
  | RunLocal UpdateEngineClientUpdate | ExecRemote _ UpdateEngineClientUpdate => True
  | _ => False
  end.

(** What [install_ensure_staged] does. *)
Definition is_staging (e : event) : Prop :=
  match e with
  | Print _ | Chdir _ | Mkdtemp _ | Mkdir _ => True
  | _ => False
  end.

(** The operator is asked for the own address or for that of the device. *)
Definition is_topology_prompt (e : event) : bool :=
  match e with
  | Input prompt _ =>
      String.eqb prompt server_host_prompt || String.eqb prompt remarkable_ip_prompt
  | _ => false
  end.

(** What [connect_to_rm] does for the address [ip]: it prints, asks for the
    credentials and connects to [ip]. *)
Definition is_connecting (ip : string) (e : event) : Prop :=
  match e with
  | Print _ => True
  | Input prompt _ => prompt ∈ [use_password_prompt; key_prompt; password_prompt]
  | SshConnect ip' _ => ip' = ip
  | _ => False
  end.

(** What is printed, asked and connected before the update is triggered. *)
Definition is_dialogue (e : event) : Prop :=
  match e with
  | Print _ | Input _ _ | SshConnect _ _ => True
  | _ => False
  end.

(** Where commands run: only locally when there is no session, only
    through the session otherwise. *)
Definition runs_where (remote : option Remote) (e : event) : Prop :=
  match e, remote with
  | ExecRemote _ _, None => False
  | ExecRemote ip _, Some remarkable_remote => ip = remote_ip remarkable_remote
  | RunLocal _, Some _ => False
  | _, _ => True
  end.

(* ===================================================================== *)
(** * Scenarios *)
(* ===================================================================== *)

Module Scenario.

Definition catalog : UpdateManager :=
  {| get_latest_version := λ _, "3.9.9.9";
     latest_toltec_version := "2.15.1.1189";
     id_lookups_rm1 := {["2.15.0.1067"]};
     id_lookups_rm2 := {["3.2.3.1595"]} |}.

Definition fresh (answers : list string) (conf : string) : World :=
  {| stdin := answers; update_conf := conf; staged := [];
     cwd := "/home/operator"; server_thread := None |}.

Definition conf : string := "[General]" +:+ NL +:+ "SERVER=old" +:+ NL.

(** A workstation with the given interfaces; every command succeeds except
    that the update client of the device exits with [client_status] and
    the restore script with [restore_status]. *)
Definition workstation (interfaces : list (string * list snic))
    (client_status restore_status : Z) (client_stderr : string) : Env :=
  {| REMOTE_DEPS_MET := true;
     is_rm := false;
     update_conf_isfile := false;
     net_if_addrs := Some interfaces;
     path_isfile := λ _, false;
     path_exists := λ _ _, false;
     mkdtemp := "/tmp/tmpcodex";
     ssh_connect := λ _ _, Connected;
     run_local := λ _, mk_completed 0 "" "";
     exec_remote := λ _ c,
       match c with
       | UpdateEngineClientUpdate => mk_completed client_status "" client_stderr
       | RunRestoreCode => mk_completed restore_status "" ""
       | _ => mk_completed 0 "" ""
       end;
     updateman := catalog;
     get_version := λ v _ _ st, (Some "3.9.9.9_reMarkable2.signed", ("reMarkable 2", [v]) :: st) |}.

(** The tool running on the device itself. *)
Definition tablet (client_status restore_status : Z) (client_stderr : string) : Env :=
  {| REMOTE_DEPS_MET := false;
     is_rm := true;
     update_conf_isfile := true;
     net_if_addrs := None;
     path_isfile := λ _, false;
     path_exists := λ _ _, false;
     mkdtemp := "/tmp/tmpcodex";
     ssh_connect := λ _ _, OtherException "no network";
     run_local := λ c,
       match c with
       | UpdateEngineClientUpdate => mk_completed client_status "" client_stderr
       | RunRestoreCode => mk_completed restore_status "" ""
       | _ => mk_completed 0 "" ""
       end;
     exec_remote := λ _ _, mk_completed 0 "" "";
     updateman := catalog;
     get_version := λ v _ _ st, (Some "3.9.9.9_reMarkable2.signed", ("reMarkable 2", [v]) :: st) |}.

Definition usb0 : string * list snic :=
  ("usb0", [mk_snic AF_LINK "aa:bb"; mk_snic AF_INET "10.11.99.2"]).
Definition usb1 : string * list snic := ("usb1", [mk_snic AF_INET "10.11.99.3"]).
Definition lo : string * list snic := ("lo", [mk_snic AF_INET "127.0.0.1"]).
Definition wlan0 : string * list snic := ("wlan0", [mk_snic AF_INET "192.168.1.20"]).

Definition args (token : string) : Args :=
  {| auth := Some "secret"; serve_folder := None; version := token |}.

(** The operator's machine with the tablet on USB; with two USB-tether
    addresses; on a wireless network only; and with the loopback interface
    only. *)
Definition on_usb : Env := workstation [lo; usb0; wlan0] 0 0 "".
Definition two_usb : Env := workstation [lo; usb0; usb1] 0 0 "".
Definition on_wifi : Env := workstation [lo; wlan0] 0 0 "".
Definition loopback_only : Env := workstation [lo] 0 0 "".

(** The update client of the device fails. *)
Definition hash_mismatch : Env := workstation [usb0] 1 0 "payload hash mismatch".

(** The restore script exits with [status], run through the session and run
    on the device. *)
Definition restore_remote (status : Z) : Env := workstation [usb0] 0 status "".
Definition restore_local (status : Z) : Env := tablet 0 status "".

End Scenario.

(* ===================================================================== *)
(** * [do_download] (lines 222-238), [do_status] (lines 278-329) and the
      device type of [main] (lines 777-780) *)
(* ===================================================================== *)

(** [device_type = 2], and 1 with [--rm1]. *)
Definition device_type (rm1 : bool) : Z := if rm1 then 1 else 2.

(** [updateman.get_version(version, device, download_folder)] as
    [do_download] calls it, with [args.out] for the folder, which may be
    [None]: the file name, a sentence that says what went wrong, or
    [None]. Like the catalog it is taken as a parameter. *)
Definition fetcher : Type := string → Z → option string → option string.

Definition do_download (um : UpdateManager) (get_version : fetcher)
    (version_arg : string) (out : option string) (device_type : Z) : M unit :=
  version <- of_result (version_lookup um version_arg device_type) ;;
  print ("Downloading " +:+ version +:+ " to "
         +:+ match out with
             | Some (String c s) => String c s
             | _ => "downloads folder"
             end) ;;
  let filename := get_version version device_type out in
  match filename with
  | None => raise (SystemExit "Error: Was not able to download firmware file!")
  | Some filename =>
      if String.eqb filename "Download folder does not exist"
      then raise (SystemExit "Error: Download folder does not exist!")
      else if String.eqb filename "Not in version list"
      then raise (SystemExit "Error: This version is not currently supported!")
      else print ("Done! (" +:+ filename +:+ ")")
  end.

Module Str.

(** [s.rstrip(chars)] and [s.lstrip(chars)] for the characters that [strip]
    holds. *)
Fixpoint rstrip_by (strip : ascii → bool) (s : string) : string :=
  match s with
  | EmptyString => EmptyString
  | String c s' =>
      match rstrip_by strip s' with
      | EmptyString => if strip c then EmptyString else String c EmptyString
      | kept => String c kept
      end
  end.

Fixpoint lstrip_by (strip : ascii → bool) (s : string) : string :=
  match s with
  | EmptyString => EmptyString
  | String c s' => if strip c then lstrip_by strip s' else s
  end.

(** [s.strip(chr(10))] *)
Definition strip_lf (s : string) : string :=
  rstrip_by (λ c, Ascii.eqb c LF) (lstrip_by (λ c, Ascii.eqb c LF) s).

End Str.

Module Re.

(** What is left of [s] after the prefix [key], if it begins with it. *)
Fixpoint after_prefix (key s : string) : option string :=
  match key, s with
  | EmptyString, _ => Some s
  | String a key', String b s' => if Ascii.eqb a b then after_prefix key' s' else None
  | String _ _, EmptyString => None
  end.

(** [.*]: the characters up to the next line feed. *)
Fixpoint dot_star (s : string) : string :=
  match s with
  | EmptyString => EmptyString
  | String c s' => if Ascii.eqb c LF then EmptyString else String c (dot_star s')
  end.

Fixpoint first_after (keys : list string) (s : string) : option string :=
  match keys with
  | [] => None
  | key :: keys' =>
      match after_prefix key s with
      | Some rest => Some rest
      | None => first_after keys' s
      end
  end.

(** [re.search("(?<=key).*", s)], also for a [key] that begins with a
    choice of characters, written as the list of its readings, all of one
    length: the match starts at the leftmost position that follows a
    reading, and [group()] is [dot_star] of the text from there. [None]:
    no match. *)
Fixpoint search_after (keys : list string) (s : string) : option string :=
  match first_after keys s with
  | Some rest => Some (dot_star rest)
  | None =>
      match s with
      | EmptyString => None
      | String _ s' => search_after keys s'
      end
  end.

End Re.

(** What [do_status] observes besides [Env] and the file [update.conf] of
    the [World]: Python's [str.rstrip()]; the texts of [/etc/remarkable.conf]
    and of [/etc/version], [None] for a file that is not there; whether
    [update.conf] is there, for the run on the device; and what
    [ftp.file] raises for a file that is not there. A file that is there
    can be read. *)
Record StatusFiles := mk_StatusFiles {
  str_rstrip : string → string;
  etc_remarkable_conf : option string;
  etc_version : option string;
  update_conf_exists : bool;
  sftp_missing : exn
}.

Definition release_key : string := "REMARKABLE_RELEASE_VERSION=".

(** Lines 322-329: the message that is printed. [group()] of a search
    without match raises [AttributeError]. *)
Definition status_message (config_contents version_id version_contents : string)
  : result string :=
  let beta := Re.search_after ["BetaProgram="] config_contents in
  let m := Re.search_after ["PreviousVersion="; "previousVersion="] config_contents in
  let prev := match m with Some group => group | None => "unknown" end in
  match Re.search_after [release_key] version_contents with
  | None => Raise (ForeignError "AttributeError")
  | Some current =>
      Return ("You are running " +:+ current +:+ " [" +:+ version_id +:+ "]"
              +:+ match beta with
                  | Some (String _ _) => "[BETA]"
                  | _ => ""
                  end
              +:+ ", previous version was " +:+ prev)
  end.

(** [ftp.file(path).read().decode("utf-8")] *)
Definition sftp_read (files : StatusFiles) (file : option string) : M string :=
  match file with
  | Some text => ret text
  | None => raise (sftp_missing files)
  end.

(** Lines 278-329. Through the session, [update.conf] is read as
    [edit_config] reads it; opening the SFTP channel is taken to succeed. *)
Definition do_status (env : Env) (files : StatusFiles) (args : Args) : M unit :=
  contents <-
    (if is_rm env then
       let config_contents :=
         match etc_remarkable_conf files with Some text => text | None => "" end in
       let version_id :=
         match etc_version files with Some text => str_rstrip files text | None => "" end in
       version_contents <-
         (if update_conf_exists files
          then text <- read_update_conf ;; ret (str_rstrip files text)
          else ret "") ;;
       ret (config_contents, version_id, version_contents)
     else if negb (REMOTE_DEPS_MET env) then raise (SystemExit deps_msg_install)
     else
       ip <- (match get_host_ip (net_if_addrs env) with
              | [_] => ret default_ip
              | _ => get_remarkable_ip
              end) ;;
       remarkable_remote <- connect_to_rm env args ip ;;
       config_contents <- sftp_read files (etc_remarkable_conf files) ;;
       version_id <- sftp_read files (etc_version files) ;;
       version_contents <- read_update_conf ;;
       ret (config_contents, Str.strip_lf version_id, version_contents)) ;;
  let '(config_contents, version_id, version_contents) := contents in
  message <- of_result (status_message config_contents version_id version_contents) ;;
  print message.

(* ===================================================================== *)
(** * Vocabulary of the further properties *)
(* ===================================================================== *)

(** A key file is only tried when it exists. *)
Definition key_file_exists (env : Env) (e : event) : Prop :=
  match e with
  | SshConnect _ (KeyFilename path) => path_isfile env path = true
  | _ => True
  end.

(** Something is done to or on the device. *)
Definition touches_device (e : event) : Prop :=
  match e with
  | SshConnect _ _ | WriteConf _ | ThreadStart _ _ | RunLocal _ | ExecRemote _ _ => True
  | _ => False
  end.


(** The part of [connect_to_rm] after the attempt with [args.auth]
    (lines 110-140). *)
Definition connect_prompts (env : Env) (ip : string) : M Remote :=
  answer <- input use_password_prompt ;;
  (if Py.contains (Py.lower answer) "n"
   then interact (connect_key_loop env ip)
   else interact (connect_password_loop env ip)) ;;
  print "Connected to device" ;;
  ret {| remote_ip := ip |}.

(** No run of [m] changes what [f] reads of the world. *)
Definition keeps {A X} (f : World → X) (m : M A) : Prop :=
  ∀ w, f (world_of (m w)) = f w.

(** What the workflows have done to the device: its configuration file and
    the server thread. *)
Definition device_state (w : World) : string * option (string * list string * string) :=
  (update_conf w, server_thread w).

(** What the install workflow does when it runs on the device: it uses no
    session, asks only whether to shut down, and serves on all addresses. *)
Definition on_device_event (e : event) : Prop :=
  match e with
  | SshConnect _ _ | ExecRemote _ _ => False
  | Input prompt _ => prompt = shutdown_prompt
  | ThreadStart _ server_host => server_host = "0.0.0.0"
  | _ => True
  end.

(** What the restore workflow does: it asks and prints; it runs the script
    and the shutdown on the machine only where the configuration file of
    the device is a file of the machine, and only otherwise connects and
    runs the script, and nothing else, through the session. *)
Definition is_restoring (env : Env) (e : event) : Prop :=
  match e with
  | Print _ | Input _ _ => True
  | RunLocal c => update_conf_isfile env = true ∧ (c = RunRestoreCode ∨ c = ShutdownNow)
  | SshConnect _ _ => update_conf_isfile env = false
  | ExecRemote _ c => update_conf_isfile env = false ∧ c = RunRestoreCode
  | _ => False
  end.

(** The folder the install workflow serves from: [args.serve_folder], or
    the temporary folder when that is not given or empty. *)
Definition serve_path (env : Env) (args : Args) : string :=
  match serve_folder args with
  | Some (String c s) => String c s
  | _ => mkdtemp env
  end.

(** The exceptions that the statements of a workflow raise themselves,
    through [raise], [input] and [subprocess.run]; not those of a call
    of the operating system or of a library that fails. *)
Definition raised_by_workflow (e : exn) : Prop :=
  match e with
  | SystemExit _ | SystemError _ | CalledProcessError _ _ | EOFError => True
  | _ => False
  end.

(** The part of [do_status] that runs through the session before
    [update.conf] is read (lines 298-313). *)
Definition status_session (env : Env) (files : StatusFiles) (args : Args)
  : M (string * string) :=
  ip <- (match get_host_ip (net_if_addrs env) with
         | [_] => ret default_ip
         | _ => get_remarkable_ip
         end) ;;
  remarkable_remote <- connect_to_rm env args ip ;;
  config_contents <- sftp_read files (etc_remarkable_conf files) ;;
  version_id <- sftp_read files (etc_version files) ;;
  ret (config_contents, version_id).

(** The world with another text in [update.conf]. *)
Definition with_update_conf (text : string) (w : World) : World :=
  {| stdin := stdin w; update_conf := text; staged := staged w; cwd := cwd w;
     server_thread := server_thread w |}.

(** [m] neither reads nor writes [update.conf]. *)
Definition ignores_update_conf {A} (m : M A) : Prop :=
  ∀ text w,
    m (with_update_conf text w)
    = (result_of (m w), with_update_conf text (world_of (m w)), events_of (m w)).

(** The answers of an operator who enters a pair of lines several times. *)
Definition pairs_flat (pairs : list (string * string)) : list string :=
  mjoin ((λ p, [p.1; p.2]) <$> pairs).

Module Cases.

Definition files : StatusFiles :=
  {| str_rstrip := Str.rstrip_by (λ c, Ascii.eqb c LF);
     etc_remarkable_conf := Some ("[General]" +:+ NL +:+ "BetaProgram=true" +:+ NL
                                  +:+ "PreviousVersion=3.2.3.1595" +:+ NL);
     etc_version := Some ("20230427135210" +:+ NL);
     update_conf_exists := false;
     sftp_missing := ForeignError "IOError" |}.

(** An operator's machine where the password "secret" is the right one and
    the file [/root/.ssh/id] is a key that the device rejects. *)
Definition picky : Env :=
  {| REMOTE_DEPS_MET := true;
     is_rm := false;
     update_conf_isfile := false;
     net_if_addrs := Some [Scenario.usb0];
     path_isfile := λ p, String.eqb p "/root/.ssh/id";
     path_exists := λ _ _, false;
     mkdtemp := "/tmp/tmpcodex";
     ssh_connect := λ _ cred,
       match cred with
       | Password "secret" => Connected
       | _ => AuthenticationException
       end;
     run_local := λ _, mk_completed 0 "" "";
     exec_remote := λ _ c,
       match c with
       | NcProbe _ => mk_completed 1 "" ""
       | _ => mk_completed 0 "" ""
       end;
     updateman := Scenario.catalog;
     get_version := λ v _ _ st,
       (Some "3.9.9.9_reMarkable2.signed", ("reMarkable 2", [v]) :: st) |}.

End Cases.

(* ===================================================================== *)
(** * Properties *)
(* ===================================================================== *)

(** ** The partition-swap script *)

Section RestoreCode.
Variable env : gmap string string.
Variable old : string.
Hypothesis Hactive : env !! "active_partition" = Some old.
Hypothesis Hword : Shell.expand_unquoted old = Some old.

Let new : string := if String.eqb old "2" then "3" else "2".

(** The run of the script on a one-word value of [active_partition]. *)
Lemma restore_code_run :
  Shell.RESTORE_CODE env =
    Some (Shell.fw_setenv "active_partition" new
           (Shell.fw_setenv "fallback_partition" old
             (Shell.echo ("fallback: " +:+ old)
               (Shell.echo ("new: " +:+ new)
                 (Shell.fw_setenv "bootcount" "0"
                   (Shell.fw_setenv "upgrade_available" "1" (Shell.start env))))))).
Proof.
  unfold Shell.RESTORE_CODE, Shell.fw_printenv_n.
  cbn [Shell.uboot Shell.fw_setenv Shell.start].
  rewrite !lookup_insert_ne by done. rewrite Hactive. cbn [mbind option_bind].
  rewrite Hword. cbn [mbind option_bind]. unfold Shell.test_eq, new.
  destruct (String.eqb old "2"); reflexivity.
Qed.
End RestoreCode.

Lemma written_before_adjacent (a b va vb : string) (l1 l3 : list (string * string)) :
  Forall (λ kv, kv.1 ≠ b) l1 →
  Shell.written_before a b (l1 ++ (a, va) :: (b, vb) :: l3).
Proof. intros H. exists l1, va, [], vb, l3. split; [reflexivity | assumption]. Qed.

(** C1. The swap of the restore script: from active partition 2 the result
    is active 3 and fallback 2, from active partition 3 it is active 2 and
    fallback 3, and [fallback_partition] is written before
    [active_partition]. *)
Theorem restore_code_swaps (env : gmap string string) (old new : string) :
  env !! "active_partition" = Some old →
  (old = "2" ∧ new = "3") ∨ (old = "3" ∧ new = "2") →
  ∃ st, Shell.RESTORE_CODE env = Some st
      ∧ Shell.uboot st !! "active_partition" = Some new
      ∧ Shell.uboot st !! "fallback_partition" = Some old
      ∧ Shell.setenv_log st =
          [("upgrade_available", "1"); ("bootcount", "0");
           ("fallback_partition", old); ("active_partition", new)]
      ∧ Shell.written_before "fallback_partition" "active_partition"
          (Shell.setenv_log st).
Proof.
  intros Hold Hcase. eexists. split.
  - apply restore_code_run; [exact Hold |].
    destruct Hcase as [[-> _] | [-> _]]; reflexivity.
  - assert (Hnew : (if String.eqb old "2" then "3" else "2") = new).
    { destruct Hcase as [[-> ->] | [-> ->]]; reflexivity. }
    rewrite Hnew.
    cbn [Shell.uboot Shell.setenv_log Shell.fw_setenv Shell.echo Shell.start].
    split; [apply lookup_insert_eq |].
    split; [rewrite lookup_insert_ne by done; apply lookup_insert_eq |].
    split; [reflexivity |].
    apply (written_before_adjacent _ _ old new
             [("upgrade_available", "1"); ("bootcount", "0")] []).
    repeat constructor; cbn; discriminate.
Qed.

Lemma restore_code_swaps_witness :
  ∃ st, Shell.RESTORE_CODE {["active_partition" := "3"]} = Some st
      ∧ Shell.uboot st !! "active_partition" = Some "2"
      ∧ Shell.uboot st !! "fallback_partition" = Some "3"
      ∧ Shell.setenv_log st =
          [("upgrade_available", "1"); ("bootcount", "0");
           ("fallback_partition", "3"); ("active_partition", "2")]
      ∧ Shell.written_before "fallback_partition" "active_partition"
          (Shell.setenv_log st).
Proof.
  apply (restore_code_swaps {["active_partition" := "3"]} "3" "2").
  - apply lookup_singleton_eq.
  - right. split; reflexivity.
Defined.

(** C7, as the code has it. For every value of [active_partition] that is
    one plain word other than "2" (so for every such value outside 2 and 3)
    the script does not reject: it exits with status 0 after writing
    [fallback_partition] to the old value and then [active_partition] to
    "2". *)
Theorem restore_code_never_rejects (env : gmap string string) (old : string) :
  env !! "active_partition" = Some old →
  Shell.expand_unquoted old = Some old →
  old ≠ "2" →
  ∃ st, Shell.RESTORE_CODE env = Some st
      ∧ Shell.status st = 0
      ∧ Shell.uboot st !! "fallback_partition" = Some old
      ∧ Shell.uboot st !! "active_partition" = Some "2"
      ∧ Shell.setenv_log st =
          [("upgrade_available", "1"); ("bootcount", "0");
           ("fallback_partition", old); ("active_partition", "2")].
Proof.
  intros Hold Hword Hne. eexists. split; [apply restore_code_run; eassumption |].
  assert (String.eqb old "2" = false) as -> by (apply String.eqb_neq; exact Hne).
  cbn [Shell.uboot Shell.setenv_log Shell.status Shell.fw_setenv Shell.echo Shell.start].
  split; [reflexivity |].
  split; [rewrite lookup_insert_ne by done; apply lookup_insert_eq |].
  split; [apply lookup_insert_eq | reflexivity].
Qed.

Lemma restore_code_never_rejects_witness :
  ∃ st, Shell.RESTORE_CODE {["active_partition" := "7"]} = Some st
      ∧ Shell.status st = 0
      ∧ Shell.uboot st !! "fallback_partition" = Some "7"
      ∧ Shell.uboot st !! "active_partition" = Some "2"
      ∧ Shell.setenv_log st =
          [("upgrade_available", "1"); ("bootcount", "0");
           ("fallback_partition", "7"); ("active_partition", "2")].
Proof.
  apply (restore_code_never_rejects {["active_partition" := "7"]} "7").
  - apply lookup_singleton_eq.
  - reflexivity.
  - discriminate.
Defined.

(** C7 as stated fails: from the active partition 4, outside 2 and 3, the
    script writes new values for both variables and exits with status 0. *)
Lemma restore_code_toggles_from_4 :
  "4" ≠ "2" ∧ "4" ≠ "3" ∧
  ∃ st, Shell.RESTORE_CODE {["active_partition" := "4"]} = Some st
      ∧ Shell.status st = 0
      ∧ Shell.setenv_log st =
          [("upgrade_available", "1"); ("bootcount", "0");
           ("fallback_partition", "4"); ("active_partition", "2")]
      ∧ Shell.uboot st !! "fallback_partition" = Some "4"
      ∧ Shell.uboot st !! "active_partition" = Some "2".
Proof.
  split; [discriminate |]. split; [discriminate |].
  eexists. split; [apply (restore_code_run _ "4"); [apply lookup_singleton_eq | reflexivity] |].
  cbn [Shell.uboot Shell.setenv_log Shell.status Shell.fw_setenv Shell.echo Shell.start String.eqb Ascii.eqb].
  split; [reflexivity |]. split; [reflexivity |].
  split; [rewrite lookup_insert_ne by done; apply lookup_insert_eq | apply lookup_insert_eq].
Qed.

(** ** Version resolution *)

(** C10. The tokens "latest" and "toltec" are resolved without looking at
    the device: for every device value the result is the catalog's latest
    version for it, respectively the pinned toltec version; the
    invalid-device error is only raised for other tokens, and only when the
    device is neither 1 nor 2. *)
Theorem version_lookup_latest_toltec (um : UpdateManager) (device : Z) :
  version_lookup um "latest" device = Return (get_latest_version um device)
  ∧ version_lookup um "toltec" device = Return (latest_toltec_version um)
  ∧ ∀ version,
      version_lookup um version device = Raise (SystemError invalid_device_msg) →
      version ≠ "latest" ∧ version ≠ "toltec" ∧ device ≠ 1 ∧ device ≠ 2.
Proof.
  split; [reflexivity |]. split; [reflexivity |].
  intros version. unfold version_lookup.
  destruct (String.eqb_spec version "latest") as [-> | Hl]; [discriminate |].
  destruct (String.eqb_spec version "toltec") as [-> | Ht]; [discriminate |].
  destruct (Z.eqb_spec device 2) as [-> | H2].
  { case_bool_decide; discriminate. }
  destruct (Z.eqb_spec device 1) as [-> | H1].
  { case_bool_decide; discriminate. }
  intros _. repeat split; assumption.
Qed.

Lemma version_lookup_latest_toltec_witness :
  version_lookup Scenario.catalog "latest" 7 = Return "3.9.9.9"
  ∧ version_lookup Scenario.catalog "toltec" 7 = Return "2.15.1.1189"
  ∧ ("3.2.3.1595" ≠ "latest" ∧ "3.2.3.1595" ≠ "toltec" ∧ 7 ≠ 1 ∧ 7 ≠ 2).
Proof.
  destruct (version_lookup_latest_toltec Scenario.catalog 7) as (Hl & Ht & Hdev).
  split; [exact Hl |]. split; [exact Ht |].
  apply (Hdev "3.2.3.1595"). reflexivity.
Defined.

(** C4, as the code has it. For a token other than "latest" and "toltec":
    a device that is neither 1 nor 2 raises [SystemError] with the message
    "Error: Invalid device given!", which names no example; a token that is
    not in the table of device 1 or 2 raises [SystemExit] with a message
    that lists the examples latest, toltec, 3.2.3.1595 and 2.15.0.1067. *)
Theorem version_lookup_failures (um : UpdateManager) (version : string) (device : Z) :
  version ≠ "latest" → version ≠ "toltec" →
  (device ≠ 1 ∧ device ≠ 2)
  ∨ (device = 1 ∧ version ∉ id_lookups_rm1 um)
  ∨ (device = 2 ∧ version ∉ id_lookups_rm2 um) →
  version_lookup um version device =
    (if bool_decide (device = 1 ∨ device = 2)
     then Raise (SystemExit invalid_version_msg)
     else Raise (SystemError invalid_device_msg))
  ∧ Forall (λ example, Py.str_in example invalid_version_msg = true)
      ["latest"; "toltec"; "3.2.3.1595"; "2.15.0.1067"]
  ∧ Forall (λ example, Py.str_in example invalid_device_msg = false)
      ["latest"; "toltec"; "3.2.3.1595"; "2.15.0.1067"].
Proof.
  intros Hl Ht Hfail. split; [| split; repeat constructor].
  unfold version_lookup.
  apply String.eqb_neq in Hl, Ht. rewrite Hl, Ht.
  destruct Hfail as [[H1 H2] | [[-> Hout] | [-> Hout]]].
  - apply Z.eqb_neq in H1 as H1', H2 as H2'. rewrite H1', H2'.
    rewrite bool_decide_eq_false_2; [reflexivity | intros [? | ?]; contradiction].
  - cbn. rewrite bool_decide_eq_false_2 by exact Hout. reflexivity.
  - cbn. rewrite bool_decide_eq_false_2 by exact Hout. reflexivity.
Qed.

Lemma version_lookup_failures_witness :
  version_lookup Scenario.catalog "9.9" 2 =
    (if bool_decide (2 = 1 ∨ 2 = 2)
     then Raise (SystemExit invalid_version_msg)
     else Raise (SystemError invalid_device_msg))
  ∧ Forall (λ example, Py.str_in example invalid_version_msg = true)
      ["latest"; "toltec"; "3.2.3.1595"; "2.15.0.1067"]
  ∧ Forall (λ example, Py.str_in example invalid_device_msg = false)
      ["latest"; "toltec"; "3.2.3.1595"; "2.15.0.1067"].
Proof.
  apply (version_lookup_failures Scenario.catalog "9.9" 2).
  - discriminate.
  - discriminate.
  - right. right. split; [reflexivity |]. vm_compute. discriminate.
Defined.

(** C4 as stated fails: an unknown device with a literal token raises
    [SystemError], another kind than the [SystemExit] of an unknown token,
    with a message that names no example token; and an unknown device with
    the token "latest" does not fail. *)
Lemma version_lookup_unknown_device :
  version_lookup Scenario.catalog "3.2.3.1595" 3 = Raise (SystemError invalid_device_msg)
  ∧ version_lookup Scenario.catalog "9.9" 2 = Raise (SystemExit invalid_version_msg)
  ∧ (∀ msg, SystemError invalid_device_msg ≠ SystemExit msg)
  ∧ Py.str_in "latest" invalid_device_msg = false
  ∧ Py.str_in "3.2.3.1595" invalid_device_msg = false
  ∧ version_lookup Scenario.catalog "latest" 3 = Return "3.9.9.9".
Proof. repeat split; try reflexivity. intros msg; discriminate. Qed.

(** ** The configuration patch *)

Section Strings.
Implicit Types s t l : string.

Lemma append_cons (a : ascii) (s t : string) : String a s +:+ t = String a (s +:+ t).
Proof. reflexivity. Qed.

Lemma append_empty_l (t : string) : "" +:+ t = t.
Proof. reflexivity. Qed.

Lemma contains_app (s t : string) (c : ascii) :
  Py.contains (s +:+ t) c = Py.contains s c || Py.contains t c.
Proof.
  induction s as [| a s IH]; [reflexivity |].
  rewrite append_cons. cbn [Py.contains]. rewrite IH. apply orb_assoc.
Qed.

Lemma split_not_nil (s : string) (sep : ascii) : Py.split s sep ≠ [].
Proof.
  destruct s as [| a s]; cbn; [discriminate |].
  destruct (Ascii.eqb a sep); [discriminate |].
  destruct (Py.split s sep); discriminate.
Qed.

Lemma split_fields (s : string) (sep : ascii) :
  Forall (λ l, Py.contains l sep = false) (Py.split s sep).
Proof.
  induction s as [| a s IH]; cbn [Py.split].
  - repeat constructor.
  - destruct (Ascii.eqb a sep) eqn:Ha.
    + constructor; [reflexivity | exact IH].
    + destruct (Py.split s sep) as [| field fields].
      * repeat constructor. cbn. rewrite Ha. reflexivity.
      * inversion IH as [| ? ? Hfield Hfields]; subst.
        constructor; [| exact Hfields]. cbn. rewrite Ha. exact Hfield.
Qed.

Lemma split_one_field (l : string) (sep : ascii) :
  Py.contains l sep = false → Py.split l sep = [l].
Proof.
  induction l as [| a l IH]; [reflexivity |].
  cbn [Py.contains Py.split]. intros [Ha Hl]%orb_false_iff.
  rewrite Ha, (IH Hl). reflexivity.
Qed.

Lemma split_app (l rest : string) (sep : ascii) :
  Py.contains l sep = false →
  Py.split (l +:+ String sep rest) sep = l :: Py.split rest sep.
Proof.
  induction l as [| a l IH].
  - intros _. rewrite append_empty_l. cbn [Py.split]. rewrite Ascii.eqb_refl. reflexivity.
  - cbn [Py.contains]. intros [Ha Hl]%orb_false_iff.
    rewrite append_cons. cbn [Py.split]. rewrite Ha, (IH Hl). reflexivity.
Qed.

Lemma join_cons (sep l : string) (ls : list string) :
  ls ≠ [] → Py.join sep (l :: ls) = l +:+ sep +:+ Py.join sep ls.
Proof. destruct ls; [contradiction | reflexivity]. Qed.

Lemma split_join (ls : list string) :
  ls ≠ [] → Forall single_line ls → Py.split (Py.join NL ls) LF = ls.
Proof.
  induction ls as [| l ls IH]; [contradiction |].
  intros _ Hall. inversion Hall as [| ? ? Hl Hls]; subst.
  destruct ls as [| l' ls].
  - cbn. apply split_one_field. exact Hl.
  - rewrite join_cons by discriminate. unfold NL at 1. rewrite append_cons, append_empty_l.
    rewrite split_app by exact Hl. f_equal. apply IH; [discriminate | exact Hls].
Qed.

Lemma join_split (s : string) : Py.join NL (Py.split s LF) = s.
Proof.
  induction s as [| a s IH]; [reflexivity |].
  cbn [Py.split]. destruct (Ascii.eqb_spec a LF) as [-> | Ha].
  - rewrite join_cons by apply split_not_nil. rewrite IH. reflexivity.
  - destruct (Py.split s LF) as [| field fields] eqn:Hs.
    + exfalso. exact (split_not_nil _ _ Hs).
    + destruct fields as [| f fields].
      * cbn in IH |- *. rewrite IH. reflexivity.
      * rewrite join_cons in IH |- * by discriminate. rewrite append_cons, IH. reflexivity.
Qed.

End Strings.

Lemma set_server_config_loop (todo done : list string) (line : nat) :
  foldl set_server_config_step (Return (done ++ todo, line))
        (seq (length done) (length todo))
  = Return (done ++ (deactivate <$> todo), insertion_point (length done) line todo).
Proof.
  revert done line. induction todo as [| cur todo IH]; intros done line.
  - reflexivity.
  - cbn [length seq foldl]. unfold set_server_config_step at 2.
    rewrite list_lookup_middle by reflexivity.
    replace (done ++ cur :: todo) with ((done ++ [cur]) ++ todo) at 1
      by (rewrite <- app_assoc; reflexivity).
    assert (Hins : <[length done := "#" +:+ cur]> (done ++ cur :: todo)
                   = (done ++ ["#" +:+ cur]) ++ todo).
    { rewrite insert_app_r_alt by lia. rewrite Nat.sub_diag. cbn.
      rewrite <- app_assoc. reflexivity. }
    rewrite Hins.
    cbn [insertion_point fmap list_fmap].
    assert (Hd : deactivate cur = if Py.startswith cur "SERVER=" then "#" +:+ cur else cur)
      by reflexivity.
    rewrite Hd. clear Hd.
    destruct (Py.startswith cur "SERVER="); cbn [negb].
    + specialize (IH (done ++ ["#" +:+ cur])). rewrite length_app in IH. cbn [length] in IH.
      rewrite Nat.add_1_r in IH. rewrite IH. rewrite <- app_assoc. reflexivity.
    + specialize (IH (done ++ [cur])). rewrite length_app in IH. cbn [length] in IH.
      rewrite Nat.add_1_r in IH. rewrite IH. rewrite <- app_assoc. reflexivity.
Qed.

Lemma set_server_config_eq (contents name : string) :
  set_server_config contents name =
    Return (Py.join NL (Py.list_insert (insertion_point 0 0 (lines contents))
                          ("SERVER=" +:+ name) (deactivate <$> lines contents))).
Proof.
  unfold set_server_config.
  pose proof (set_server_config_loop (Py.split contents LF) [] 0) as H.
  cbn [app length] in H. rewrite H. reflexivity.
Qed.

Lemma string_of_uint_single_line (d : Decimal.uint) :
  Py.contains (NilEmpty.string_of_uint d) LF = false.
Proof. induction d; cbn; assumption || reflexivity. Qed.

Lemma str_int_single_line (n : Z) : single_line (Py.str_int n).
Proof.
  unfold single_line, Py.str_int, NilZero.string_of_int, NilZero.string_of_uint.
  destruct (Z.to_int n) as [d | d]; destruct d; cbn; try reflexivity;
    apply string_of_uint_single_line.
Qed.

Lemma server_host_name_single_line (host : string) (port : Z) :
  single_line host → single_line (server_host_name host port).
Proof.
  unfold single_line, server_host_name. intros Hhost.
  rewrite !contains_app, Hhost, (str_int_single_line port). reflexivity.
Qed.

Lemma server_line_single_line (name : string) :
  single_line name → single_line ("SERVER=" +:+ name).
Proof. unfold single_line. intros H. rewrite contains_app, H. reflexivity. Qed.

Lemma deactivate_single_line (l : string) : single_line l → single_line (deactivate l).
Proof.
  unfold single_line, deactivate. intros H.
  destruct (Py.startswith l "SERVER="); [| exact H].
  rewrite contains_app, H. reflexivity.
Qed.

Lemma deactivate_inactive (l : string) : Py.startswith (deactivate l) "SERVER=" = false.
Proof.
  unfold deactivate. destruct (Py.startswith l "SERVER=") eqn:H; [reflexivity | exact H].
Qed.

Lemma server_line_active (name : string) : Py.startswith ("SERVER=" +:+ name) "SERVER=" = true.
Proof. unfold Py.startswith. cbn. destruct name; reflexivity. Qed.

Lemma insertion_point_le (todo : list string) (i line : nat) :
  (line ≤ i)%nat → (insertion_point i line todo ≤ i + length todo)%nat.
Proof.
  revert i line. induction todo as [| l todo IH]; intros i line Hle; cbn [insertion_point length].
  - lia.
  - etrans; [apply IH; destruct (Py.startswith l "[General]"); lia | lia].
Qed.

Lemma insertion_point_no_general (todo : list string) (i line : nat) :
  Forall (λ l, Py.startswith l "[General]" = false) todo →
  insertion_point i line todo = line.
Proof.
  revert i line. induction todo as [| l todo IH]; intros i line Hall; [reflexivity |].
  inversion Hall as [| ? ? Hl Htodo]; subst. cbn [insertion_point]. rewrite Hl.
  apply IH. exact Htodo.
Qed.

(** The active lines of a list of lines into which one active line is
    inserted, all others being inactive. *)
Lemma filter_active_insert (k : nat) (new : string) (ls : list string) :
  Py.startswith new "SERVER=" = true →
  Forall (λ l, Py.startswith l "SERVER=" = false) ls →
  filter (λ l, Py.startswith l "SERVER=" = true) (Py.list_insert k new ls) = [new].
Proof.
  intros Hnew Hall. unfold Py.list_insert.
  assert (Hnone : ∀ ls', Forall (λ l, Py.startswith l "SERVER=" = false) ls' →
                   filter (λ l, Py.startswith l "SERVER=" = true) ls' = []).
  { intros ls' H. induction H as [| l ls' Hl _ IH]; [reflexivity |].
    rewrite filter_cons_False; [exact IH | rewrite Hl; discriminate]. }
  rewrite filter_app, filter_cons_True by exact Hnew.
  rewrite (Hnone (take k ls)) by (apply Forall_take; exact Hall).
  rewrite (Hnone (drop k ls)) by (apply Forall_drop; exact Hall).
  reflexivity.
Qed.

Lemma lines_of_patch (contents name : string) :
  single_line name →
  ∃ k out,
    set_server_config contents name = Return out
    ∧ (k ≤ length (lines contents))%nat
    ∧ lines out = Py.list_insert k ("SERVER=" +:+ name) (deactivate <$> lines contents).
Proof.
  intros Hname. exists (insertion_point 0 0 (lines contents)). eexists.
  split; [apply set_server_config_eq |].
  split; [apply (insertion_point_le _ 0 0); lia |].
  unfold lines at 1. apply split_join.
  - unfold Py.list_insert. destruct (take _ _); discriminate.
  - unfold Py.list_insert. apply Forall_app. split; [apply Forall_take | constructor; [| apply Forall_drop]].
    + apply Forall_fmap. eapply Forall_impl; [apply split_fields |]. intros l. apply deactivate_single_line.
    + apply server_line_single_line, Hname.
    + apply Forall_fmap. eapply Forall_impl; [apply split_fields |]. intros l. apply deactivate_single_line.
Qed.

Lemma active_after_patch (contents name out : string) :
  single_line name →
  set_server_config contents name = Return out →
  active_server_lines out = ["SERVER=" +:+ name].
Proof.
  intros Hname Hout. destruct (lines_of_patch contents name Hname) as (k & out' & Hout' & _ & Hlines).
  rewrite Hout in Hout'. injection Hout' as <-.
  unfold active_server_lines. rewrite Hlines.
  apply filter_active_insert; [apply server_line_active |].
  apply Forall_fmap, Forall_true. intros l. apply deactivate_inactive.
Qed.

(** C2. The document [[General]], [SERVER=old] patched for the endpoint
    1.2.3.4:8080 is, as a string, [[General]], [SERVER=http://1.2.3.4:8080],
    [#SERVER=old]: the new line directly follows [[General]] and the
    deactivated line keeps its place. [edit_config] writes that document. *)
Theorem patch_general_server_old :
  set_server_config ("[General]" +:+ NL +:+ "SERVER=old" +:+ NL)
                    (server_host_name "1.2.3.4" 8080)
  = Return ("[General]" +:+ NL +:+ "SERVER=http://1.2.3.4:8080" +:+ NL
            +:+ "#SERVER=old" +:+ NL)
  ∧ lines ("[General]" +:+ NL +:+ "SERVER=http://1.2.3.4:8080" +:+ NL
           +:+ "#SERVER=old" +:+ NL)
    = ["[General]"; "SERVER=http://1.2.3.4:8080"; "#SERVER=old"; ""]
  ∧ update_conf (world_of (edit_config "1.2.3.4" 8080 None
                             (Scenario.fresh [] Scenario.conf)))
    = "[General]" +:+ NL +:+ "SERVER=http://1.2.3.4:8080" +:+ NL
      +:+ "#SERVER=old" +:+ NL.
Proof. split; [| split]; vm_compute; reflexivity. Qed.

(** C3. For every document and every endpoint whose host is one line of
    text, one patch leaves exactly one active [SERVER=] line, the new one;
    the lines of the result are those of the document, each [SERVER=] line
    rewritten to [#SERVER=] and none deleted, with the new line inserted;
    and a second patch of the result again leaves exactly one active
    [SERVER=] line. *)
Theorem patch_one_active_server_line
    (contents host host' : string) (port port' : Z) :
  single_line host → single_line host' →
  ∃ once twice,
    set_server_config contents (server_host_name host port) = Return once
    ∧ active_server_lines once = ["SERVER=" +:+ server_host_name host port]
    ∧ (∃ k, (k ≤ length (lines contents))%nat
          ∧ lines once = Py.list_insert k ("SERVER=" +:+ server_host_name host port)
                           (deactivate <$> lines contents))
    ∧ set_server_config once (server_host_name host' port') = Return twice
    ∧ active_server_lines twice = ["SERVER=" +:+ server_host_name host' port'].
Proof.
  intros Hhost Hhost'.
  pose proof (server_host_name_single_line host port Hhost) as Hname.
  pose proof (server_host_name_single_line host' port' Hhost') as Hname'.
  destruct (lines_of_patch contents _ Hname) as (k & once & Honce & Hk & Hlines).
  destruct (lines_of_patch once _ Hname') as (_ & twice & Htwice & _ & _).
  exists once, twice.
  split; [exact Honce |].
  split; [eapply active_after_patch; eassumption |].
  split; [exists k; split; assumption |].
  split; [exact Htwice |].
  eapply active_after_patch; eassumption.
Qed.

Lemma patch_one_active_server_line_witness :
  ∃ once twice,
    set_server_config Scenario.conf (server_host_name "10.11.99.2" 8080) = Return once
    ∧ active_server_lines once = ["SERVER=" +:+ server_host_name "10.11.99.2" 8080]
    ∧ (∃ k, (k ≤ length (lines Scenario.conf))%nat
          ∧ lines once = Py.list_insert k ("SERVER=" +:+ server_host_name "10.11.99.2" 8080)
                           (deactivate <$> lines Scenario.conf))
    ∧ set_server_config once (server_host_name "192.168.1.20" 8080) = Return twice
    ∧ active_server_lines twice = ["SERVER=" +:+ server_host_name "192.168.1.20" 8080].
Proof.
  apply (patch_one_active_server_line Scenario.conf "10.11.99.2" "192.168.1.20" 8080 8080);
    reflexivity.
Defined.

(** The host is one line of text in C3: a line feed inside it would end the
    new line early and start another one. *)
Remark patch_host_with_line_feed :
  set_server_config Scenario.conf (server_host_name ("a" +:+ NL +:+ "SERVER=b") 8080)
  = Return ("[General]" +:+ NL +:+ "SERVER=http://a" +:+ NL +:+ "SERVER=b:8080" +:+ NL
            +:+ "#SERVER=old" +:+ NL).
Proof. vm_compute. reflexivity. Qed.

(** C6, as the code has it. For every document without a line that begins
    with [[General]] the patch returns (it raises nothing), and the new
    [SERVER=] line is the first line of the result, followed by the lines of
    the document in their order, the [SERVER=] lines among them
    deactivated. *)
Theorem patch_without_general (contents name : string) :
  Forall (λ l, Py.startswith l "[General]" = false) (lines contents) →
  set_server_config contents name
  = Return (Py.join NL (("SERVER=" +:+ name) :: (deactivate <$> lines contents))).
Proof.
  intros Hall. rewrite set_server_config_eq.
  rewrite insertion_point_no_general by exact Hall. reflexivity.
Qed.

Lemma patch_without_general_witness :
  set_server_config ("A=1" +:+ NL +:+ "SERVER=old") "http://1.2.3.4:8080"
  = Return (Py.join NL (("SERVER=" +:+ "http://1.2.3.4:8080")
                          :: (deactivate <$> lines ("A=1" +:+ NL +:+ "SERVER=old")))).
Proof.
  apply (patch_without_general ("A=1" +:+ NL +:+ "SERVER=old") "http://1.2.3.4:8080").
  vm_compute. repeat constructor.
Defined.

(** C6 as stated fails: the document [A=1], [B=2] has no [[General]] line,
    and the new line becomes its first line, not its last. *)
Lemma patch_without_general_prepends :
  Forall (λ l, l ≠ "[General]") (lines ("A=1" +:+ NL +:+ "B=2"))
  ∧ ∃ out,
      set_server_config ("A=1" +:+ NL +:+ "B=2") (server_host_name "1.2.3.4" 8080)
      = Return out
      ∧ lines out = ["SERVER=http://1.2.3.4:8080"; "A=1"; "B=2"]
      ∧ lines out ≠ lines ("A=1" +:+ NL +:+ "B=2") ++ ["SERVER=http://1.2.3.4:8080"]
      ∧ last (lines out) = Some "B=2".
Proof.
  split; [vm_compute; repeat constructor; discriminate |].
  eexists. split; [vm_compute; reflexivity |].
  split; [vm_compute; reflexivity |].
  split; [vm_compute; discriminate | vm_compute; reflexivity].
Qed.

(** ** Traces of the workflows *)

Section Emits.
Context {A B : Type}.
Implicit Types P : event → Prop.

Lemma emits_only_ret P (a : A) : emits_only P (ret a).
Proof. intros w. constructor. Qed.

Lemma emits_only_raise P e : emits_only P (raise (A := A) e).
Proof. intros w. constructor. Qed.

Lemma emits_only_of_result P (r : result A) : emits_only P (of_result r).
Proof. intros w. constructor. Qed.

Lemma emits_only_bind P (m : M A) (k : A → M B) :
  emits_only P m → (∀ a, emits_only P (k a)) → emits_only P (bind m k).
Proof.
  intros Hm Hk w. unfold bind. specialize (Hm w).
  destruct (m w) as [[[a | e] w1] evs1]; [| exact Hm].
  specialize (Hk a w1). destruct (k a w1) as [[r w2] evs2].
  apply Forall_app. split; assumption.
Qed.

Lemma emits_only_interact P (loop : list string → result A * list string * list event) :
  (∀ answers, Forall P (loop answers).2) → emits_only P (interact loop).
Proof.
  intros Hloop w. unfold interact. specialize (Hloop (stdin w)).
  destruct (loop (stdin w)) as [[r rest] evs]. exact Hloop.
Qed.

Lemma emits_only_impl P Q (m : M A) :
  (∀ e, P e → Q e) → emits_only P m → emits_only Q m.
Proof. intros HPQ Hm w. eapply Forall_impl; [apply Hm | exact HPQ]. Qed.
End Emits.

Lemma emits_only_emit (P : event → Prop) e : P e → emits_only P (emit e).
Proof. intros He w. repeat constructor. exact He. Qed.

Lemma emits_only_input (P : event → Prop) prompt :
  (∀ answer, P (Input prompt answer)) → emits_only P (input prompt).
Proof. intros H w. unfold input. destruct (stdin w); repeat constructor; apply H. Qed.

Lemma emits_only_silent {A} (P : event → Prop) (m : M A) :
  (∀ w, events_of (m w) = []) → emits_only P m.
Proof. intros H w. rewrite H. constructor. Qed.

Lemma updateman_get_version_silent env v d f w :
  events_of (updateman_get_version env v d f w) = [].
Proof. unfold updateman_get_version. destruct (get_version _ _ _ _ _). reflexivity. Qed.

Lemma emits_only_chdir (P : event → Prop) path : P (Chdir path) → emits_only P (chdir path).
Proof. intros H w. repeat constructor. exact H. Qed.

Lemma emits_only_write_update_conf (P : event → Prop) text :
  P (WriteConf text) → emits_only P (write_update_conf text).
Proof. intros H w. repeat constructor. exact H. Qed.

Lemma emits_only_thread_start (P : event → Prop) av host :
  P (ThreadStart av host) → emits_only P (thread_start av host).
Proof. intros H w. repeat constructor. exact H. Qed.

Create HintDb emits discriminated.
#[local] Hint Resolve emits_only_ret emits_only_raise emits_only_of_result : emits.

(** One step through the structure of a workflow; what is left are the
    conditions on the single events. *)
Ltac emits_step :=
  lazymatch goal with
  | |- emits_only _ (bind _ _) => apply emits_only_bind; [| intros ?]
  | |- emits_only _ (emit _) => apply emits_only_emit
  | |- emits_only _ (print _) => apply emits_only_emit
  | |- emits_only _ (input _) => apply emits_only_input; intros ?
  | |- emits_only _ (chdir _) => apply emits_only_chdir
  | |- emits_only _ (write_update_conf _) => apply emits_only_write_update_conf
  | |- emits_only _ (thread_start _ _) => apply emits_only_thread_start
  | |- emits_only _ getcwd => apply emits_only_silent; reflexivity
  | |- emits_only _ scanUpdates => apply emits_only_silent; reflexivity
  | |- emits_only _ read_update_conf => apply emits_only_silent; reflexivity
  | |- emits_only _ (get_available_version _) => apply emits_only_silent; reflexivity
  | |- emits_only _ (updateman_get_version _ _ _ _) =>
      apply emits_only_silent; intros ?; apply updateman_get_version_silent
  | |- emits_only _ (subprocess_run_check _ _ _) => unfold subprocess_run_check
  | |- emits_only _ (subprocess_popen _ _) => unfold subprocess_popen
  | |- emits_only _ (exec_command _ _ _) => unfold exec_command
  | |- emits_only _ (match ?x with _ => _ end) => destruct x
  | |- emits_only _ _ => solve [auto with emits]
  end.
Ltac emits := repeat emits_step.

Lemma install_ensure_staged_events env args device :
  emits_only is_staging (install_ensure_staged env args device).
Proof. unfold install_ensure_staged. emits; exact I. Qed.

Lemma edit_config_events server_ip port remote :
  emits_only (λ e, ∃ text, e = WriteConf text) (edit_config server_ip port remote).
Proof. unfold edit_config. emits; eexists; reflexivity. Qed.

Lemma connect_key_loop_events env ip answers :
  Forall (is_connecting ip) (connect_key_loop env ip answers).2.
Proof.
  induction answers as [| key_path answers IH]; cbn [connect_key_loop].
  - repeat constructor.
  - destruct (connect_key_loop env ip answers) as [[r rest] evs].
    destruct (path_isfile env key_path); cbn [negb].
    + destruct (ssh_connect env ip (KeyFilename key_path)); repeat constructor; exact IH.
    + repeat constructor; exact IH.
Qed.

Lemma connect_password_loop_events env ip answers :
  Forall (is_connecting ip) (connect_password_loop env ip answers).2.
Proof.
  induction answers as [| password answers IH]; cbn [connect_password_loop].
  - repeat constructor.
  - destruct (connect_password_loop env ip answers) as [[r rest] evs].
    destruct (ssh_connect env ip (Password password)); repeat constructor; exact IH.
Qed.

Lemma get_remarkable_ip_loop_events answers :
  Forall is_dialogue (get_remarkable_ip_loop answers).2.
Proof.
  induction answers as [answers IH] using (induction_ltof1 _ (@length string)).
  unfold ltof in IH.
  destruct answers as [| remote_ip [| sure answers]]; cbn [get_remarkable_ip_loop].
  - repeat constructor.
  - repeat constructor.
  - specialize (IH answers ltac:(cbn; lia)).
    destruct (get_remarkable_ip_loop answers) as [[r rest] evs].
    destruct (negb _); repeat constructor; exact IH.
Qed.

Lemma ask_server_host_events host_interfaces answers :
  Forall is_dialogue (ask_server_host host_interfaces answers).2.
Proof.
  induction answers as [answers IH] using (induction_ltof1 _ (@length string)).
  unfold ltof in IH.
  destruct answers as [| server_host answers]; cbn [ask_server_host].
  - repeat constructor.
  - pose proof (IH answers ltac:(cbn; lia)) as IH1.
    destruct (ask_server_host host_interfaces answers) as [[r rest] evs] eqn:Hrec.
    destruct (negb _); [repeat constructor; exact IH1 |].
    destruct answers as [| sure answers]; [repeat constructor |].
    pose proof (IH answers ltac:(cbn; lia)) as IH2.
    destruct (ask_server_host host_interfaces answers) as [[r2 rest2] evs2].
    destruct (Py.contains _ _); repeat constructor; exact IH2.
Qed.

#[local] Hint Resolve connect_key_loop_events connect_password_loop_events
  get_remarkable_ip_loop_events ask_server_host_events : emits.

Lemma connect_to_rm_events env args ip :
  emits_only (is_connecting ip) (connect_to_rm env args ip).
Proof.
  unfold connect_to_rm.
  emits; try exact I; try reflexivity; try (cbn; set_solver);
    apply emits_only_interact; auto with emits.
Qed.

Lemma connecting_dialogue ip e : is_connecting ip e → is_dialogue e.
Proof. destruct e; cbn; tauto. Qed.

Lemma install_topology_events env args :
  emits_only is_dialogue (install_topology env args).
Proof.
  unfold install_topology, topology_usb, topology_wifi, get_remarkable_ip.
  emits; try exact I;
    try (eapply emits_only_impl; [apply connecting_dialogue | apply connect_to_rm_events]);
    apply emits_only_interact; auto with emits.
Qed.

Lemma install_update_remote env server_host remarkable_remote w :
  let ip := remote_ip remarkable_remote in
  let probe := exec_remote env ip (NcProbe server_host) in
  let client := exec_remote env ip UpdateEngineClientUpdate in
  install_update env server_host (Some remarkable_remote) w =
    if negb (exit_status probe =? 0) then
      (Raise (SystemExit unreachable_msg), w,
       [Print "Checking if device can reach server"; ExecRemote ip (NcProbe server_host)])
    else if negb (exit_status client =? 0) then
      (Raise (SystemExit update_error_msg), w,
       [Print "Checking if device can reach server"; ExecRemote ip (NcProbe server_host);
        Print "Starting update service on device";
        ExecRemote ip SystemctlStartUpdateEngine;
        ExecRemote ip UpdateEngineClientUpdate;
        Print (err_text client)])
    else
      (Return tt, w,
       [Print "Checking if device can reach server"; ExecRemote ip (NcProbe server_host);
        Print "Starting update service on device";
        ExecRemote ip SystemctlStartUpdateEngine;
        ExecRemote ip UpdateEngineClientUpdate;
        Print "Success! Please restart the reMarkable device!"]).
Proof.
  cbn zeta. unfold install_update, bind, exec_command, print, emit, ret, raise, bind.
  destruct (exit_status (exec_remote env _ (NcProbe server_host)) =? 0); cbn [negb]; [| reflexivity].
  destruct (exit_status (exec_remote env _ UpdateEngineClientUpdate) =? 0); reflexivity.
Qed.

Lemma install_update_local_failure env server_host w :
  let client := run_local env UpdateEngineClientUpdate in
  exit_status client ≠ 0 →
  install_update env server_host None w =
    if negb (exit_status (run_local env SystemctlStartUpdateEngine) =? 0) then
      (Raise (CalledProcessError ["/bin/systemctl"; "start"; "update-engine"]
                (exit_status (run_local env SystemctlStartUpdateEngine))), w,
       [Print "Enabling update service"; RunLocal SystemctlStartUpdateEngine])
    else
      (Raise (SystemExit update_error_msg), w,
       [Print "Enabling update service"; RunLocal SystemctlStartUpdateEngine;
        RunLocal UpdateEngineClientUpdate; Print (err_text client)]).
Proof.
  cbn zeta. intros Hne%Z.eqb_neq.
  unfold install_update, bind, subprocess_run_check, subprocess_popen, print, emit, ret, raise, bind.
  destruct (exit_status (run_local env SystemctlStartUpdateEngine) =? 0); cbn [negb]; [| reflexivity].
  rewrite Hne. reflexivity.
Qed.

Lemma do_install_run env args device w :
  do_install env args device w =
  match install_ensure_staged env args device w with
  | (Raise e, w1, evs1) => (Raise e, w1, evs1)
  | (Return (available_versions, temp_path), w1, evs1) =>
    match install_topology env args w1 with
    | (Raise e, w2, evs2) => (Raise e, w2, evs1 ++ evs2)
    | (Return (server_host, remarkable_remote), w2, evs2) =>
      match edit_config server_host 8080 remarkable_remote w2 with
      | (Raise e, w3, evs3) => (Raise e, w3, evs1 ++ evs2 ++ evs3)
      | (Return _, w3, evs3) =>
        let started := [Print (available_versions_msg available_versions);
                        ThreadStart available_versions server_host] in
        match install_update env server_host remarkable_remote
                (world_of (thread_start available_versions server_host w3)) with
        | (Raise e, w4, evs4) => (Raise e, w4, evs1 ++ evs2 ++ evs3 ++ started ++ evs4)
        | (Return _, w4, evs4) =>
            (Return tt, world_of (chdir (cwd w) w4),
             evs1 ++ evs2 ++ evs3 ++ started ++ evs4 ++ Chdir (cwd w)
               :: match temp_path with Some temp_path => [Rmtree temp_path] | None => [] end)
        end
      end
    end
  end.
Proof.
  unfold do_install, bind at 1, getcwd at 1. cbn [app].
  unfold bind at 1.
  destruct (install_ensure_staged env args device w) as [[[[av temp_path] | e] w1] evs1];
    [| reflexivity].
  unfold bind at 1.
  destruct (install_topology env args w1) as [[[[server_host remote] | e] w2] evs2];
    [| reflexivity].
  unfold bind at 1.
  destruct (edit_config server_host 8080 remote w2) as [[[[] | e] w3] evs3];
    [| reflexivity].
  unfold bind at 1, print at 1, emit at 1. unfold bind at 1, thread_start at 1.
  unfold world_of, thread_start. cbn [fst snd].
  unfold bind at 1.
  destruct (install_update env server_host remote _) as [[[[] | e] w4] evs4];
    [| cbn [app]; reflexivity].
  unfold bind, chdir, emit, ret. cbn [fst snd app].
  destruct temp_path; cbn [app]; rewrite ?app_nil_r; reflexivity.
Qed.



Lemma install_update_events env server_host remote :
  emits_only (runs_where remote) (install_update env server_host remote).
Proof. unfold install_update. destruct remote; emits; cbn; auto. Qed.

Lemma client_ran_app env evs evs' client :
  client_ran env (evs ++ evs') client →
  client_ran env evs client ∨ client_ran env evs' client.
Proof.
  intros [[Hin ->] | (ip & Hin & ->)]; apply elem_of_app in Hin as [Hin | Hin].
  - left. left. split; [exact Hin | reflexivity].
  - right. left. split; [exact Hin | reflexivity].
  - left. right. exists ip. split; [exact Hin | reflexivity].
  - right. right. exists ip. split; [exact Hin | reflexivity].
Qed.

Lemma client_ran_none (P : event → Prop) env evs client :
  (∀ e, P e → ¬ is_update_client e) → Forall P evs → ¬ client_ran env evs client.
Proof.
  intros HP Hall. rewrite Forall_forall in Hall.
  intros [[Hin _] | (ip & Hin & _)]; exact (HP _ (Hall _ Hin) I).
Qed.

Lemma client_ran_skip (P : event → Prop) env evs evs' client :
  (∀ e, P e → ¬ is_update_client e) → Forall P evs →
  client_ran env (evs ++ evs') client → client_ran env evs' client.
Proof.
  intros HP Hall [Hran | Hran]%client_ran_app; [| exact Hran].
  exfalso. exact (client_ran_none P _ _ _ HP Hall Hran).
Qed.

Lemma staging_not_update_client e : is_staging e → ¬ is_update_client e.
Proof. destruct e; cbn; tauto. Qed.

Lemma dialogue_not_update_client e : is_dialogue e → ¬ is_update_client e.
Proof. destruct e; cbn; tauto. Qed.

Lemma write_conf_not_update_client e : (∃ text, e = WriteConf text) → ¬ is_update_client e.
Proof. intros [text ->]. cbn. tauto. Qed.

(** The update client that ran is the one of the session, or the local
    one when there is no session. *)
Lemma client_ran_update env server_host remote w client :
  client_ran env (events_of (install_update env server_host remote w)) client →
  client = match remote with
           | Some remarkable_remote =>
               exec_remote env (remote_ip remarkable_remote) UpdateEngineClientUpdate
           | None => run_local env UpdateEngineClientUpdate
           end.
Proof.
  pose proof (install_update_events env server_host remote w) as Hall.
  rewrite Forall_forall in Hall.
  intros [[Hin ->] | (ip & Hin & ->)]; specialize (Hall _ Hin); cbn in Hall;
    destruct remote; try contradiction; [reflexivity | subst ip; reflexivity].
Qed.

(** The last state of the install workflow: a failing update client. *)
Lemma install_update_failure env server_host remote w client :
  client_ran env (events_of (install_update env server_host remote w)) client →
  exit_status client ≠ 0 →
  result_of (install_update env server_host remote w) = Raise (SystemExit update_error_msg)
  ∧ world_of (install_update env server_host remote w) = w
  ∧ last (events_of (install_update env server_host remote w))
    = Some (Print (err_text client)).
Proof.
  intros Hran Hne. pose proof (client_ran_update _ _ _ _ _ Hran) as Hclient.
  destruct remote as [remarkable_remote |]; subst client.
  - revert Hran. rewrite install_update_remote.
    destruct (negb (exit_status (exec_remote env _ (NcProbe server_host)) =? 0)).
    { intros Hran. exfalso. revert Hran.
      apply (client_ran_none (λ e, ¬ is_update_client e)); [auto |].
      repeat constructor; cbn; tauto. }
    apply Z.eqb_neq in Hne. rewrite Hne. cbn [negb]. intros _. repeat split.
  - revert Hran. rewrite install_update_local_failure by exact Hne.
    destruct (negb (exit_status (run_local env SystemctlStartUpdateEngine) =? 0)).
    { intros Hran. exfalso. revert Hran.
      apply (client_ran_none (λ e, ¬ is_update_client e)); [auto |].
      repeat constructor; cbn; tauto. }
    intros _. repeat split.
Qed.

(** C9, as the code has it. Whenever the install workflow has run the
    update client of the device, on the device or through the session, and
    the client exits with a non-zero status, the workflow raises
    [SystemExit] with "There was an error updating :(", the last thing it
    does is to print the standard error of the client as it is, and the
    thread that serves the update, started earlier in the run, is still
    there at the end: the workflow does not stop it. *)
Theorem do_install_update_failure env args device w client :
  client_ran env (events_of (do_install env args device w)) client →
  exit_status client ≠ 0 →
  result_of (do_install env args device w) = Raise (SystemExit update_error_msg)
  ∧ last (events_of (do_install env args device w)) = Some (Print (err_text client))
  ∧ ∃ available_versions server_host,
      ThreadStart available_versions server_host ∈ events_of (do_install env args device w)
      ∧ server_thread (world_of (do_install env args device w))
        = Some (available_versions.1, available_versions.2, server_host).
Proof.
  rewrite do_install_run. intros Hran Hne.
  pose proof (install_ensure_staged_events env args device w) as H1.
  destruct (install_ensure_staged env args device w) as [[[[av temp_path] | e] w1] evs1];
    [| exfalso; exact (client_ran_none _ _ _ _ staging_not_update_client H1 Hran)].
  pose proof (install_topology_events env args w1) as H2.
  destruct (install_topology env args w1) as [[[[server_host remote] | e] w2] evs2].
  2: { exfalso. apply (client_ran_skip _ _ _ _ _ staging_not_update_client H1) in Hran.
       exact (client_ran_none _ _ _ _ dialogue_not_update_client H2 Hran). }
  pose proof (edit_config_events server_host 8080 remote w2) as H3.
  destruct (edit_config server_host 8080 remote w2) as [[[[] | e] w3] evs3].
  2: { exfalso. apply (client_ran_skip _ _ _ _ _ staging_not_update_client H1) in Hran.
       apply (client_ran_skip _ _ _ _ _ dialogue_not_update_client H2) in Hran.
       exact (client_ran_none _ _ _ _ write_conf_not_update_client H3 Hran). }
  cbn zeta in *.
  pose proof (install_update_failure env server_host remote
                (world_of (thread_start av server_host w3)) client) as Hupd.
  assert (Hstarted : Forall (λ e, ¬ is_update_client e)
            [Print (available_versions_msg av); ThreadStart av server_host])
    by (repeat constructor; cbn; tauto).
  destruct (install_update env server_host remote _) as [[[[] | e] w4] evs4];
    unfold result_of, events_of, world_of in *; cbn [fst snd] in *;
    apply (client_ran_skip _ _ _ _ _ staging_not_update_client H1) in Hran;
    apply (client_ran_skip _ _ _ _ _ dialogue_not_update_client H2) in Hran;
    apply (client_ran_skip _ _ _ _ _ write_conf_not_update_client H3) in Hran;
    apply (client_ran_skip (λ e, ¬ is_update_client e)) in Hran; auto.
  - exfalso. apply client_ran_app in Hran as [Hran | Hran].
    + destruct (Hupd Hran Hne) as [? _]. discriminate.
    + revert Hran. apply (client_ran_none (λ e, ¬ is_update_client e)); [auto |].
      destruct temp_path; repeat constructor; cbn; tauto.
  - destruct (Hupd Hran Hne) as (Hres & Hworld & Hlast).
    split; [exact Hres |]. split.
    + destruct evs4 as [| e4 evs4]; [discriminate |].
      rewrite !app_assoc. rewrite last_app, Hlast. reflexivity.
    + exists av, server_host. split; [| rewrite Hworld; reflexivity].
      do 3 (apply elem_of_app; right).
      apply elem_of_cons; right. apply elem_of_cons; left. reflexivity.
Qed.

(** ** The topology of the install workflow *)



(** The two loops of [get_host_ip] return the first USB address alone, if
    there is one among the IPv4 addresses, and all IPv4 addresses
    otherwise. *)
Lemma get_host_ip_snics_spec (snics : list snic) (possible_ips : list string) :
  get_host_ip_snics snics possible_ips =
    match filter is_usb (address <$> filter is_inet snics) with
    | usb :: _ => inl [usb]
    | [] => inr (possible_ips ++ (address <$> filter is_inet snics))
    end.
Proof.
  revert possible_ips. induction snics as [| n snics IH]; intros possible_ips.
  - cbn. rewrite app_nil_r. reflexivity.
  - cbn [get_host_ip_snics]. destruct (is_AF_INET (family n)) eqn:Hinet.
    + rewrite (filter_cons_True is_inet) by exact Hinet. cbn [fmap list_fmap].
      destruct (Py.startswith (address n) "10.11.99") eqn:Husb.
      * rewrite (filter_cons_True is_usb) by exact Husb. reflexivity.
      * rewrite (filter_cons_False is_usb) by (rewrite Husb; discriminate).
        rewrite IH. destruct (filter is_usb _); [| reflexivity].
        rewrite <- app_assoc. reflexivity.
    + rewrite (filter_cons_False is_inet) by (rewrite Hinet; discriminate). apply IH.
Qed.

Lemma get_host_ip_interfaces_spec (interfaces : list (string * list snic))
    (possible_ips : list string) :
  get_host_ip_interfaces interfaces possible_ips =
    match usb_candidates (Some interfaces) with
    | usb :: _ => inl [usb]
    | [] => inr (possible_ips ++ ipv4_addresses (Some interfaces))
    end.
Proof.
  unfold usb_candidates, ipv4_addresses. revert possible_ips.
  induction interfaces as [| [name snics] interfaces IH]; intros possible_ips.
  - cbn. rewrite app_nil_r. reflexivity.
  - cbn [get_host_ip_interfaces fmap list_fmap snd mjoin list_join].
    rewrite get_host_ip_snics_spec, filter_app, fmap_app, filter_app.
    destruct (filter is_usb (address <$> filter is_inet snics)) as [| usb usbs];
      [| reflexivity].
    cbn [app]. rewrite IH. destruct (filter is_usb _); [| reflexivity].
    rewrite <- app_assoc. reflexivity.
Qed.

Lemma get_host_ip_spec (net : option (list (string * list snic))) :
  get_host_ip net =
    match usb_candidates net with
    | usb :: _ => [usb]
    | [] => ipv4_addresses net
    end.
Proof.
  destruct net as [interfaces |]; [| reflexivity].
  unfold get_host_ip. rewrite get_host_ip_interfaces_spec.
  destruct (usb_candidates (Some interfaces)); reflexivity.
Qed.

(** What the loops that ask for the two addresses return has been given
    as an answer to their prompt. *)
Lemma ask_server_host_answer host_interfaces answers server_host :
  (ask_server_host host_interfaces answers).1.1 = Return server_host →
  Input server_host_prompt (Some server_host) ∈ (ask_server_host host_interfaces answers).2
  ∧ server_host ∈ Py.split host_interfaces LF.
Proof.
  induction answers as [answers IH] using (induction_ltof1 _ (@length string)).
  unfold ltof in IH.
  destruct answers as [| answer answers]; cbn [ask_server_host]; [discriminate |].
  pose proof (IH answers ltac:(cbn; lia)) as IH1.
  destruct (ask_server_host host_interfaces answers) as [[r rest] evs].
  unfold Py.list_contains. case_bool_decide as Hin; cbn [negb].
  2: { cbn [fst snd] in *. intros Hr. destruct (IH1 Hr) as [? ?].
       split; [do 2 apply list_elem_of_further |]; assumption. }
  destruct answers as [| sure answers]; [discriminate |].
  pose proof (IH answers ltac:(cbn; lia)) as IH2.
  destruct (ask_server_host host_interfaces answers) as [[r2 rest2] evs2].
  destruct (Py.contains _ _); cbn [fst snd] in *.
  - intros Hr. destruct (IH2 Hr) as [? ?].
    split; [do 2 apply list_elem_of_further |]; assumption.
  - intros [= ->]. split; [apply list_elem_of_here | exact Hin].
Qed.

Lemma ask_server_host_first host_interfaces answers :
  ∃ evs, (ask_server_host host_interfaces answers).2
         = Input server_host_prompt (head answers) :: evs.
Proof.
  destruct answers as [| answer answers]; cbn [ask_server_host head]; [eexists; reflexivity |].
  destruct (ask_server_host host_interfaces answers) as [[r rest] evs].
  destruct (negb _); [eexists; reflexivity |].
  destruct answers as [| sure answers]; [eexists; reflexivity |].
  destruct (ask_server_host host_interfaces answers) as [[r2 rest2] evs2].
  destruct (Py.contains _ _); eexists; reflexivity.
Qed.

Lemma get_remarkable_ip_answer answers remote_ip :
  (get_remarkable_ip_loop answers).1.1 = Return remote_ip →
  Input remarkable_ip_prompt (Some remote_ip) ∈ (get_remarkable_ip_loop answers).2.
Proof.
  induction answers as [answers IH] using (induction_ltof1 _ (@length string)).
  unfold ltof in IH.
  destruct answers as [| answer [| sure answers]]; cbn [get_remarkable_ip_loop];
    [discriminate | discriminate |].
  specialize (IH answers ltac:(cbn; lia)).
  destruct (get_remarkable_ip_loop answers) as [[r rest] evs].
  destruct (negb _); cbn [fst snd] in *.
  - intros [= ->]. apply list_elem_of_here.
  - intros Hr. do 2 apply list_elem_of_further. exact (IH Hr).
Qed.


Lemma returns_only_ret {A} (Q : A → Prop) (a : A) : Q a → returns_only Q (ret a).
Proof. intros H w a' [= <-]. exact H. Qed.

Lemma returns_only_bind {A B} (Q : B → Prop) (m : M A) (k : A → M B) :
  (∀ a, returns_only Q (k a)) → returns_only Q (bind m k).
Proof.
  intros Hk w b. unfold bind, result_of.
  destruct (m w) as [[[a | e] w1] evs1]; [| discriminate].
  specialize (Hk a w1 b). unfold result_of in Hk.
  destruct (k a w1) as [[r w2] evs2]. exact Hk.
Qed.

Lemma connect_to_rm_session env args ip :
  returns_only (λ remarkable_remote, remarkable_remote = {| remote_ip := ip |})
    (connect_to_rm env args ip).
Proof.
  unfold connect_to_rm. apply returns_only_bind. intros [|].
  - apply returns_only_ret. reflexivity.
  - do 3 (apply returns_only_bind; intros ?). apply returns_only_ret. reflexivity.
Qed.

Lemma connecting_no_topology_prompt ip e :
  is_connecting ip e →
  is_topology_prompt e = false ∧ ∀ ip' cred, e = SshConnect ip' cred → ip' = ip.
Proof.
  destruct e; cbn; try tauto; try (split; [reflexivity | intros; discriminate]).
  - intros Hin. split; [| intros; discriminate].
    rewrite !elem_of_cons, elem_of_nil in Hin.
    destruct Hin as [-> | [-> | [-> | []]]]; reflexivity.
  - intros ->. split; [reflexivity |]. intros ip' cred' [= <- _]. reflexivity.
Qed.

Lemma topology_wifi_run env args addresses w :
  topology_wifi env args addresses w =
    let host_interfaces := Py.join NL addresses in
    let banner := Print (could_not_find_usb_msg host_interfaces) in
    match ask_server_host host_interfaces (stdin w) with
    | (Raise e, rest, evs) => (Raise e, set_stdin rest w, banner :: evs)
    | (Return server_host, rest, evs) =>
        match get_remarkable_ip_loop rest with
        | (Raise e, rest', evs') =>
            (Raise e, set_stdin rest' (set_stdin rest w), banner :: evs ++ evs')
        | (Return remote_ip, rest', evs') =>
            match connect_to_rm env args remote_ip
                    (set_stdin rest' (set_stdin rest w)) with
            | (Raise e, w1, evs1) => (Raise e, w1, banner :: evs ++ evs' ++ evs1)
            | (Return remarkable_remote, w1, evs1) =>
                (Return (server_host, Some remarkable_remote), w1,
                 banner :: evs ++ evs' ++ evs1)
            end
        end
    end.
Proof.
  unfold topology_wifi, bind, print, emit, get_remarkable_ip, interact. cbn zeta.
  destruct (ask_server_host _ (stdin w)) as [[[server_host | e] rest] evs];
    [| reflexivity].
  cbn [stdin set_stdin].
  destruct (get_remarkable_ip_loop rest) as [[[remote_ip | e] rest'] evs'];
    [| reflexivity].
  destruct (connect_to_rm env args remote_ip _) as [[[remote | e] w1] evs1];
    cbn [ret app]; rewrite ?app_nil_r; reflexivity.
Qed.

(** C8, as the code has it. When the tool runs off the device: if at least
    one IPv4 address of the machine begins with 10.11.99, the USB path is
    taken with the first such address as the address of the server; the
    operator is asked for no address and every connection goes to
    10.11.99.1. If no address begins with 10.11.99 and the number of IPv4
    addresses is not one, the addresses are listed and the operator is asked
    first for the own address; a run that returns has been given the address
    of the server and that of the device as answers, and the session is with
    the device at the address entered. *)
Theorem install_topology_decision (env : Env) (args : Args) (w : World) :
  is_rm env = false → REMOTE_DEPS_MET env = true →
  (∀ usb others,
     usb_candidates (net_if_addrs env) = usb :: others →
     install_topology env args w = topology_usb env args usb w
     ∧ Forall (λ e, is_topology_prompt e = false
                    ∧ ∀ ip cred, e = SshConnect ip cred → ip = default_ip)
         (events_of (install_topology env args w))
     ∧ ∀ server_host remote,
         result_of (install_topology env args w) = Return (server_host, remote) →
         server_host = usb ∧ remote = Some {| remote_ip := default_ip |})
  ∧ (usb_candidates (net_if_addrs env) = [] →
     length (ipv4_addresses (net_if_addrs env)) ≠ 1%nat →
     install_topology env args w
     = topology_wifi env args (ipv4_addresses (net_if_addrs env)) w
     ∧ (∃ evs, events_of (install_topology env args w)
               = Print (could_not_find_usb_msg
                          (Py.join NL (ipv4_addresses (net_if_addrs env))))
                 :: Input server_host_prompt (head (stdin w)) :: evs)
     ∧ ∀ server_host remote,
         result_of (install_topology env args w) = Return (server_host, remote) →
         Input server_host_prompt (Some server_host) ∈ events_of (install_topology env args w)
         ∧ ∃ remote_ip,
             Input remarkable_ip_prompt (Some remote_ip)
               ∈ events_of (install_topology env args w)
             ∧ remote = Some {| remote_ip := remote_ip |}).
Proof.
  intros Hrm Hdeps.
  assert (Hrun : install_topology env args w =
            match get_host_ip (net_if_addrs env) with
            | [server_host] => topology_usb env args server_host w
            | server_host => topology_wifi env args server_host w
            end).
  { unfold install_topology. rewrite Hrm, Hdeps. cbn [negb].
    destruct (get_host_ip (net_if_addrs env)) as [| ? [| ? ?]]; reflexivity. }
  rewrite get_host_ip_spec in Hrun. split.
  - intros usb others Husb. rewrite Husb in Hrun. rewrite Hrun. clear Hrun.
    split; [reflexivity |]. unfold topology_usb. split.
    + pose proof (connect_to_rm_events env args default_ip w) as Hall.
      unfold bind, events_of in *.
      destruct (connect_to_rm env args default_ip w) as [[[r | e] w1] evs1];
        cbn [fst snd ret] in *; rewrite ?app_nil_r;
        (eapply Forall_impl; [exact Hall | apply connecting_no_topology_prompt]).
    + intros server_host remote.
      pose proof (connect_to_rm_session env args default_ip w) as Hsession.
      unfold bind, result_of in *.
      destruct (connect_to_rm env args default_ip w) as [[[r | e] w1] evs1];
        cbn [fst snd ret] in *; [| discriminate].
      intros [= <- <-]. rewrite (Hsession r eq_refl). split; reflexivity.
  - intros Husb Hlen. rewrite Husb in Hrun.
    assert (Hwifi : install_topology env args w
                    = topology_wifi env args (ipv4_addresses (net_if_addrs env)) w).
    { rewrite Hrun. destruct (ipv4_addresses (net_if_addrs env)) as [| ? [| ? ?]];
        [reflexivity | contradiction Hlen; reflexivity | reflexivity]. }
    rewrite Hwifi. clear Hrun Hwifi. split; [reflexivity |].
    rewrite topology_wifi_run. cbn zeta.
    set (host_interfaces := Py.join NL (ipv4_addresses (net_if_addrs env))).
    destruct (ask_server_host_first host_interfaces (stdin w)) as [evs_host Hfirst].
    pose proof (ask_server_host_answer host_interfaces (stdin w)) as Hhost.
    destruct (ask_server_host host_interfaces (stdin w)) as [[r rest] evs].
    cbn [fst snd] in Hfirst, Hhost. subst evs.
    destruct r as [server_host | e]; unfold events_of, result_of.
    2: { cbn [fst snd app]. split; [eexists; reflexivity | intros ? ?; discriminate]. }
    pose proof (get_remarkable_ip_answer rest) as Hip.
    destruct (get_remarkable_ip_loop rest) as [[r rest'] evs_ip].
    cbn [fst snd] in Hip.
    destruct r as [remote_ip | e].
    2: { cbn [fst snd app]. split; [eexists; reflexivity | intros ? ?; discriminate]. }
    pose proof (connect_to_rm_session env args remote_ip
                  (set_stdin rest' (set_stdin rest w))) as Hsession.
    unfold result_of in Hsession.
    destruct (connect_to_rm env args remote_ip _) as [[[remote | e] w1] evs1];
      cbn [fst snd app] in *.
    2: { split; [eexists; reflexivity | intros ? ?; discriminate]. }
    split; [eexists; reflexivity |].
    intros server_host' remote' [= <- <-].
    destruct (Hhost server_host eq_refl) as [Hin _]. split.
    + apply list_elem_of_further. apply elem_of_cons in Hin as [Heq | Hin];
        [rewrite Heq; apply list_elem_of_here |].
      apply list_elem_of_further, elem_of_app. left. exact Hin.
    + exists remote_ip. split; [| rewrite (Hsession remote eq_refl); reflexivity].
      do 2 apply list_elem_of_further. apply elem_of_app. right.
      apply elem_of_app. left. exact (Hip remote_ip eq_refl).
Qed.

Lemma install_topology_decision_witness :
  (install_topology Scenario.two_usb (Scenario.args "latest") (Scenario.fresh [] Scenario.conf)
   = topology_usb Scenario.two_usb (Scenario.args "latest") "10.11.99.2"
       (Scenario.fresh [] Scenario.conf))
  ∧ (install_topology Scenario.on_wifi (Scenario.args "latest")
       (Scenario.fresh ["192.168.1.20"; "y"; "192.168.1.77"; "y"] Scenario.conf)
     = topology_wifi Scenario.on_wifi (Scenario.args "latest")
         (ipv4_addresses (net_if_addrs Scenario.on_wifi))
         (Scenario.fresh ["192.168.1.20"; "y"; "192.168.1.77"; "y"] Scenario.conf)).
Proof.
  split.
  - apply (proj1 (install_topology_decision Scenario.two_usb (Scenario.args "latest")
                    (Scenario.fresh [] Scenario.conf) eq_refl eq_refl)
                 "10.11.99.2" ["10.11.99.3"]).
    reflexivity.
  - apply (proj2 (install_topology_decision Scenario.on_wifi (Scenario.args "latest")
                    (Scenario.fresh ["192.168.1.20"; "y"; "192.168.1.77"; "y"] Scenario.conf)
                    eq_refl eq_refl)).
    + reflexivity.
    + vm_compute. discriminate.
Defined.

(** C8 as stated fails: with two addresses in the USB-tether subnet, not
    exactly one, the install workflow still takes the USB path: the
    operator is asked for no address, the session goes to 10.11.99.1 and
    the server is bound to the first of the two addresses. *)
Lemma install_two_usb_addresses_no_prompt :
  usb_candidates (net_if_addrs Scenario.two_usb) = ["10.11.99.2"; "10.11.99.3"]
  ∧ result_of (do_install Scenario.two_usb (Scenario.args "latest") 2
                 (Scenario.fresh [] Scenario.conf)) = Return tt
  ∧ existsb is_topology_prompt
      (events_of (do_install Scenario.two_usb (Scenario.args "latest") 2
                    (Scenario.fresh [] Scenario.conf))) = false
  ∧ events_of (do_install Scenario.two_usb (Scenario.args "latest") 2
                 (Scenario.fresh [] Scenario.conf))
    = [Mkdtemp "/tmp/tmpcodex"; Chdir "/tmp/tmpcodex"; Mkdir "updates";
       Print ("The version firmware file you specified could not be found, "
              +:+ "attempting to download (3.9.9.9)");
       SshConnect "10.11.99.1" (Password "secret");
       Print "Connected to device";
       WriteConf ("[General]" +:+ NL +:+ "SERVER=http://10.11.99.2:8080" +:+ NL
                  +:+ "#SERVER=old" +:+ NL);
       Print (available_versions_msg ("reMarkable 2", ["3.9.9.9"]));
       ThreadStart ("reMarkable 2", ["3.9.9.9"]) "10.11.99.2";
       Print "Checking if device can reach server";
       ExecRemote "10.11.99.1" (NcProbe "10.11.99.2");
       Print "Starting update service on device";
       ExecRemote "10.11.99.1" SystemctlStartUpdateEngine;
       ExecRemote "10.11.99.1" UpdateEngineClientUpdate;
       Print "Success! Please restart the reMarkable device!";
       Chdir "/home/operator"; Rmtree "/tmp/tmpcodex"].
Proof. repeat split; vm_compute; reflexivity. Qed.

(** The only address of a machine that has no USB-tether address is taken
    for the USB address as well: [len(server_host) == 1] holds. *)
Example install_topology_loopback_only :
  usb_candidates (net_if_addrs Scenario.loopback_only) = []
  ∧ install_topology Scenario.loopback_only (Scenario.args "latest")
      (Scenario.fresh [] Scenario.conf)
    = (Return ("127.0.0.1", Some {| remote_ip := default_ip |}),
       Scenario.fresh [] Scenario.conf,
       [SshConnect "10.11.99.1" (Password "secret"); Print "Connected to device"]).
Proof. split; vm_compute; reflexivity. Qed.

(** ** The outcome of the install and restore workflows *)

(** The install workflow from the operator's machine with the tablet on
    USB: the version "latest" of device 2 is not staged, it is downloaded,
    the configuration is patched, the server is started, the device reaches
    it and its update client exits with status 0. *)
Example do_install_on_usb :
  do_install Scenario.on_usb (Scenario.args "latest") 2 (Scenario.fresh [] Scenario.conf)
  = (Return tt,
     {| stdin := [];
        update_conf := "[General]" +:+ NL +:+ "SERVER=http://10.11.99.2:8080" +:+ NL
                       +:+ "#SERVER=old" +:+ NL;
        staged := [("reMarkable 2", ["3.9.9.9"])];
        cwd := "/home/operator";
        server_thread := Some ("reMarkable 2", ["3.9.9.9"], "10.11.99.2") |},
     [Mkdtemp "/tmp/tmpcodex"; Chdir "/tmp/tmpcodex"; Mkdir "updates";
      Print ("The version firmware file you specified could not be found, "
             +:+ "attempting to download (3.9.9.9)");
      SshConnect "10.11.99.1" (Password "secret");
      Print "Connected to device";
      WriteConf ("[General]" +:+ NL +:+ "SERVER=http://10.11.99.2:8080" +:+ NL
                 +:+ "#SERVER=old" +:+ NL);
      Print (available_versions_msg ("reMarkable 2", ["3.9.9.9"]));
      ThreadStart ("reMarkable 2", ["3.9.9.9"]) "10.11.99.2";
      Print "Checking if device can reach server";
      ExecRemote "10.11.99.1" (NcProbe "10.11.99.2");
      Print "Starting update service on device";
      ExecRemote "10.11.99.1" SystemctlStartUpdateEngine;
      ExecRemote "10.11.99.1" UpdateEngineClientUpdate;
      Print "Success! Please restart the reMarkable device!";
      Chdir "/home/operator"; Rmtree "/tmp/tmpcodex"]).
Proof. vm_compute. reflexivity. Qed.

Lemma do_install_update_failure_witness :
  result_of (do_install Scenario.hash_mismatch (Scenario.args "latest") 2
               (Scenario.fresh [] Scenario.conf))
  = Raise (SystemExit update_error_msg)
  ∧ last (events_of (do_install Scenario.hash_mismatch (Scenario.args "latest") 2
                       (Scenario.fresh [] Scenario.conf)))
    = Some (Print (err_text (mk_completed 1 "" "payload hash mismatch")))
  ∧ ∃ available_versions server_host,
      ThreadStart available_versions server_host
        ∈ events_of (do_install Scenario.hash_mismatch (Scenario.args "latest") 2
                       (Scenario.fresh [] Scenario.conf))
      ∧ server_thread (world_of (do_install Scenario.hash_mismatch (Scenario.args "latest") 2
                                   (Scenario.fresh [] Scenario.conf)))
        = Some (available_versions.1, available_versions.2, server_host).
Proof.
  apply (do_install_update_failure Scenario.hash_mismatch (Scenario.args "latest") 2
           (Scenario.fresh [] Scenario.conf) (mk_completed 1 "" "payload hash mismatch")).
  - right. exists "10.11.99.1". split; [| reflexivity].
    vm_compute. repeat constructor.
  - discriminate.
Defined.

(** C9 as stated fails in its last part: when the update client of the
    device exits with status 1 and "payload hash mismatch" on its standard
    error, the workflow raises [SystemExit] and prints that text, but the
    thread that serves the update, started before, is not stopped: it is
    still there when the workflow ends. *)
Lemma do_install_hash_mismatch_server_left_running :
  do_install Scenario.hash_mismatch (Scenario.args "latest") 2
    (Scenario.fresh [] Scenario.conf)
  = (Raise (SystemExit "There was an error updating :("),
     {| stdin := [];
        update_conf := "[General]" +:+ NL +:+ "SERVER=http://10.11.99.2:8080" +:+ NL
                       +:+ "#SERVER=old" +:+ NL;
        staged := [("reMarkable 2", ["3.9.9.9"])];
        cwd := "/tmp/tmpcodex";
        server_thread := Some ("reMarkable 2", ["3.9.9.9"], "10.11.99.2") |},
     [Mkdtemp "/tmp/tmpcodex"; Chdir "/tmp/tmpcodex"; Mkdir "updates";
      Print ("The version firmware file you specified could not be found, "
             +:+ "attempting to download (3.9.9.9)");
      SshConnect "10.11.99.1" (Password "secret");
      Print "Connected to device";
      WriteConf ("[General]" +:+ NL +:+ "SERVER=http://10.11.99.2:8080" +:+ NL
                 +:+ "#SERVER=old" +:+ NL);
      Print (available_versions_msg ("reMarkable 2", ["3.9.9.9"]));
      ThreadStart ("reMarkable 2", ["3.9.9.9"]) "10.11.99.2";
      Print "Checking if device can reach server";
      ExecRemote "10.11.99.1" (NcProbe "10.11.99.2");
      Print "Starting update service on device";
      ExecRemote "10.11.99.1" SystemctlStartUpdateEngine;
      ExecRemote "10.11.99.1" UpdateEngineClientUpdate;
      Print "payload hash mismatch"])
  ∧ server_thread (world_of (do_install Scenario.hash_mismatch (Scenario.args "latest") 2
                               (Scenario.fresh [] Scenario.conf))) ≠ None.
Proof. split; [vm_compute; reflexivity | vm_compute; discriminate]. Qed.

Lemma connect_key_loop_exec_remote f env ip answers :
  connect_key_loop (with_exec_remote f env) ip answers = connect_key_loop env ip answers.
Proof.
  induction answers as [| key_path answers IH]; [reflexivity |].
  cbn [connect_key_loop with_exec_remote path_isfile ssh_connect]. rewrite IH. reflexivity.
Qed.

Lemma connect_password_loop_exec_remote f env ip answers :
  connect_password_loop (with_exec_remote f env) ip answers
  = connect_password_loop env ip answers.
Proof.
  induction answers as [| password answers IH]; [reflexivity |].
  cbn [connect_password_loop with_exec_remote ssh_connect]. rewrite IH. reflexivity.
Qed.

Lemma bind_ext {A B} (m m' : M A) (k k' : A → M B) (w : World) :
  m w = m' w → (∀ a w1, k a w1 = k' a w1) → bind m k w = bind m' k' w.
Proof.
  intros Hm Hk. unfold bind. rewrite Hm.
  destruct (m' w) as [[[a | e] w1] evs1]; [rewrite Hk |]; reflexivity.
Qed.

Lemma connect_to_rm_exec_remote f env args ip w :
  connect_to_rm (with_exec_remote f env) args ip w = connect_to_rm env args ip w.
Proof.
  unfold connect_to_rm. apply bind_ext; [reflexivity |]. intros [|] w1; [reflexivity |].
  apply bind_ext; [reflexivity |]. intros answer w2.
  apply bind_ext; [| reflexivity].
  destruct (Py.contains (Py.lower answer) "n"); unfold interact.
  - rewrite connect_key_loop_exec_remote. reflexivity.
  - rewrite connect_password_loop_exec_remote. reflexivity.
Qed.

Lemma do_restore_exec_remote f env args w :
  do_restore (with_exec_remote f env) args w = do_restore env args w.
Proof.
  unfold do_restore. apply bind_ext; [reflexivity |]. intros answer w1.
  apply bind_ext; [reflexivity |]. intros [] w2.
  cbn [with_exec_remote update_conf_isfile REMOTE_DEPS_MET net_if_addrs].
  destruct (update_conf_isfile env); [reflexivity |].
  destruct (negb (REMOTE_DEPS_MET env)); [reflexivity |].
  apply bind_ext; [reflexivity |]. intros remote_ip w3.
  apply bind_ext; [apply connect_to_rm_exec_remote |]. intros remarkable_remote w4.
  reflexivity.
Qed.

(** C5 on the code. Run through the session, the restore workflow does not
    look at the exit status of the script: its run is the same whatever the
    commands of the session return, and with any exit status it returns
    and reports that it is done. Run on the device, the exit status 1
    raises [CalledProcessError]. *)
Theorem do_restore_remote_exit_status_ignored :
  (∀ env args w f, do_restore (with_exec_remote f env) args w = do_restore env args w)
  ∧ (∀ status,
       do_restore (Scenario.restore_remote status) (Scenario.args "")
         (Scenario.fresh ["y"] Scenario.conf)
       = (Return tt, Scenario.fresh [] Scenario.conf,
          [Input restore_prompt (Some "y");
           Print "Detected as USB connection";
           SshConnect "10.11.99.1" (Password "secret");
           Print "Connected to device";
           ExecRemote "10.11.99.1" RunRestoreCode;
           Print "Done, Please reboot the device!"]))
  ∧ do_restore (Scenario.restore_local 1) (Scenario.args "")
      (Scenario.fresh ["y"] Scenario.conf)
    = (Raise (CalledProcessError ["/bin/bash"; "-l"; "-c"; "RESTORE_CODE"] 1),
       Scenario.fresh [] Scenario.conf,
       [Input restore_prompt (Some "y"); RunLocal RunRestoreCode]).
Proof.
  split; [intros env args w f; apply do_restore_exec_remote |].
  split; [intros status |]; vm_compute; reflexivity.
Qed.

(* ===================================================================== *)
(** * Further properties *)
(* ===================================================================== *)

(** ** The partition-swap script *)

(** X1. From every value of [active_partition] that is one plain word,
    whether it is 2, 3 or another, the script ends with the fallback
    partition set to that value and the active partition set to a
    different one. *)
Theorem restore_code_active_differs_from_fallback
    (env : gmap string string) (old : string) :
  env !! "active_partition" = Some old →
  Shell.expand_unquoted old = Some old →
  ∃ st active,
    Shell.RESTORE_CODE env = Some st
    ∧ Shell.uboot st !! "active_partition" = Some active
    ∧ Shell.uboot st !! "fallback_partition" = Some old
    ∧ active ≠ old.
Proof.
  intros Hold Hword. eexists _, _.
  split; [apply restore_code_run; eassumption |].
  cbn [Shell.uboot Shell.fw_setenv Shell.echo Shell.start].
  split; [apply lookup_insert_eq |].
  split; [rewrite lookup_insert_ne by done; apply lookup_insert_eq |].
  destruct (String.eqb_spec old "2") as [-> | Hne]; [discriminate | congruence].
Qed.

Lemma restore_code_active_differs_from_fallback_witness :
  ∃ st active,
    Shell.RESTORE_CODE {["active_partition" := "b"]} = Some st
    ∧ Shell.uboot st !! "active_partition" = Some active
    ∧ Shell.uboot st !! "fallback_partition" = Some "b"
    ∧ active ≠ "b".
Proof.
  apply (restore_code_active_differs_from_fallback {["active_partition" := "b"]} "b").
  - apply lookup_singleton_eq.
  - reflexivity.
Defined.

(** The two partition variables after a run on a one-word value. *)
Lemma restore_code_partitions (env : gmap string string) (old : string) :
  env !! "active_partition" = Some old →
  Shell.expand_unquoted old = Some old →
  ∃ st, Shell.RESTORE_CODE env = Some st
      ∧ Shell.uboot st !! "active_partition"
        = Some (if String.eqb old "2" then "3" else "2")
      ∧ Shell.uboot st !! "fallback_partition" = Some old.
Proof.
  intros Hold Hword. eexists. split; [apply restore_code_run; eassumption |].
  cbn [Shell.uboot Shell.fw_setenv Shell.echo Shell.start].
  split; [apply lookup_insert_eq |].
  rewrite lookup_insert_ne by done. apply lookup_insert_eq.
Qed.

(** X2. From the active partition 2 or 3, two runs of the script in a row
    bring the active partition back and leave the other one as the
    fallback. *)
Theorem restore_code_twice (env : gmap string string) (old other : string) :
  env !! "active_partition" = Some old →
  (old = "2" ∧ other = "3") ∨ (old = "3" ∧ other = "2") →
  ∃ once twice,
    Shell.RESTORE_CODE env = Some once
    ∧ Shell.RESTORE_CODE (Shell.uboot once) = Some twice
    ∧ Shell.uboot twice !! "active_partition" = Some old
    ∧ Shell.uboot twice !! "fallback_partition" = Some other.
Proof.
  intros Hold Hcase.
  assert (Hword : Shell.expand_unquoted old = Some old
                  ∧ Shell.expand_unquoted other = Some other
                  ∧ (if String.eqb old "2" then "3" else "2") = other
                  ∧ (if String.eqb other "2" then "3" else "2") = old)
    by (destruct Hcase as [[-> ->] | [-> ->]]; repeat split).
  destruct Hword as (Hword & Hword' & Hnew & Hnew').
  destruct (restore_code_partitions env old Hold Hword) as (once & Honce & Hactive & _).
  rewrite Hnew in Hactive.
  destruct (restore_code_partitions (Shell.uboot once) other Hactive Hword')
    as (twice & Htwice & Hactive' & Hfallback').
  rewrite Hnew' in Hactive'.
  exists once, twice. repeat split; assumption.
Qed.

Lemma restore_code_twice_witness :
  ∃ once twice,
    Shell.RESTORE_CODE {["active_partition" := "2"; "bootcount" := "3"]} = Some once
    ∧ Shell.RESTORE_CODE (Shell.uboot once) = Some twice
    ∧ Shell.uboot twice !! "active_partition" = Some "2"
    ∧ Shell.uboot twice !! "fallback_partition" = Some "3".
Proof.
  apply (restore_code_twice {["active_partition" := "2"; "bootcount" := "3"]} "2" "3").
  - apply lookup_insert_eq.
  - left. split; reflexivity.
Defined.

(** X3. From every value of [active_partition] that is one plain word,
    the script ends with [upgrade_available] at 1 and [bootcount] at 0,
    has echoed the new and the old partition, and has changed no variable
    of the environment other than these two and the two partition
    variables. *)
Theorem restore_code_frame (env : gmap string string) (old : string) :
  env !! "active_partition" = Some old →
  Shell.expand_unquoted old = Some old →
  ∃ st new,
    Shell.RESTORE_CODE env = Some st
    ∧ Shell.uboot st !! "upgrade_available" = Some "1"
    ∧ Shell.uboot st !! "bootcount" = Some "0"
    ∧ Shell.uboot st !! "active_partition" = Some new
    ∧ Shell.echoed st = ["new: " +:+ new; "fallback: " +:+ old]
    ∧ ∀ name,
        name ∉ ["upgrade_available"; "bootcount"; "fallback_partition"; "active_partition"] →
        Shell.uboot st !! name = env !! name.
Proof.
  intros Hold Hword. eexists _, _.
  split; [apply restore_code_run; eassumption |].
  cbn [Shell.uboot Shell.echoed Shell.fw_setenv Shell.echo Shell.start].
  split; [rewrite !lookup_insert_ne by done; apply lookup_insert_eq |].
  split; [rewrite !lookup_insert_ne by done; apply lookup_insert_eq |].
  split; [apply lookup_insert_eq |].
  split; [reflexivity |].
  intros name Hname. rewrite !not_elem_of_cons in Hname.
  destruct Hname as (H1 & H2 & H3 & H4 & _).
  rewrite !lookup_insert_ne by congruence. reflexivity.
Qed.

Lemma restore_code_frame_witness :
  ∃ st new,
    Shell.RESTORE_CODE {["active_partition" := "3"; "serial" := "RM110"]} = Some st
    ∧ Shell.uboot st !! "upgrade_available" = Some "1"
    ∧ Shell.uboot st !! "bootcount" = Some "0"
    ∧ Shell.uboot st !! "active_partition" = Some new
    ∧ Shell.echoed st = ["new: " +:+ new; "fallback: " +:+ "3"]
    ∧ ∀ name,
        name ∉ ["upgrade_available"; "bootcount"; "fallback_partition"; "active_partition"] →
        Shell.uboot st !! name
        = ({["active_partition" := "3"; "serial" := "RM110"]} : gmap string string) !! name.
Proof.
  apply (restore_code_frame {["active_partition" := "3"; "serial" := "RM110"]} "3").
  - apply lookup_insert_eq.
  - reflexivity.
Defined.

(** ** The configuration patch and [edit_config] *)

Lemma insertion_point_app (done todo : list string) (i line : nat) :
  insertion_point i line (done ++ todo)
  = insertion_point (i + length done) (insertion_point i line done) todo.
Proof.
  revert i line. induction done as [| l done IH]; intros i line; cbn [app length insertion_point].
  - rewrite Nat.add_0_r. reflexivity.
  - rewrite IH. f_equal. lia.
Qed.

Lemma general_not_server (l : string) :
  Py.startswith l "[General]" = true → Py.startswith l "SERVER=" = false.
Proof.
  unfold Py.startswith. destruct l as [| c l]; [discriminate |].
  cbn [String.prefix].
  destruct (Ascii.ascii_dec "[" c) as [<- | Hc]; [intros _; reflexivity | discriminate].
Qed.

(** X4. When the document has a line that begins with [[General]], the new
    [SERVER=] line is inserted directly after the last such line; the lines
    before and after keep their order, the [SERVER=] lines among them
    deactivated. *)
Theorem patch_after_last_general
    (contents name header : string) (before after : list string) :
  lines contents = before ++ header :: after →
  Py.startswith header "[General]" = true →
  Forall (λ l, Py.startswith l "[General]" = false) after →
  set_server_config contents name
  = Return (Py.join NL ((deactivate <$> before)
                        ++ header :: ("SERVER=" +:+ name) :: (deactivate <$> after))).
Proof.
  intros Hlines Hheader Hafter. rewrite set_server_config_eq. do 2 f_equal.
  rewrite Hlines, insertion_point_app. cbn [insertion_point]. rewrite Hheader.
  rewrite insertion_point_no_general by exact Hafter.
  rewrite fmap_app. cbn [fmap list_fmap].
  assert (Hd : deactivate header = header).
  { unfold deactivate. rewrite (general_not_server header Hheader). reflexivity. }
  rewrite Hd. unfold Py.list_insert.
  replace (0 + length before + 1)%nat with (length (deactivate <$> before) + 1)%nat
    by (rewrite length_fmap; lia).
  replace ((deactivate <$> before) ++ header :: (deactivate <$> after))
    with (((deactivate <$> before) ++ [header]) ++ (deactivate <$> after))
    by (rewrite <- app_assoc; reflexivity).
  assert (Hlen : (length (deactivate <$> before) + 1)%nat
                 = length ((deactivate <$> before) ++ [header]))
    by (rewrite length_app; reflexivity).
  rewrite Hlen, take_app_length, drop_app_length, <- app_assoc. reflexivity.
Qed.

Lemma patch_after_last_general_witness :
  set_server_config
    ("[General]x" +:+ NL +:+ "SERVER=a" +:+ NL +:+ "[General]" +:+ NL +:+ "SERVER=b")
    "http://h:8080"
  = Return (Py.join NL ((deactivate <$> ["[General]x"; "SERVER=a"])
                        ++ "[General]" :: ("SERVER=" +:+ "http://h:8080")
                        :: (deactivate <$> ["SERVER=b"]))).
Proof.
  apply patch_after_last_general.
  - reflexivity.
  - reflexivity.
  - repeat constructor.
Defined.

(** X5. When [edit_config] returns for a server address of one line, on
    the device or through the session, it has written the configuration
    file once, the only active [SERVER=] line of what it wrote is the one
    for the given address and port, and nothing else of the world has
    changed. *)
Theorem edit_config_points_at_server
    (server_ip : string) (port : Z) (remote : option Remote) (w : World) :
  single_line server_ip →
  result_of (edit_config server_ip port remote w) = Return tt →
  ∃ out,
    events_of (edit_config server_ip port remote w) = [WriteConf out]
    ∧ active_server_lines out = ["SERVER=" +:+ server_host_name server_ip port]
    ∧ world_of (edit_config server_ip port remote w)
      = {| stdin := stdin w; update_conf := out; staged := staged w; cwd := cwd w;
           server_thread := server_thread w |}.
Proof.
  intros Hip.
  pose proof (server_host_name_single_line server_ip port Hip) as Hname.
  destruct (lines_of_patch (update_conf w) _ Hname) as (k & out & Hout & _ & _).
  pose proof (active_after_patch _ _ _ Hname Hout) as Hactive.
  unfold edit_config, bind, read_update_conf, of_result, write_update_conf,
    result_of, events_of, world_of.
  destruct remote; rewrite Hout; cbn [fst snd app]; intros _; exists out;
    (split; [reflexivity |]); (split; [exact Hactive | reflexivity]).
Qed.

Lemma edit_config_points_at_server_witness :
  ∃ out,
    events_of (edit_config "192.168.1.20" 8080 (Some {| remote_ip := "192.168.1.77" |})
                 (Scenario.fresh ["y"] Scenario.conf))
    = [WriteConf out]
    ∧ active_server_lines out = ["SERVER=" +:+ server_host_name "192.168.1.20" 8080]
    ∧ world_of (edit_config "192.168.1.20" 8080 (Some {| remote_ip := "192.168.1.77" |})
                  (Scenario.fresh ["y"] Scenario.conf))
      = {| stdin := stdin (Scenario.fresh ["y"] Scenario.conf); update_conf := out;
           staged := staged (Scenario.fresh ["y"] Scenario.conf);
           cwd := cwd (Scenario.fresh ["y"] Scenario.conf);
           server_thread := server_thread (Scenario.fresh ["y"] Scenario.conf) |}.
Proof.
  apply (edit_config_points_at_server "192.168.1.20" 8080
           (Some {| remote_ip := "192.168.1.77" |}) (Scenario.fresh ["y"] Scenario.conf)).
  - reflexivity.
  - reflexivity.
Defined.

(** ** [get_host_ip] and [version_lookup] *)

(** X6. [get_host_ip] returns the first IPv4 address of the USB-tether
    subnet alone when there is one, and otherwise all IPv4 addresses in the
    order of the interfaces; every address it returns is an IPv4 address of
    an interface, and it returns the empty list when [psutil] fails. *)
Theorem get_host_ip_result (net : option (list (string * list snic))) :
  get_host_ip net = match usb_candidates net with
                    | usb :: _ => [usb]
                    | [] => ipv4_addresses net
                    end
  ∧ get_host_ip net ⊆ ipv4_addresses net
  ∧ get_host_ip None = [].
Proof.
  split; [apply get_host_ip_spec |]. split; [| reflexivity].
  rewrite get_host_ip_spec. unfold usb_candidates.
  destruct (filter is_usb (ipv4_addresses net)) as [| usb others] eqn:Husb; [done |].
  intros a Ha. apply list_elem_of_singleton in Ha as ->.
  assert (Hin : usb ∈ filter is_usb (ipv4_addresses net))
    by (rewrite Husb; apply list_elem_of_here).
  apply list_elem_of_filter in Hin as [_ Hin]. exact Hin.
Qed.

(** X7. A machine with exactly one IPv4 address, in whatever subnet, gets
    that address from [get_host_ip] as a one-element list, so that the
    install workflow takes the USB path with it. *)
Theorem single_address_taken_for_usb
    (env : Env) (args : Args) (w : World) (only : string) :
  ipv4_addresses (net_if_addrs env) = [only] →
  is_rm env = false → REMOTE_DEPS_MET env = true →
  get_host_ip (net_if_addrs env) = [only]
  ∧ install_topology env args w = topology_usb env args only w.
Proof.
  intros Hone Hrm Hdeps.
  assert (Hget : get_host_ip (net_if_addrs env) = [only]).
  { rewrite get_host_ip_spec. unfold usb_candidates. rewrite Hone.
    cbn. unfold filter. cbn. case_decide; reflexivity. }
  split; [exact Hget |].
  unfold install_topology. rewrite Hrm, Hdeps, Hget. reflexivity.
Qed.

Lemma single_address_taken_for_usb_witness :
  get_host_ip (net_if_addrs Scenario.loopback_only) = ["127.0.0.1"]
  ∧ install_topology Scenario.loopback_only (Scenario.args "latest")
      (Scenario.fresh [] Scenario.conf)
    = topology_usb Scenario.loopback_only (Scenario.args "latest") "127.0.0.1"
        (Scenario.fresh [] Scenario.conf).
Proof.
  apply (single_address_taken_for_usb Scenario.loopback_only (Scenario.args "latest")
           (Scenario.fresh [] Scenario.conf) "127.0.0.1"); reflexivity.
Defined.

(** X8. With the device type that [main] passes, 1 with [--rm1] and 2
    without, [version_lookup] never raises [SystemError]: it returns the
    latest version, the toltec version or the token itself when it is in
    the table of the device, and raises [SystemExit] with the examples
    otherwise. *)
Theorem version_lookup_from_main (um : UpdateManager) (rm1 : bool) (version : string) :
  version_lookup um version (device_type rm1)
  = (if String.eqb version "latest"
     then Return (get_latest_version um (device_type rm1))
     else if String.eqb version "toltec" then Return (latest_toltec_version um)
     else if bool_decide
               (version ∈ if rm1 then id_lookups_rm1 um else id_lookups_rm2 um)
     then Return version
     else Raise (SystemExit invalid_version_msg))
  ∧ ∀ msg, version_lookup um version (device_type rm1) ≠ Raise (SystemError msg).
Proof.
  assert (Heq : version_lookup um version (device_type rm1)
    = (if String.eqb version "latest"
       then Return (get_latest_version um (device_type rm1))
       else if String.eqb version "toltec" then Return (latest_toltec_version um)
       else if bool_decide
                 (version ∈ if rm1 then id_lookups_rm1 um else id_lookups_rm2 um)
       then Return version
       else Raise (SystemExit invalid_version_msg))).
  { unfold version_lookup. destruct rm1; reflexivity. }
  split; [exact Heq |]. intros msg. rewrite Heq.
  destruct (String.eqb version "latest"); [discriminate |].
  destruct (String.eqb version "toltec"); [discriminate |].
  case_bool_decide; discriminate.
Qed.

(** ** [connect_to_rm] *)

Lemma connect_key_loop_connected env ip answers :
  (connect_key_loop env ip answers).1.1 = Return tt →
  ∃ evs cred,
    (connect_key_loop env ip answers).2 = evs ++ [SshConnect ip cred]
    ∧ ssh_connect env ip cred = Connected.
Proof.
  induction answers as [| key_path answers IH]; cbn [connect_key_loop]; [discriminate |].
  destruct (connect_key_loop env ip answers) as [[r rest] evs]. cbn [fst snd] in IH.
  destruct (path_isfile env key_path); cbn [negb].
  - destruct (ssh_connect env ip (KeyFilename key_path)) eqn:Hconnect; cbn [fst snd].
    + intros _. exists [Input key_prompt (Some key_path)], (KeyFilename key_path).
      split; [reflexivity | exact Hconnect].
    + intros Hr. destruct (IH Hr) as (evs' & cred & -> & Hc).
      exists (Input key_prompt (Some key_path) :: SshConnect ip (KeyFilename key_path)
              :: Print "Error while connecting to device: {error}" :: evs'), cred.
      split; [reflexivity | exact Hc].
    + intros Hr. destruct (IH Hr) as (evs' & cred & -> & Hc).
      exists (Input key_prompt (Some key_path) :: SshConnect ip (KeyFilename key_path)
              :: Print "Error while connecting to device: {error}" :: evs'), cred.
      split; [reflexivity | exact Hc].
  - cbn [fst snd]. intros Hr. destruct (IH Hr) as (evs' & cred & -> & Hc).
    exists (Input key_prompt (Some key_path) :: Print "Invalid path given" :: evs'), cred.
    split; [reflexivity | exact Hc].
Qed.

Lemma connect_password_loop_connected env ip answers :
  (connect_password_loop env ip answers).1.1 = Return tt →
  ∃ evs cred,
    (connect_password_loop env ip answers).2 = evs ++ [SshConnect ip cred]
    ∧ ssh_connect env ip cred = Connected.
Proof.
  induction answers as [| password answers IH]; cbn [connect_password_loop];
    [discriminate |].
  destruct (connect_password_loop env ip answers) as [[r rest] evs]. cbn [fst snd] in IH.
  destruct (ssh_connect env ip (Password password)) eqn:Hconnect; cbn [fst snd].
  - intros _. exists [Input password_prompt (Some password)], (Password password).
    split; [reflexivity | exact Hconnect].
  - intros Hr. destruct (IH Hr) as (evs' & cred & -> & Hc).
    exists (Input password_prompt (Some password) :: SshConnect ip (Password password)
            :: Print "Incorrect password given" :: evs'), cred.
    split; [reflexivity | exact Hc].
  - discriminate.
Qed.

Lemma connect_prompts_connected env ip w client w' evs :
  connect_prompts env ip w = (Return client, w', evs) →
  ∃ evs0 cred,
    evs = evs0 ++ [SshConnect ip cred; Print "Connected to device"]
    ∧ ssh_connect env ip cred = Connected.
Proof.
  unfold connect_prompts, bind, input, interact, print, emit, ret.
  destruct (stdin w) as [| answer rest]; [discriminate |]. cbn [stdin set_stdin].
  destruct (Py.contains (Py.lower answer) "n"); cbn [stdin set_stdin].
  - pose proof (connect_key_loop_connected env ip rest) as Hloop.
    destruct (connect_key_loop env ip rest) as [[[[] | e] rest'] evs1];
      cbn [fst snd] in *; cbv beta iota; [| discriminate].
    intros [= _ _ <-]. destruct (Hloop eq_refl) as (evs' & cred & -> & Hc).
    exists (Input use_password_prompt (Some answer) :: evs'), cred.
    split; [| exact Hc]. cbn [app]. rewrite <- ?app_assoc. reflexivity.
  - pose proof (connect_password_loop_connected env ip rest) as Hloop.
    destruct (connect_password_loop env ip rest) as [[[[] | e] rest'] evs1];
      cbn [fst snd] in *; cbv beta iota; [| discriminate].
    intros [= _ _ <-]. destruct (Hloop eq_refl) as (evs' & cred & -> & Hc).
    exists (Input use_password_prompt (Some answer) :: evs'), cred.
    split; [| exact Hc]. cbn [app]. rewrite <- ?app_assoc. reflexivity.
Qed.

(** [connect_to_rm] in three cases: the credentials of the arguments
    connect, they are rejected, or there are none. *)
Lemma connect_to_rm_run env args ip w :
  connect_to_rm env args ip w =
    match auth args with
    | Some (String c s) =>
        let cred := if path_isfile env (String c s)
                    then KeyFilename (String c s) else Password (String c s) in
        match ssh_connect env ip cred with
        | Connected =>
            (Return {| remote_ip := ip |}, w,
             [SshConnect ip cred; Print "Connected to device"])
        | AuthenticationException =>
            match connect_prompts env ip w with
            | (r, w', evs) =>
                (r, w',
                 SshConnect ip cred
                   :: Print "Incorrect password or ssh path given in arguments!" :: evs)
            end
        | OtherException what => (Raise (ForeignError what), w, [SshConnect ip cred])
        end
    | _ => connect_prompts env ip w
    end.
Proof.
  unfold connect_to_rm. fold (connect_prompts env ip).
  destruct (auth args) as [[| c s] |].
  - unfold bind at 1, ret at 1. destruct (connect_prompts env ip w) as [[r w'] evs].
    reflexivity.
  - cbn zeta. unfold bind at 1. unfold bind at 1, emit at 1.
    destruct (ssh_connect env ip _).
    + reflexivity.
    + unfold bind at 1, print at 1, emit at 1, ret at 1. cbn [app].
      destruct (connect_prompts env ip w) as [[r w'] evs]. reflexivity.
    + reflexivity.
  - unfold bind at 1, ret at 1. destruct (connect_prompts env ip w) as [[r w'] evs].
    reflexivity.
Qed.

(** X9. [connect_to_rm] returns a client only after an attempt to connect
    to the given address has succeeded: the run ends with that attempt and
    the line "Connected to device". *)
Theorem connect_to_rm_connected env args ip w client :
  result_of (connect_to_rm env args ip w) = Return client →
  ∃ evs cred,
    events_of (connect_to_rm env args ip w)
    = evs ++ [SshConnect ip cred; Print "Connected to device"]
    ∧ ssh_connect env ip cred = Connected.
Proof.
  rewrite connect_to_rm_run. unfold result_of, events_of.
  pose proof (connect_prompts_connected env ip w client) as Hprompts.
  destruct (auth args) as [[| c s] |].
  - destruct (connect_prompts env ip w) as [[r w'] evs]. cbn [fst snd].
    intros ->. exact (Hprompts _ _ eq_refl).
  - cbn zeta. destruct (ssh_connect env ip _) eqn:Hconnect.
    + intros _. eexists [], _. split; [reflexivity | exact Hconnect].
    + destruct (connect_prompts env ip w) as [[r w'] evs]. cbn [fst snd].
      intros ->. destruct (Hprompts _ _ eq_refl) as (evs0 & cred & -> & Hc).
      eexists (_ :: _ :: evs0), cred. split; [reflexivity | exact Hc].
    + discriminate.
  - destruct (connect_prompts env ip w) as [[r w'] evs]. cbn [fst snd].
    intros ->. exact (Hprompts _ _ eq_refl).
Qed.

Lemma connect_to_rm_connected_witness :
  ∃ evs cred,
    events_of (connect_to_rm Cases.picky
                 {| auth := Some "/root/.ssh/id"; serve_folder := None; version := "" |}
                 default_ip (Scenario.fresh ["y"; "guess"; "secret"] Scenario.conf))
    = evs ++ [SshConnect default_ip cred; Print "Connected to device"]
    ∧ ssh_connect Cases.picky default_ip cred = Connected.
Proof.
  apply (connect_to_rm_connected Cases.picky _ default_ip
           (Scenario.fresh ["y"; "guess"; "secret"] Scenario.conf) {| remote_ip := default_ip |}).
  reflexivity.
Defined.

Lemma connect_key_loop_files env ip answers :
  Forall (key_file_exists env) (connect_key_loop env ip answers).2.
Proof.
  induction answers as [| key_path answers IH]; cbn [connect_key_loop].
  - repeat constructor.
  - destruct (connect_key_loop env ip answers) as [[r rest] evs].
    destruct (path_isfile env key_path) eqn:Hfile; cbn [negb].
    + destruct (ssh_connect env ip (KeyFilename key_path));
        repeat constructor; cbn; auto.
    + repeat constructor; exact IH.
Qed.

Lemma connect_password_loop_files env ip answers :
  Forall (key_file_exists env) (connect_password_loop env ip answers).2.
Proof.
  induction answers as [| password answers IH]; cbn [connect_password_loop].
  - repeat constructor.
  - destruct (connect_password_loop env ip answers) as [[r rest] evs].
    destruct (ssh_connect env ip (Password password)); repeat constructor; exact IH.
Qed.

Lemma bind_input_run {A} (prompt : string) (k : string → M A) (w : World) :
  bind (input prompt) k w
  = match stdin w with
    | [] => (Raise EOFError, w, [Input prompt None])
    | answer :: rest =>
        (result_of (k answer (set_stdin rest w)), world_of (k answer (set_stdin rest w)),
         Input prompt (Some answer) :: events_of (k answer (set_stdin rest w)))
    end.
Proof.
  unfold bind, input. destruct (stdin w) as [| answer rest]; [reflexivity |].
  destruct (k answer (set_stdin rest w)) as [[r w2] evs2]. reflexivity.
Qed.

Lemma connect_key_loop_first env ip answers :
  ∃ evs, (connect_key_loop env ip answers).2 = Input key_prompt (head answers) :: evs.
Proof.
  destruct answers as [| key_path answers]; cbn [connect_key_loop head];
    [eexists; reflexivity |].
  destruct (connect_key_loop env ip answers) as [[r rest] evs].
  destruct (negb _); [eexists; reflexivity |].
  destruct (ssh_connect env ip _); eexists; reflexivity.
Qed.

(** X10. [connect_to_rm] never tries to connect with a key file that does
    not exist. A path from the arguments that is not a file is used, as
    the first thing, as a password; a path that the operator enters and
    that is not a file is answered with "Invalid path given", and the path
    is asked for again. *)
Theorem connect_to_rm_key_files env args ip w :
  Forall (key_file_exists env) (events_of (connect_to_rm env args ip w))
  ∧ (∀ c s,
       auth args = Some (String c s) → path_isfile env (String c s) = false →
       ∃ evs, events_of (connect_to_rm env args ip w)
              = SshConnect ip (Password (String c s)) :: evs)
  ∧ (∀ answer key_path rest,
       auth args = None → stdin w = answer :: key_path :: rest →
       Py.contains (Py.lower answer) "n" = true → path_isfile env key_path = false →
       ∃ evs, events_of (connect_to_rm env args ip w)
              = Input use_password_prompt (Some answer)
                  :: Input key_prompt (Some key_path) :: Print "Invalid path given"
                  :: Input key_prompt (head rest) :: evs).
Proof.
  split; [| split].
  - revert w. change (emits_only (key_file_exists env) (connect_to_rm env args ip)).
    unfold connect_to_rm.
    emits; try exact I; try apply emits_only_ret; try apply emits_only_raise.
    + match goal with
      | |- context [path_isfile env ?p] => destruct (path_isfile env p) eqn:Hfile
      end; [exact Hfile | exact I].
    + apply emits_only_interact, connect_key_loop_files.
    + apply emits_only_interact, connect_password_loop_files.
  - intros c s Hauth Hfile. rewrite connect_to_rm_run, Hauth, Hfile. cbn zeta.
    destruct (ssh_connect env ip (Password (String c s)));
      [| destruct (connect_prompts env ip w) as [[r w'] evs] |]; eexists; reflexivity.
  - intros answer key_path rest Hauth Hstdin Hno Hfile.
    rewrite connect_to_rm_run, Hauth.
    unfold connect_prompts. rewrite bind_input_run, Hstdin, Hno.
    unfold events_of at 1. cbn [snd].
    unfold bind at 1, interact at 1. cbn [stdin set_stdin connect_key_loop].
    rewrite Hfile. cbn [negb].
    destruct (connect_key_loop_first env ip rest) as [evs Hfirst].
    destruct (connect_key_loop env ip rest) as [[[[] | e] rest'] evs'];
      cbn [snd] in Hfirst; subst evs'; unfold events_of; cbn [snd];
      [| eexists; reflexivity].
    unfold bind, print, emit, ret. cbn [snd app]. eexists. reflexivity.
Qed.

Lemma connect_to_rm_key_files_witness :
  ∃ evs, events_of (connect_to_rm Cases.picky
                      {| auth := None; serve_folder := None; version := "" |}
                      default_ip
                      (Scenario.fresh ["n"; "/nowhere"; "/root/.ssh/id"] Scenario.conf))
         = Input use_password_prompt (Some "n")
             :: Input key_prompt (Some "/nowhere") :: Print "Invalid path given"
             :: Input key_prompt (head ["/root/.ssh/id"]) :: evs.
Proof.
  destruct (connect_to_rm_key_files Cases.picky
              {| auth := None; serve_folder := None; version := "" |} default_ip
              (Scenario.fresh ["n"; "/nowhere"; "/root/.ssh/id"] Scenario.conf))
    as (_ & _ & Hasked).
  exact (Hasked "n" "/nowhere" ["/root/.ssh/id"] eq_refl eq_refl eq_refl eq_refl).
Defined.

(** X11. Credentials from the arguments that the device rejects are not
    fatal: [connect_to_rm] says so and goes on as it does without
    credentials in the arguments. *)
Theorem connect_to_rm_rejected_auth env args ip w c s :
  auth args = Some (String c s) →
  ssh_connect env ip (if path_isfile env (String c s)
                      then KeyFilename (String c s) else Password (String c s))
  = AuthenticationException →
  connect_to_rm env args ip w
  = let run := connect_to_rm env
                 {| auth := None; serve_folder := serve_folder args;
                    version := version args |} ip w in
    (result_of run, world_of run,
     SshConnect ip (if path_isfile env (String c s)
                    then KeyFilename (String c s) else Password (String c s))
       :: Print "Incorrect password or ssh path given in arguments!"
       :: events_of run).
Proof.
  intros Hauth Hreject. rewrite !connect_to_rm_run. rewrite Hauth. cbn [auth]. cbn zeta.
  rewrite Hreject. destruct (connect_prompts env ip w) as [[r w'] evs]. reflexivity.
Qed.

Lemma connect_to_rm_rejected_auth_witness :
  connect_to_rm Cases.picky
    {| auth := Some "/root/.ssh/id"; serve_folder := None; version := "" |}
    default_ip (Scenario.fresh ["y"; "secret"] Scenario.conf)
  = (Return {| remote_ip := default_ip |}, Scenario.fresh [] Scenario.conf,
     [SshConnect default_ip (KeyFilename "/root/.ssh/id");
      Print "Incorrect password or ssh path given in arguments!";
      Input use_password_prompt (Some "y");
      Input password_prompt (Some "secret");
      SshConnect default_ip (Password "secret");
      Print "Connected to device"]).
Proof.
  apply (eq_trans (connect_to_rm_rejected_auth Cases.picky
                     {| auth := Some "/root/.ssh/id"; serve_folder := None; version := "" |}
                     default_ip (Scenario.fresh ["y"; "secret"] Scenario.conf)
                     "/" "root/.ssh/id" eq_refl eq_refl)).
  reflexivity.
Defined.

(** ** The dialogues about addresses and [get_available_version] *)

(** X12. [get_remarkable_ip] asks again as long as the operator answers the
    confirmation with "n" or "N", and returns the address that is followed
    by any other answer, also an empty one or "no". *)
Theorem get_remarkable_ip_confirmed
    (w : World) (rejected : list (string * string)) (remote_ip sure : string)
    (rest : list string) :
  stdin w = pairs_flat rejected ++ remote_ip :: sure :: rest →
  Forall (λ pair, Py.lower pair.2 = "n") rejected →
  Py.lower sure ≠ "n" →
  result_of (get_remarkable_ip w) = Return remote_ip
  ∧ stdin (world_of (get_remarkable_ip w)) = rest
  ∧ length (events_of (get_remarkable_ip w)) = (2 * length rejected + 2)%nat.
Proof.
  intros Hstdin Hrejected Hsure.
  unfold get_remarkable_ip, interact, result_of, world_of, events_of. rewrite Hstdin.
  clear Hstdin.
  assert (Hloop : ∃ evs,
            get_remarkable_ip_loop (pairs_flat rejected ++ remote_ip :: sure :: rest)
            = (Return remote_ip, rest, evs)
            ∧ length evs = (2 * length rejected + 2)%nat).
  { induction Hrejected as [| [ip no] rejected Hno _ IH].
    - cbn [pairs_flat fmap list_fmap mjoin list_join app get_remarkable_ip_loop].
      apply String.eqb_neq in Hsure. rewrite Hsure.
      eexists. split; reflexivity.
    - cbn [fst snd] in Hno.
      change (pairs_flat ((ip, no) :: rejected) ++ remote_ip :: sure :: rest)
        with (ip :: no :: pairs_flat rejected ++ remote_ip :: sure :: rest).
      cbn [get_remarkable_ip_loop]. rewrite Hno. cbn [String.eqb Ascii.eqb negb].
      destruct IH as (evs & -> & Hlen).
      eexists. split; [reflexivity |]. cbn [length]. lia. }
  destruct Hloop as (evs & -> & Hlen). cbn [fst snd]. repeat split. exact Hlen.
Qed.

Lemma get_remarkable_ip_confirmed_witness :
  result_of (get_remarkable_ip
               (Scenario.fresh ["10.0.0.1"; "N"; "10.0.0.2"; "no"; "left"] Scenario.conf))
  = Return "10.0.0.2"
  ∧ stdin (world_of (get_remarkable_ip
                       (Scenario.fresh ["10.0.0.1"; "N"; "10.0.0.2"; "no"; "left"]
                          Scenario.conf)))
    = ["left"]
  ∧ length (events_of (get_remarkable_ip
                         (Scenario.fresh ["10.0.0.1"; "N"; "10.0.0.2"; "no"; "left"]
                            Scenario.conf)))
    = (2 * length [("10.0.0.1", "N")] + 2)%nat.
Proof.
  apply (get_remarkable_ip_confirmed _ [("10.0.0.1", "N")] "10.0.0.2" "no" ["left"]).
  - reflexivity.
  - repeat constructor.
  - discriminate.
Defined.

(** X13. The dialogue of the install workflow about the operator's own
    address only returns one of the listed addresses; when no address is
    listed at all, the only answer it accepts is the empty line. *)
Theorem ask_server_host_listed
    (addresses answers : list string) (server_host : string) :
  Forall single_line addresses →
  (ask_server_host (Py.join NL addresses) answers).1.1 = Return server_host →
  server_host ∈ addresses ∨ (addresses = [] ∧ server_host = "").
Proof.
  intros Hlines Hr.
  destruct (ask_server_host_answer _ _ _ Hr) as [_ Hin].
  destruct addresses as [| a addresses].
  - right. split; [reflexivity |]. cbn in Hin.
    apply list_elem_of_singleton in Hin. exact Hin.
  - left. rewrite split_join in Hin by (discriminate || exact Hlines). exact Hin.
Qed.

Lemma ask_server_host_listed_witness :
  "192.168.1.20" ∈ ["127.0.0.1"; "192.168.1.20"]
  ∨ (["127.0.0.1"; "192.168.1.20"] = [] ∧ "192.168.1.20" = "").
Proof.
  apply (ask_server_host_listed ["127.0.0.1"; "192.168.1.20"]
           ["10.0.0.9"; "192.168.1.20"; "y"] "192.168.1.20").
  - repeat constructor.
  - vm_compute. reflexivity.
Defined.

(** X14. [get_available_version] changes nothing and reports nothing; the
    entry it returns is a staged one that holds the version, the first in
    the order of [scanUpdates], and it returns [None] exactly when no
    staged entry holds the version. *)
Theorem get_available_version_found (version : string) (w : World) :
  world_of (get_available_version version w) = w
  ∧ events_of (get_available_version version w) = []
  ∧ match result_of (get_available_version version w) with
    | Return (Some entry) =>
        ∃ earlier later,
          staged w = earlier ++ entry :: later
          ∧ version ∈ entry.2
          ∧ Forall (λ other, version ∉ other.2) earlier
    | Return None => Forall (λ other, version ∉ other.2) (staged w)
    | Raise _ => False
    end.
Proof.
  unfold get_available_version, bind, scanUpdates, ret, result_of, world_of, events_of.
  cbn [fst snd app]. split; [reflexivity |]. split; [reflexivity |].
  induction (staged w) as [| [device ids] entries IH]; cbn [find].
  - constructor.
  - unfold Py.list_contains at 1. cbn [snd]. case_bool_decide as Hin.
    + exists [], entries. split; [reflexivity |]. split; [exact Hin | constructor].
    + destruct (find _ entries) as [entry |].
      * destruct IH as (earlier & later & -> & Hentry & Hearlier).
        exists ((device, ids) :: earlier), later.
        split; [reflexivity |]. split; [exact Hentry |].
        constructor; [exact Hin | exact Hearlier].
      * constructor; [exact Hin | exact IH].
Qed.

(** ** The install workflow *)

Section Keeps.
Context {A B X : Type}.
Implicit Types f : World → X.

Lemma keeps_ret f (a : A) : keeps f (ret a).
Proof. intros w. reflexivity. Qed.

Lemma keeps_raise f e : keeps f (raise (A := A) e).
Proof. intros w. reflexivity. Qed.

Lemma keeps_of_result f (r : result A) : keeps f (of_result r).
Proof. intros w. reflexivity. Qed.

Lemma keeps_bind f (m : M A) (k : A → M B) :
  keeps f m → (∀ a, keeps f (k a)) → keeps f (bind m k).
Proof.
  intros Hm Hk w. unfold bind, world_of. specialize (Hm w). unfold world_of in Hm.
  destruct (m w) as [[[a | e] w1] evs1]; cbn [fst snd] in *; [| exact Hm].
  specialize (Hk a w1). unfold world_of in Hk.
  destruct (k a w1) as [[r w2] evs2]. cbn [fst snd] in *. congruence.
Qed.

Lemma keeps_interact f (loop : list string → result A * list string * list event) :
  (∀ answers w, f (set_stdin answers w) = f w) → keeps f (interact loop).
Proof.
  intros Hf w. unfold interact. destruct (loop (stdin w)) as [[r rest] evs]. apply Hf.
Qed.
End Keeps.

Lemma keeps_input {X} (f : World → X) prompt :
  (∀ answers w, f (set_stdin answers w) = f w) → keeps f (input prompt).
Proof. intros Hf w. unfold input. destruct (stdin w); [reflexivity | apply Hf]. Qed.

Lemma keeps_updateman_get_version {X} (f : World → X) env v d folder :
  (∀ st w, f {| stdin := stdin w; update_conf := update_conf w; staged := st;
                cwd := cwd w; server_thread := server_thread w |} = f w) →
  keeps f (updateman_get_version env v d folder).
Proof.
  intros Hf w. unfold updateman_get_version. destruct (get_version _ _ _ _ _). apply Hf.
Qed.

(** One step through a workflow that does not change what is read of the
    world. *)
Ltac keeps_step :=
  lazymatch goal with
  | |- keeps _ (bind _ _) => apply keeps_bind; [| intros ?]
  | |- keeps _ (ret _) => apply keeps_ret
  | |- keeps _ (raise _) => apply keeps_raise
  | |- keeps _ (of_result _) => apply keeps_of_result
  | |- keeps _ (input _) => apply keeps_input; intros ? ?; reflexivity
  | |- keeps _ (interact _) => apply keeps_interact; intros ? ?; reflexivity
  | |- keeps _ (updateman_get_version _ _ _ _) =>
      apply keeps_updateman_get_version; intros ? ?; reflexivity
  | |- keeps _ (subprocess_run_check _ _ _) => unfold subprocess_run_check
  | |- keeps _ (subprocess_popen _ _) => unfold subprocess_popen
  | |- keeps _ (exec_command _ _ _) => unfold exec_command
  | |- keeps _ (get_available_version _) => unfold get_available_version
  | |- keeps _ get_remarkable_ip => unfold get_remarkable_ip
  | |- keeps _ (match ?x with _ => _ end) => destruct x
  | |- keeps _ _ => solve [intros ?; reflexivity]
  end.
Ltac keeps_all := repeat keeps_step.

Lemma install_ensure_staged_keeps env args device :
  keeps device_state (install_ensure_staged env args device).
Proof. unfold install_ensure_staged. keeps_all. Qed.

Lemma connect_to_rm_keeps env args ip : keeps device_state (connect_to_rm env args ip).
Proof. unfold connect_to_rm. keeps_all. Qed.

Lemma install_topology_keeps env args : keeps device_state (install_topology env args).
Proof.
  unfold install_topology, topology_usb, topology_wifi. keeps_all;
    apply connect_to_rm_keeps.
Qed.

Lemma install_update_keeps env server_host remote :
  keeps device_state (install_update env server_host remote).
Proof. unfold install_update. keeps_all. Qed.

(** X15. When the version cannot be resolved, the install workflow does
    not return, and it ends before anything is done to the device: no
    connection, no command, no write of the configuration and no server
    thread. *)
Theorem do_install_version_not_found env args device w e :
  version_lookup (updateman env) (version args) device = Raise e →
  (∃ e', result_of (do_install env args device w) = Raise e')
  ∧ Forall (λ ev, ¬ touches_device ev) (events_of (do_install env args device w))
  ∧ device_state (world_of (do_install env args device w)) = device_state w.
Proof.
  intros Hlookup. rewrite do_install_run.
  pose proof (install_ensure_staged_events env args device w) as Hevents.
  pose proof (install_ensure_staged_keeps env args device w) as Hkeeps.
  assert (Hraise : result_of (install_ensure_staged env args device w) = Raise e).
  { unfold install_ensure_staged. rewrite Hlookup.
    unfold bind, chdir, emit, ret, getcwd, scanUpdates, of_result, result_of.
    destruct (serve_folder args) as [[| c s] |]; cbn [fst snd cwd];
      destruct (negb _); reflexivity. }
  unfold result_of, world_of, events_of in *.
  destruct (install_ensure_staged env args device w) as [[[[av temp] | e'] w1] evs1];
    cbn [fst snd] in *; [discriminate |].
  split; [exists e'; reflexivity |]. split; [| exact Hkeeps].
  eapply Forall_impl; [exact Hevents |]. intros ev. destruct ev; cbn; tauto.
Qed.

Lemma do_install_version_not_found_witness :
  (∃ e', result_of (do_install Scenario.on_usb (Scenario.args "1.2.3") 2
                      (Scenario.fresh [] Scenario.conf)) = Raise e')
  ∧ Forall (λ ev, ¬ touches_device ev)
      (events_of (do_install Scenario.on_usb (Scenario.args "1.2.3") 2
                    (Scenario.fresh [] Scenario.conf)))
  ∧ device_state (world_of (do_install Scenario.on_usb (Scenario.args "1.2.3") 2
                              (Scenario.fresh [] Scenario.conf)))
    = device_state (Scenario.fresh [] Scenario.conf).
Proof.
  apply (do_install_version_not_found Scenario.on_usb (Scenario.args "1.2.3") 2
           (Scenario.fresh [] Scenario.conf) (SystemExit invalid_version_msg)).
  reflexivity.
Defined.

Lemma edit_config_run server_ip port remote w :
  ∃ out,
    edit_config server_ip port remote w
    = (Return tt,
       {| stdin := stdin w; update_conf := out; staged := staged w; cwd := cwd w;
          server_thread := server_thread w |},
       [WriteConf out]).
Proof.
  eexists. unfold edit_config, bind, read_update_conf, of_result, write_update_conf.
  destruct remote; rewrite set_server_config_eq; reflexivity.
Qed.

Lemma install_topology_on_device env args w :
  is_rm env = true → install_topology env args w = (Return ("0.0.0.0", None), w, []).
Proof. intros Hrm. unfold install_topology. rewrite Hrm. reflexivity. Qed.

Lemma install_update_on_device env server_host :
  emits_only on_device_event (install_update env server_host None).
Proof.
  unfold install_update.
  emits; try exact I; try reflexivity; try apply emits_only_ret; try apply emits_only_raise.
Qed.

Lemma install_update_returns env server_host remote w :
  result_of (install_update env server_host remote w) = Return tt →
  ∃ client, client_ran env (events_of (install_update env server_host remote w)) client
            ∧ exit_status client = 0.
Proof.
  destruct remote as [remarkable_remote |].
  - rewrite install_update_remote. cbn zeta.
    destruct (negb (exit_status (exec_remote env _ (NcProbe server_host)) =? 0));
      [discriminate |].
    destruct (exit_status (exec_remote env _ UpdateEngineClientUpdate) =? 0) eqn:Hclient;
      [| discriminate].
    intros _. eexists. split; [| apply Z.eqb_eq; exact Hclient].
    right. eexists. split; [| reflexivity].
    do 4 apply list_elem_of_further. apply list_elem_of_here.
  - intros Hreturn. exists (run_local env UpdateEngineClientUpdate).
    revert Hreturn.
    unfold install_update, bind, subprocess_run_check, subprocess_popen, print, emit,
      ret, raise, input, bind, result_of, events_of, client_ran.
    destruct (exit_status (run_local env SystemctlStartUpdateEngine) =? 0);
      [| discriminate].
    destruct (exit_status (run_local env UpdateEngineClientUpdate) =? 0) eqn:Hclient;
      [| discriminate].
    apply Z.eqb_eq in Hclient. cbn [negb fst snd app].
    destruct (stdin w) as [| answer rest]; [discriminate |].
    destruct (Py.contains (Py.lower answer) "y");
      [destruct (exit_status (run_local env ShutdownNow) =? 0); [| discriminate] |];
      intros _; (split; [| exact Hclient]); left; (split; [| reflexivity]);
      cbn [fst snd app]; do 2 apply list_elem_of_further; apply list_elem_of_here.
Qed.

(** X16. Run on the device itself, the install workflow opens no session
    and runs nothing through one, asks the operator nothing but whether to
    shut down, and gives no other address than 0.0.0.0 to the server; when
    it returns, it has started the server for that address and has run the
    update client on the device. *)
Theorem do_install_on_device env args device w :
  is_rm env = true →
  Forall on_device_event (events_of (do_install env args device w))
  ∧ (result_of (do_install env args device w) = Return tt →
     ∃ available_versions,
       ThreadStart available_versions "0.0.0.0" ∈ events_of (do_install env args device w)
       ∧ RunLocal UpdateEngineClientUpdate ∈ events_of (do_install env args device w)
       ∧ server_thread (world_of (do_install env args device w))
         = Some (available_versions.1, available_versions.2, "0.0.0.0")).
Proof.
  intros Hrm. rewrite do_install_run.
  pose proof (install_ensure_staged_events env args device w) as H1.
  assert (Hstaging : ∀ e, is_staging e → on_device_event e)
    by (intros e; destruct e; cbn; tauto).
  destruct (install_ensure_staged env args device w) as [[[[av temp_path] | e] w1] evs1];
    [| split; [exact (Forall_impl _ _ _ H1 Hstaging) | discriminate]].
  rewrite (install_topology_on_device env args w1 Hrm).
  destruct (edit_config_run "0.0.0.0" 8080 None w1) as [out ->]. cbn zeta.
  pose proof (install_update_on_device env "0.0.0.0"
                (world_of (thread_start av "0.0.0.0"
                   {| stdin := stdin w1; update_conf := out; staged := staged w1;
                      cwd := cwd w1; server_thread := server_thread w1 |}))) as H4.
  pose proof (install_update_returns env "0.0.0.0" None
                (world_of (thread_start av "0.0.0.0"
                   {| stdin := stdin w1; update_conf := out; staged := staged w1;
                      cwd := cwd w1; server_thread := server_thread w1 |}))) as Hreturns.
  pose proof (install_update_keeps env "0.0.0.0" None
                (world_of (thread_start av "0.0.0.0"
                   {| stdin := stdin w1; update_conf := out; staged := staged w1;
                      cwd := cwd w1; server_thread := server_thread w1 |}))) as Hkeeps.
  assert (Hend : Forall on_device_event
            (Chdir (cwd w)
               :: match temp_path with Some temp_path => [Rmtree temp_path] | None => [] end))
    by (destruct temp_path; repeat constructor).
  destruct (install_update env "0.0.0.0" None _) as [[[[] | e] w4] evs4];
    unfold result_of, events_of, world_of, device_state, chdir, thread_start in *;
    cbn [fst snd server_thread cwd update_conf] in *.
  - split.
    + repeat (apply Forall_app; split);
        try exact (Forall_impl _ _ _ H1 Hstaging); try exact H4; try exact Hend;
        repeat constructor.
    + intros _. exists av.
      destruct (Hreturns eq_refl) as (client & Hran & _).
      split; [| split].
      * apply elem_of_app. right. do 2 apply list_elem_of_further. apply list_elem_of_here.
      * apply elem_of_app. right. do 3 apply list_elem_of_further.
        apply elem_of_app. left.
        destruct Hran as [[Hin _] | (ip & Hin & _)]; [exact Hin |].
        exfalso. rewrite Forall_forall in H4. exact (H4 _ Hin).
      * injection Hkeeps as _ Hthread. exact Hthread.
  - split; [| discriminate].
    repeat (apply Forall_app; split);
      try exact (Forall_impl _ _ _ H1 Hstaging); try exact H4;
      repeat constructor.
Qed.

Lemma do_install_on_device_witness :
  Forall on_device_event
    (events_of (do_install (Scenario.tablet 0 0 "") (Scenario.args "3.2.3.1595") 2
                  (Scenario.fresh ["n"] Scenario.conf)))
  ∧ ∃ available_versions,
      ThreadStart available_versions "0.0.0.0"
      ∈ events_of (do_install (Scenario.tablet 0 0 "") (Scenario.args "3.2.3.1595") 2
                     (Scenario.fresh ["n"] Scenario.conf))
      ∧ RunLocal UpdateEngineClientUpdate
        ∈ events_of (do_install (Scenario.tablet 0 0 "") (Scenario.args "3.2.3.1595") 2
                       (Scenario.fresh ["n"] Scenario.conf))
      ∧ server_thread (world_of (do_install (Scenario.tablet 0 0 "")
                                   (Scenario.args "3.2.3.1595") 2
                                   (Scenario.fresh ["n"] Scenario.conf)))
        = Some (available_versions.1, available_versions.2, "0.0.0.0").
Proof.
  destruct (do_install_on_device (Scenario.tablet 0 0 "") (Scenario.args "3.2.3.1595") 2
              (Scenario.fresh ["n"] Scenario.conf) eq_refl) as [Honly Hreturned].
  split; [exact Honly |]. apply Hreturned. vm_compute. reflexivity.
Defined.

(** ** The order of the install workflow *)







(** ** The device cannot reach the server *)

Lemma elem_of_app_skip {A} (P : A → Prop) (x : A) (l l' : list A) :
  Forall P l → ¬ P x → x ∈ l ++ l' → x ∈ l'.
Proof.
  intros Hall Hx [Hin | Hin]%elem_of_app; [| exact Hin].
  rewrite Forall_forall in Hall. exfalso. exact (Hx (Hall _ Hin)).
Qed.

Lemma install_update_unreachable env server_host remote w ip host :
  ExecRemote ip (NcProbe host) ∈ events_of (install_update env server_host remote w) →
  exit_status (exec_remote env ip (NcProbe host)) ≠ 0 →
  install_update env server_host remote w
  = (Raise (SystemExit unreachable_msg), w,
     [Print "Checking if device can reach server"; ExecRemote ip (NcProbe host)]).
Proof.
  intros Hin Hne. destruct remote as [remarkable_remote |].
  - rewrite install_update_remote in Hin |- *. cbn zeta in *.
    assert (Hprobe : ip = remote_ip remarkable_remote ∧ host = server_host).
    { destruct (negb (exit_status (exec_remote env _ (NcProbe server_host)) =? 0));
        [| destruct (negb (exit_status (exec_remote env _ UpdateEngineClientUpdate) =? 0))];
        unfold events_of in Hin; cbn [snd] in Hin;
        repeat (apply elem_of_cons in Hin as [Hin | Hin]; [try discriminate |]);
        try (apply elem_of_nil in Hin; contradiction);
        injection Hin as -> ->; split; reflexivity. }
    destruct Hprobe as [-> ->]. apply Z.eqb_neq in Hne. rewrite Hne. reflexivity.
  - exfalso. pose proof (install_update_events env server_host None w) as Hall.
    rewrite Forall_forall in Hall. exact (Hall _ Hin).
Qed.

(** X18. When the probe of the server that the install workflow runs
    through the session exits with a status other than 0, the workflow
    ends there with the message that the device cannot reach the server:
    the probe is its last action and the update client is never run. *)
Theorem do_install_unreachable env args device w ip host :
  ExecRemote ip (NcProbe host) ∈ events_of (do_install env args device w) →
  exit_status (exec_remote env ip (NcProbe host)) ≠ 0 →
  result_of (do_install env args device w) = Raise (SystemExit unreachable_msg)
  ∧ last (events_of (do_install env args device w)) = Some (ExecRemote ip (NcProbe host))
  ∧ Forall (λ e, ¬ is_update_client e) (events_of (do_install env args device w)).
Proof.
  rewrite do_install_run. intros Hin Hne.
  pose proof (install_ensure_staged_events env args device w) as H1.
  destruct (install_ensure_staged env args device w) as [[[[av temp_path] | e] w1] evs1].
  2: { exfalso. unfold events_of in *. cbn [snd] in *. rewrite Forall_forall in H1.
       exact (H1 _ Hin). }
  pose proof (install_topology_events env args w1) as H2.
  destruct (install_topology env args w1) as [[[[server_host remote] | e] w2] evs2].
  2: { exfalso. unfold events_of in *. cbn [snd] in *.
       apply (elem_of_app_skip is_staging) in Hin; [| exact H1 | cbn; tauto].
       rewrite Forall_forall in H2. exact (H2 _ Hin). }
  destruct (edit_config_run server_host 8080 remote w2) as [out Hconf].
  rewrite Hconf in Hin |- *. clear Hconf. cbn zeta in *.
  pose proof (install_update_unreachable env server_host remote
                (world_of (thread_start av server_host
                   {| stdin := stdin w2; update_conf := out; staged := staged w2;
                      cwd := cwd w2; server_thread := server_thread w2 |})) ip host) as Hupd.
  assert (Hinner : ExecRemote ip (NcProbe host)
                   ∈ events_of (install_update env server_host remote
                       (world_of (thread_start av server_host
                          {| stdin := stdin w2; update_conf := out; staged := staged w2;
                             cwd := cwd w2; server_thread := server_thread w2 |})))).
  { destruct (install_update env server_host remote _) as [[[[] | e] w4] evs4];
      unfold events_of in *; cbn [fst snd] in *;
      apply (elem_of_app_skip is_staging) in Hin; try exact H1; try (cbn; tauto);
      apply (elem_of_app_skip is_dialogue) in Hin; try exact H2; try (cbn; tauto);
      repeat (apply elem_of_cons in Hin as [Hin | Hin]; [discriminate |]);
      try exact Hin.
    apply elem_of_app in Hin as [Hin | Hin]; [exact Hin |].
    destruct temp_path;
      repeat (apply elem_of_cons in Hin as [Hin | Hin]; [discriminate |]);
      apply elem_of_nil in Hin; contradiction. }
  rewrite (Hupd Hinner Hne). unfold result_of, events_of. cbn [fst snd].
  split; [reflexivity |]. split.
  - rewrite !app_assoc, last_app. reflexivity.
  - repeat (apply Forall_app; split);
      try exact (Forall_impl _ _ _ H1 staging_not_update_client);
      try exact (Forall_impl _ _ _ H2 dialogue_not_update_client);
      repeat constructor; cbn; tauto.
Qed.

Lemma do_install_unreachable_witness :
  result_of (do_install Cases.picky (Scenario.args "latest") 2
               (Scenario.fresh [] Scenario.conf))
  = Raise (SystemExit unreachable_msg)
  ∧ last (events_of (do_install Cases.picky (Scenario.args "latest") 2
                       (Scenario.fresh [] Scenario.conf)))
    = Some (ExecRemote "10.11.99.1" (NcProbe "10.11.99.2"))
  ∧ Forall (λ e, ¬ is_update_client e)
      (events_of (do_install Cases.picky (Scenario.args "latest") 2
                    (Scenario.fresh [] Scenario.conf))).
Proof.
  apply (do_install_unreachable Cases.picky (Scenario.args "latest") 2
           (Scenario.fresh [] Scenario.conf) "10.11.99.1" "10.11.99.2").
  - vm_compute. do 10 apply list_elem_of_further. apply list_elem_of_here.
  - vm_compute. discriminate.
Defined.

(** ** The install workflow returns *)

(** X19. When the install workflow returns, the update client of the
    device has been run and has exited with status 0, the server thread
    that was started is left running, and the working directory is the one
    from which the workflow was started. *)
Theorem do_install_returns env args device w :
  result_of (do_install env args device w) = Return tt →
  (∃ client, client_ran env (events_of (do_install env args device w)) client
             ∧ exit_status client = 0)
  ∧ (∃ available_versions server_host,
       ThreadStart available_versions server_host ∈ events_of (do_install env args device w)
       ∧ server_thread (world_of (do_install env args device w))
         = Some (available_versions.1, available_versions.2, server_host))
  ∧ cwd (world_of (do_install env args device w)) = cwd w.
Proof.
  rewrite do_install_run.
  destruct (install_ensure_staged env args device w) as [[[[av temp_path] | e] w1] evs1];
    [| discriminate].
  destruct (install_topology env args w1) as [[[[server_host remote] | e] w2] evs2];
    [| discriminate].
  destruct (edit_config_run server_host 8080 remote w2) as [out ->]. cbn zeta.
  pose proof (install_update_returns env server_host remote
                (world_of (thread_start av server_host
                   {| stdin := stdin w2; update_conf := out; staged := staged w2;
                      cwd := cwd w2; server_thread := server_thread w2 |}))) as Hupd.
  pose proof (install_update_keeps env server_host remote
                (world_of (thread_start av server_host
                   {| stdin := stdin w2; update_conf := out; staged := staged w2;
                      cwd := cwd w2; server_thread := server_thread w2 |}))) as Hkeeps.
  destruct (install_update env server_host remote _) as [[[[] | e] w4] evs4];
    [| discriminate].
  unfold result_of, events_of, world_of, device_state, chdir, thread_start in *.
  cbn [fst snd server_thread cwd update_conf] in *.
  intros _. destruct (Hupd eq_refl) as (client & Hran & Hstatus). split; [| split].
  - exists client. split; [| exact Hstatus].
    destruct Hran as [[Hin ->] | (ip & Hin & ->)]; [left | right; exists ip];
      (split; [| reflexivity]);
      do 2 (apply elem_of_app; right); do 3 apply list_elem_of_further;
      apply elem_of_app; left; exact Hin.
  - exists av, server_host. split.
    + do 2 (apply elem_of_app; right). do 2 apply list_elem_of_further.
      apply list_elem_of_here.
    + injection Hkeeps as _ Hthread. exact Hthread.
  - reflexivity.
Qed.

Lemma do_install_returns_witness :
  (∃ client,
     client_ran Scenario.on_usb
       (events_of (do_install Scenario.on_usb (Scenario.args "latest") 2
                     (Scenario.fresh [] Scenario.conf))) client
     ∧ exit_status client = 0)
  ∧ (∃ available_versions server_host,
       ThreadStart available_versions server_host
       ∈ events_of (do_install Scenario.on_usb (Scenario.args "latest") 2
                      (Scenario.fresh [] Scenario.conf))
       ∧ server_thread (world_of (do_install Scenario.on_usb (Scenario.args "latest") 2
                                    (Scenario.fresh [] Scenario.conf)))
         = Some (available_versions.1, available_versions.2, server_host))
  ∧ cwd (world_of (do_install Scenario.on_usb (Scenario.args "latest") 2
                     (Scenario.fresh [] Scenario.conf)))
    = cwd (Scenario.fresh [] Scenario.conf).
Proof.
  apply (do_install_returns Scenario.on_usb (Scenario.args "latest") 2
           (Scenario.fresh [] Scenario.conf)).
  vm_compute. reflexivity.
Defined.

(** ** The install workflow fails *)

Lemma connect_to_rm_keeps_cwd env args ip : keeps cwd (connect_to_rm env args ip).
Proof. unfold connect_to_rm. keeps_all. Qed.

Lemma install_topology_keeps_cwd env args : keeps cwd (install_topology env args).
Proof.
  unfold install_topology, topology_usb, topology_wifi. keeps_all;
    apply connect_to_rm_keeps_cwd.
Qed.

Lemma install_update_keeps_cwd env server_host remote :
  keeps cwd (install_update env server_host remote).
Proof. unfold install_update. keeps_all. Qed.

Lemma bind_sets {A B X} (f : World → X) (v : X) (m : M A) (k : A → M B) :
  (∀ w, f (world_of (m w)) = v) → (∀ a, keeps f (k a)) →
  ∀ w, f (world_of (bind m k w)) = v.
Proof.
  intros Hm Hk w. unfold bind, world_of. specialize (Hm w). unfold world_of in Hm.
  destruct (m w) as [[[a | e] w1] evs1]; cbn [fst snd] in *; [| exact Hm].
  specialize (Hk a w1). unfold world_of in Hk.
  destruct (k a w1) as [[r w2] evs2]. cbn [fst snd] in *. congruence.
Qed.

(** Whether it returns or raises, the first part of the install workflow
    ends in the folder it serves from. *)
Lemma install_ensure_staged_cwd env args device w :
  cwd (world_of (install_ensure_staged env args device w)) = serve_path env args.
Proof.
  revert w. unfold install_ensure_staged, serve_path. apply bind_sets.
  - intros w. destruct (serve_folder args) as [[| c s] |]; reflexivity.
  - intros temp_path. keeps_all.
Qed.

Lemma install_ensure_staged_no_rmtree env args device :
  emits_only (λ ev, ∀ path, ev ≠ Rmtree path) (install_ensure_staged env args device).
Proof.
  eapply emits_only_impl; [| apply install_ensure_staged_events].
  intros ev Hev path ->. exact Hev.
Qed.

Lemma install_topology_no_rmtree env args :
  emits_only (λ ev, ∀ path, ev ≠ Rmtree path) (install_topology env args).
Proof.
  eapply emits_only_impl; [| apply install_topology_events].
  intros ev Hev path ->. exact Hev.
Qed.

Lemma install_update_no_rmtree env server_host remote :
  emits_only (λ ev, ∀ path, ev ≠ Rmtree path) (install_update env server_host remote).
Proof.
  unfold install_update.
  destruct remote; emits; try apply emits_only_ret; try apply emits_only_raise;
    intros; discriminate.
Qed.

(** X20. When the install workflow ends with an exception that one of
    its own statements raises ([SystemExit], [SystemError],
    [CalledProcessError] or [EOFError]), it has not gone back to the folder
    it was started from and has not removed the temporary folder: it ends
    in the folder it serves from, and no tree was removed. *)
Theorem do_install_failure_no_cleanup env args device w e :
  result_of (do_install env args device w) = Raise e →
  raised_by_workflow e →
  cwd (world_of (do_install env args device w)) = serve_path env args
  ∧ Forall (λ ev, ∀ path, ev ≠ Rmtree path) (events_of (do_install env args device w)).
Proof.
  rewrite do_install_run. intros Hraise _. revert Hraise.
  pose proof (install_ensure_staged_cwd env args device w) as Hcwd1.
  pose proof (install_ensure_staged_no_rmtree env args device w) as H1.
  destruct (install_ensure_staged env args device w) as [[[[av temp_path] | e1] w1] evs1];
    [| intros _; split; [exact Hcwd1 | exact H1]].
  pose proof (install_topology_keeps_cwd env args w1) as Hcwd2.
  pose proof (install_topology_no_rmtree env args w1) as H2.
  destruct (install_topology env args w1) as [[[[server_host remote] | e2] w2] evs2].
  2: { intros _. unfold world_of, events_of in *. cbn [fst snd] in *.
       split; [congruence | apply Forall_app; split; assumption]. }
  destruct (edit_config_run server_host 8080 remote w2) as [out ->]. cbn zeta.
  pose proof (install_update_keeps_cwd env server_host remote
                (world_of (thread_start av server_host
                   {| stdin := stdin w2; update_conf := out; staged := staged w2;
                      cwd := cwd w2; server_thread := server_thread w2 |}))) as Hcwd4.
  pose proof (install_update_no_rmtree env server_host remote
                (world_of (thread_start av server_host
                   {| stdin := stdin w2; update_conf := out; staged := staged w2;
                      cwd := cwd w2; server_thread := server_thread w2 |}))) as H4.
  destruct (install_update env server_host remote _) as [[[[] | e4] w4] evs4];
    [discriminate |].
  intros _. unfold world_of, events_of, thread_start in *. cbn [fst snd cwd] in *.
  split; [congruence |].
  repeat (apply Forall_app; split); try assumption; repeat constructor; discriminate.
Qed.

Lemma do_install_failure_no_cleanup_witness :
  cwd (world_of (do_install Scenario.hash_mismatch (Scenario.args "latest") 2
                   (Scenario.fresh [] Scenario.conf)))
  = serve_path Scenario.hash_mismatch (Scenario.args "latest")
  ∧ Forall (λ ev, ∀ path, ev ≠ Rmtree path)
      (events_of (do_install Scenario.hash_mismatch (Scenario.args "latest") 2
                    (Scenario.fresh [] Scenario.conf))).
Proof.
  apply (do_install_failure_no_cleanup Scenario.hash_mismatch (Scenario.args "latest") 2
           (Scenario.fresh [] Scenario.conf) (SystemExit update_error_msg)).
  - vm_compute. reflexivity.
  - exact I.
Defined.

(** ** The restore workflow *)

Lemma get_remarkable_ip_events :
  emits_only is_dialogue get_remarkable_ip.
Proof. apply emits_only_interact. apply get_remarkable_ip_loop_events. Qed.

Lemma do_restore_events env args :
  emits_only (is_restoring env) (do_restore env args).
Proof.
  unfold do_restore.
  apply emits_only_bind; [apply emits_only_input; intros ?; exact I | intros answer].
  apply emits_only_bind;
    [destruct (negb _); [apply emits_only_raise | apply emits_only_ret] | intros _].
  destruct (update_conf_isfile env) eqn:Hfile.
  - unfold subprocess_run_check.
    emits; try apply emits_only_ret; try apply emits_only_raise; cbn; auto.
  - destruct (negb (REMOTE_DEPS_MET env)); [apply emits_only_raise |].
    apply emits_only_bind.
    { destruct (get_host_ip (net_if_addrs env)) as [| only [| ? ?]];
        (apply emits_only_bind; [apply emits_only_emit; exact I | intros _]);
        try apply emits_only_ret;
        (eapply emits_only_impl; [| apply get_remarkable_ip_events]);
        intros e; destruct e; cbn; tauto. }
    intros remote_ip. apply emits_only_bind.
    { eapply emits_only_impl; [| apply (connect_to_rm_events env args remote_ip)].
      intros e; destruct e; cbn; tauto. }
    intros remarkable_remote. unfold exec_command.
    emits; try apply emits_only_ret; cbn; auto.
Qed.

Lemma bind_run {A B} (m : M A) (k : A → M B) (w : World) :
  bind m k w
  = match m w with
    | (Return a, w1, evs1) =>
        (result_of (k a w1), world_of (k a w1), evs1 ++ events_of (k a w1))
    | (Raise e, w1, evs1) => (Raise e, w1, evs1)
    end.
Proof.
  unfold bind. destruct (m w) as [[[a | e] w1] evs1]; [| reflexivity].
  destruct (k a w1) as [[r w2] evs2]. reflexivity.
Qed.

Lemma bind_ret_l {A B} (a : A) (k : A → M B) (w : World) : bind (ret a) k w = k a w.
Proof. unfold bind, ret. destruct (k a w) as [[r w2] evs2]. reflexivity. Qed.

Lemma events_of_bind {A B} (m : M A) (k : A → M B) (w : World) :
  events_of (bind m k w)
  = events_of (m w) ++ match result_of (m w) with
                       | Return a => events_of (k a (world_of (m w)))
                       | Raise _ => []
                       end.
Proof.
  rewrite bind_run. destruct (m w) as [[[a | e] w1] evs1]; [reflexivity |].
  unfold events_of, result_of. cbn [fst snd]. rewrite app_nil_r. reflexivity.
Qed.

Lemma connect_to_rm_returned env args ip w client w' evs :
  connect_to_rm env args ip w = (Return client, w', evs) →
  ∃ evs0 cred,
    evs = evs0 ++ [SshConnect ip cred; Print "Connected to device"]
    ∧ ssh_connect env ip cred = Connected
    ∧ client = {| remote_ip := ip |}.
Proof.
  intros Hrun.
  assert (Hclient : client = {| remote_ip := ip |}).
  { apply (connect_to_rm_session env args ip w). rewrite Hrun. reflexivity. }
  revert Hrun. rewrite connect_to_rm_run.
  pose proof (connect_prompts_connected env ip w client) as Hprompts.
  destruct (auth args) as [[| c s] |].
  - intros Hrun. destruct (Hprompts _ _ Hrun) as (evs0 & cred & -> & Hc).
    exists evs0, cred. repeat split; assumption.
  - cbn zeta. destruct (ssh_connect env ip _) eqn:Hconnect.
    + intros [= _ _ <-]. eexists [], _. repeat split; [exact Hconnect | exact Hclient].
    + destruct (connect_prompts env ip w) as [[r w''] evs'].
      intros [= -> -> <-]. destruct (Hprompts _ _ eq_refl) as (evs0 & cred & -> & Hc).
      eexists (_ :: _ :: evs0), cred. repeat split; [exact Hc | exact Hclient].
    + discriminate.
  - intros Hrun. destruct (Hprompts _ _ Hrun) as (evs0 & cred & -> & Hc).
    exists evs0, cred. repeat split; assumption.
Qed.

(** X21. Once the operator has confirmed, the restore workflow runs the
    script on the machine, as the next thing, when [update.conf] of the
    device is a file of the machine; otherwise, when it returns, it has
    connected and has then run the script through the session, and said
    that it is done. It runs commands on the machine only in the first
    case and uses a session only in the second, runs no other command
    than the script and the shutdown, never writes the configuration and
    never starts a server. *)
Theorem do_restore_where env args w :
  Forall (is_restoring env) (events_of (do_restore env args w))
  ∧ ∀ answer rest,
      stdin w = answer :: rest →
      Py.contains (Py.lower answer) "y" = true →
      if update_conf_isfile env
      then ∃ evs, events_of (do_restore env args w)
                  = Input restore_prompt (Some answer) :: RunLocal RunRestoreCode :: evs
      else result_of (do_restore env args w) = Return tt →
           ∃ evs ip cred,
             events_of (do_restore env args w)
             = Input restore_prompt (Some answer)
                 :: evs ++ [SshConnect ip cred; Print "Connected to device";
                            ExecRemote ip RunRestoreCode;
                            Print "Done, Please reboot the device!"]
             ∧ ssh_connect env ip cred = Connected.
Proof.
  split; [apply do_restore_events |].
  intros answer rest Hstdin Hyes.
  unfold do_restore. rewrite bind_input_run, Hstdin, Hyes. cbn [negb].
  unfold result_of at 1, events_of at 1. cbn [fst snd].
  rewrite bind_ret_l.
  destruct (update_conf_isfile env).
  - unfold subprocess_run_check. rewrite !events_of_bind.
    unfold emit at 1, events_of at 1. cbn [snd app]. eexists. reflexivity.
  - destruct (negb (REMOTE_DEPS_MET env)).
    { unfold raise, result_of. cbn [fst]. discriminate. }
    set (stage := match get_host_ip (net_if_addrs env) with
                  | [_] => print "Detected as USB connection" ;; ret default_ip
                  | _ => print "Detected as WiFi connection" ;; get_remarkable_ip
                  end).
    rewrite bind_run.
    destruct (stage (set_stdin rest w)) as [[[ip | e] w1] evs1];
      [| unfold result_of; cbn [fst]; discriminate].
    rewrite bind_run.
    destruct (connect_to_rm env args ip w1) as [[[client | e] w2] evs2] eqn:Hconnect;
      [| unfold result_of; cbn [fst]; discriminate].
    destruct (connect_to_rm_returned _ _ _ _ _ _ _ Hconnect) as (evs0 & cred & -> & Hc & ->).
    intros _. exists (evs1 ++ evs0), ip, cred. split; [| exact Hc].
    unfold exec_command, bind, emit, print, ret, events_of. cbn [fst snd app remote_ip].
    rewrite <- !app_assoc. reflexivity.
Qed.

Lemma do_restore_where_witness :
  ∃ evs ip cred,
    events_of (do_restore (Scenario.restore_remote 0) (Scenario.args "")
                 (Scenario.fresh ["Yes"] Scenario.conf))
    = Input restore_prompt (Some "Yes")
        :: evs ++ [SshConnect ip cred; Print "Connected to device";
                   ExecRemote ip RunRestoreCode;
                   Print "Done, Please reboot the device!"]
    ∧ ssh_connect (Scenario.restore_remote 0) ip cred = Connected.
Proof.
  destruct (do_restore_where (Scenario.restore_remote 0) (Scenario.args "")
              (Scenario.fresh ["Yes"] Scenario.conf)) as [_ Hruns].
  apply (Hruns "Yes" [] eq_refl eq_refl). vm_compute. reflexivity.
Defined.

(** X22. The restore workflow connects to the device or runs a command
    only after the operator has answered its first question with a line
    that contains [y] or [Y]. *)
Theorem do_restore_confirmed env args w e :
  e ∈ events_of (do_restore env args w) →
  touches_device e →
  ∃ answer rest evs,
    stdin w = answer :: rest
    ∧ Py.contains (Py.lower answer) "y" = true
    ∧ events_of (do_restore env args w) = Input restore_prompt (Some answer) :: evs.
Proof.
  unfold do_restore. rewrite bind_input_run.
  destruct (stdin w) as [| answer rest].
  { unfold events_of. cbn [snd]. intros Hin Htouch.
    apply list_elem_of_singleton in Hin as ->. destruct Htouch. }
  destruct (Py.contains (Py.lower answer) "y") eqn:Hyes; cbn [negb].
  - intros _ _. exists answer, rest. eexists.
    split; [reflexivity |]. split; [exact Hyes |]. reflexivity.
  - unfold bind at 1, raise at 1, events_of. cbn [snd app]. intros Hin Htouch.
    apply list_elem_of_singleton in Hin as ->. destruct Htouch.
Qed.

Lemma do_restore_confirmed_witness :
  ∃ answer rest evs,
    stdin (Scenario.fresh ["Yes"] Scenario.conf) = answer :: rest
    ∧ Py.contains (Py.lower answer) "y" = true
    ∧ events_of (do_restore (Scenario.restore_remote 0) (Scenario.args "")
                   (Scenario.fresh ["Yes"] Scenario.conf))
      = Input restore_prompt (Some answer) :: evs.
Proof.
  apply (do_restore_confirmed (Scenario.restore_remote 0) (Scenario.args "")
           (Scenario.fresh ["Yes"] Scenario.conf)
           (ExecRemote "10.11.99.1" RunRestoreCode)).
  - vm_compute. do 4 apply list_elem_of_further. apply list_elem_of_here.
  - exact I.
Defined.

(** ** The download and the status commands *)

(** X23. With the device type that [main] passes, the download command
    fails only with [SystemExit], and without a line [Done!]; it returns
    only when the version was resolved and the fetch gave a file name that
    is neither [None] nor one of the two sentences that stand for a
    failure, and that name is in the last line it prints. *)
Theorem do_download_outcome (um : UpdateManager) (get_version : fetcher)
    (version_arg : string) (out : option string) (rm1 : bool) (w : World) :
  match result_of (do_download um get_version version_arg out (device_type rm1) w) with
  | Return _ =>
      ∃ version filename,
        version_lookup um version_arg (device_type rm1) = Return version
        ∧ get_version version (device_type rm1) out = Some filename
        ∧ (filename ∉ ["Download folder does not exist"; "Not in version list"])
        ∧ last (events_of (do_download um get_version version_arg out (device_type rm1) w))
          = Some (Print ("Done! (" +:+ filename +:+ ")"))
  | Raise e =>
      (∃ msg, e = SystemExit msg)
      ∧ Forall (λ ev, ∀ filename, ev ≠ Print ("Done! (" +:+ filename +:+ ")"))
          (events_of (do_download um get_version version_arg out (device_type rm1) w))
  end.
Proof.
  unfold do_download, bind, of_result, print, emit, raise, result_of, events_of.
  assert (Hlookup : ∀ e, version_lookup um version_arg (device_type rm1) = Raise e →
                         ∃ msg, e = SystemExit msg).
  { unfold version_lookup. destruct rm1; cbn [device_type Z.eqb Pos.eqb];
      destruct (String.eqb version_arg "latest"); try discriminate;
      destruct (String.eqb version_arg "toltec"); try discriminate;
      case_bool_decide; try discriminate; intros e [= <-]; eexists; reflexivity. }
  destruct (version_lookup um version_arg (device_type rm1)) as [version | e].
  2: { cbn [fst snd]. split; [apply Hlookup; reflexivity | constructor]. }
  assert (Hnot_done : ∀ filename,
            Print ("Downloading " +:+ version +:+ " to "
                   +:+ match out with
                       | Some (String c s) => String c s
                       | _ => "downloads folder"
                       end)
            ≠ Print ("Done! (" +:+ filename +:+ ")"))
    by (intros filename; cbn; discriminate).
  destruct (get_version version (device_type rm1) out) as [filename |] eqn:Hfetch;
    cbn [fst snd app].
  2: { split; [eexists; reflexivity |]. repeat constructor. exact Hnot_done. }
  destruct (String.eqb filename "Download folder does not exist") eqn:Hfolder;
    cbn [fst snd app].
  { split; [eexists; reflexivity |]. repeat constructor. exact Hnot_done. }
  destruct (String.eqb filename "Not in version list") eqn:Hlist; cbn [fst snd app].
  { split; [eexists; reflexivity |]. repeat constructor. exact Hnot_done. }
  exists version, filename. split; [reflexivity |]. split; [exact Hfetch |].
  split; [| reflexivity].
  apply String.eqb_neq in Hfolder, Hlist.
  intros Hin. apply elem_of_cons in Hin as [-> | Hin]; [congruence |].
  apply list_elem_of_singleton in Hin as ->. congruence.
Qed.

(** X24. Run on the device where [update.conf] is not there, the status
    command takes the empty text for it, finds no release version in it and
    ends with [AttributeError] before it has printed anything. *)
Theorem do_status_without_update_conf env files args w :
  is_rm env = true →
  update_conf_exists files = false →
  do_status env files args w = (Raise (ForeignError "AttributeError"), w, []).
Proof.
  intros Hrm Hmissing. unfold do_status. rewrite Hrm, Hmissing.
  unfold bind, ret, of_result, status_message. cbn. reflexivity.
Qed.

Lemma do_status_without_update_conf_witness :
  do_status (Scenario.tablet 0 0 "") Cases.files (Scenario.args "")
    (Scenario.fresh [] Scenario.conf)
  = (Raise (ForeignError "AttributeError"), Scenario.fresh [] Scenario.conf, []).
Proof.
  apply (do_status_without_update_conf (Scenario.tablet 0 0 "") Cases.files);
    reflexivity.
Defined.

Lemma sftp_read_keeps files file : keeps device_state (sftp_read files file).
Proof. destruct file; intros w; reflexivity. Qed.

Lemma do_status_keeps env files args : keeps device_state (do_status env files args).
Proof.
  unfold do_status.
  apply keeps_bind.
  - destruct (is_rm env); [keeps_all |].
    destruct (negb (REMOTE_DEPS_MET env)); [apply keeps_raise |].
    apply keeps_bind; [keeps_all | intros ip].
    apply keeps_bind; [apply connect_to_rm_keeps | intros remote].
    do 2 (apply keeps_bind; [apply sftp_read_keeps | intros ?]).
    keeps_all.
  - intros [[config_contents version_id] version_contents]. keeps_all.
Qed.

Lemma do_status_events env files args :
  emits_only is_dialogue (do_status env files args).
Proof.
  unfold do_status.
  apply emits_only_bind.
  - destruct (is_rm env).
    { emits; try apply emits_only_ret; try exact I. }
    destruct (negb (REMOTE_DEPS_MET env)); [apply emits_only_raise |].
    apply emits_only_bind.
    { destruct (get_host_ip (net_if_addrs env)) as [| only [| ? ?]];
        try apply emits_only_ret; apply get_remarkable_ip_events. }
    intros ip. apply emits_only_bind.
    { eapply emits_only_impl; [| apply (connect_to_rm_events env args ip)].
      apply connecting_dialogue. }
    intros remote. unfold sftp_read.
    emits; try apply emits_only_ret; try apply emits_only_raise; try exact I.
  - intros [[config_contents version_id] version_contents].
    emits; try apply emits_only_of_result; exact I.
Qed.

(** X25. The status command only reads: whatever it is given, it prints,
    asks and connects, runs no command, writes no configuration and starts
    no server, and it leaves the configuration of the device and the
    server thread as they were. *)
Theorem do_status_read_only env files args w :
  Forall is_dialogue (events_of (do_status env files args w))
  ∧ device_state (world_of (do_status env files args w)) = device_state w.
Proof. split; [apply do_status_events | apply do_status_keeps]. Qed.

(** ** The searches of the status command *)

Lemma after_prefix_spec (key s rest : string) :
  Re.after_prefix key s = Some rest ↔ s = key +:+ rest.
Proof.
  revert s. induction key as [| a key IH]; intros s.
  - cbn. split; [intros [= ->] | intros ->]; reflexivity.
  - destruct s as [| b s]; cbn [Re.after_prefix]; [split; discriminate |].
    rewrite append_cons. destruct (Ascii.eqb a b) eqn:Hab.
    + apply Ascii.eqb_eq in Hab as ->. rewrite IH.
      split; [intros -> | intros [= ->]]; reflexivity.
    + apply Ascii.eqb_neq in Hab. split; [discriminate | intros [= <- _]; congruence].
Qed.

Lemma dot_star_spec (s : string) :
  single_line (Re.dot_star s)
  ∧ ∃ post, s = Re.dot_star s +:+ post ∧ (post = "" ∨ ∃ post', post = NL +:+ post').
Proof.
  unfold single_line. induction s as [| c s [IH1 (post & IH2 & IH3)]].
  - split; [reflexivity |]. exists "". split; [reflexivity | left; reflexivity].
  - cbn [Re.dot_star]. destruct (Ascii.eqb c LF) eqn:Hc.
    + apply Ascii.eqb_eq in Hc as ->. split; [reflexivity |].
      exists (String LF s). split; [reflexivity |]. right. exists s. reflexivity.
    + split; [cbn [Py.contains]; rewrite Hc, IH1; reflexivity |].
      exists post. split; [| exact IH3]. rewrite append_cons, <- IH2. reflexivity.
Qed.

(** The search for one key: the leftmost occurrence of the key, and after
    it the text up to the end of the line. *)
Lemma search_after_spec (key s : string) :
  match Re.search_after [key] s with
  | Some group =>
      ∃ pre post,
        s = pre +:+ key +:+ group +:+ post
        ∧ (∀ p q, s = p +:+ key +:+ q → (String.length pre ≤ String.length p)%nat)
        ∧ single_line group
        ∧ (post = "" ∨ ∃ post', post = NL +:+ post')
  | None => ∀ p q, s ≠ p +:+ key +:+ q
  end.
Proof.
  induction s as [| c s IH]; cbn [Re.search_after Re.first_after].
  - destruct (Re.after_prefix key "") as [rest |] eqn:Hkey.
    + apply after_prefix_spec in Hkey.
      destruct (dot_star_spec rest) as [Hline (post & Hrest & Hpost)].
      exists "", post. rewrite append_empty_l, <- Hrest.
      split; [exact Hkey |]. split; [intros p q _; cbn; lia |]. split; assumption.
    + intros p q Heq. destruct p as [| a p]; [| discriminate].
      rewrite append_empty_l in Heq. apply after_prefix_spec in Heq. congruence.
  - destruct (Re.after_prefix key (String c s)) as [rest |] eqn:Hkey.
    + apply after_prefix_spec in Hkey.
      destruct (dot_star_spec rest) as [Hline (post & Hrest & Hpost)].
      exists "", post. rewrite append_empty_l, <- Hrest.
      split; [exact Hkey |]. split; [intros p q _; cbn; lia |]. split; assumption.
    + destruct (Re.search_after [key] s) as [group |].
      * destruct IH as (pre & post & Hs & Hfirst & Hline & Hpost).
        exists (String c pre), post. rewrite append_cons, <- Hs.
        split; [reflexivity |]. split; [| split; assumption].
        intros p q Heq. destruct p as [| a p].
        { rewrite append_empty_l in Heq. apply after_prefix_spec in Heq. congruence. }
        rewrite append_cons in Heq. injection Heq as _ Heq.
        specialize (Hfirst p q Heq). cbn. lia.
      * intros p q Heq. destruct p as [| a p].
        { rewrite append_empty_l in Heq. apply after_prefix_spec in Heq. congruence. }
        rewrite append_cons in Heq. injection Heq as _ Heq. exact (IH p q Heq).
Qed.

Lemma status_session_keeps env files args :
  keeps device_state (status_session env files args).
Proof.
  unfold status_session.
  apply keeps_bind; [keeps_all | intros ip].
  apply keeps_bind; [apply connect_to_rm_keeps | intros remote].
  do 2 (apply keeps_bind; [apply sftp_read_keeps | intros ?]).
  apply keeps_ret.
Qed.

(** The status command run through the session. *)
Lemma do_status_session_run env files args w :
  is_rm env = false → REMOTE_DEPS_MET env = true →
  do_status env files args w
  = match status_session env files args w with
    | (Raise e, w1, evs) => (Raise e, w1, evs)
    | (Return (config_contents, version_id), w1, evs) =>
        match status_message config_contents (Str.strip_lf version_id) (update_conf w1) with
        | Return message => (Return tt, w1, evs ++ [Print message])
        | Raise e => (Raise e, w1, evs)
        end
    end.
Proof.
  intros Hrm Hdeps. unfold do_status, status_session. rewrite Hrm, Hdeps. cbn [negb].
  set (stage := match get_host_ip (net_if_addrs env) with
                | [_] => ret default_ip
                | _ => get_remarkable_ip
                end).
  unfold bind. destruct (stage w) as [[[ip | e] w1] evs1]; [| reflexivity].
  destruct (connect_to_rm env args ip w1) as [[[remote | e] w2] evs2]; [| reflexivity].
  unfold sftp_read, read_update_conf, of_result, print, emit, ret, raise.
  destruct (etc_remarkable_conf files) as [config_contents |]; [| reflexivity].
  destruct (etc_version files) as [version_id |]; [| reflexivity].
  cbn [fst snd app]. rewrite !app_nil_r.
  destruct (status_message _ _ _); cbn [app]; rewrite ?app_nil_r, <- ?app_assoc;
    reflexivity.
Qed.

(** X26. When the status command, run through the session, returns, the
    version it reports is the text that follows the first occurrence of
    [REMARKABLE_RELEASE_VERSION=] in [update.conf], up to the end of that
    line: the line it prints last begins with that version, followed by
    the bracket of the version identifier. *)
Theorem do_status_reports_release env files args w :
  is_rm env = false →
  result_of (do_status env files args w) = Return tt →
  ∃ pre current post tail,
    update_conf w = pre +:+ release_key +:+ current +:+ post
    ∧ (∀ p q, update_conf w = p +:+ release_key +:+ q →
              (String.length pre ≤ String.length p)%nat)
    ∧ single_line current
    ∧ (post = "" ∨ ∃ post', post = NL +:+ post')
    ∧ last (events_of (do_status env files args w))
      = Some (Print ("You are running " +:+ current +:+ " [" +:+ tail)).
Proof.
  intros Hrm.
  destruct (REMOTE_DEPS_MET env) eqn:Hdeps.
  2: { unfold do_status. rewrite Hrm, Hdeps. cbn. discriminate. }
  rewrite (do_status_session_run env files args w Hrm Hdeps).
  pose proof (status_session_keeps env files args w) as Hkeeps.
  destruct (status_session env files args w) as [[[[config_contents version_id] | e] w1] evs];
    [| discriminate].
  unfold world_of, device_state in Hkeeps. cbn [fst snd] in Hkeeps.
  injection Hkeeps as Hconf _. rewrite Hconf.
  unfold status_message.
  pose proof (search_after_spec release_key (update_conf w)) as Hsearch.
  destruct (Re.search_after [release_key] (update_conf w)) as [current |]; [| discriminate].
  intros _. destruct Hsearch as (pre & post & Hs & Hfirst & Hline & Hpost).
  exists pre, current, post. eexists.
  split; [exact Hs |]. split; [exact Hfirst |]. split; [exact Hline |].
  split; [exact Hpost |].
  unfold events_of. cbn [snd]. rewrite last_app. reflexivity.
Qed.

Lemma do_status_reports_release_witness :
  ∃ pre current post tail,
    update_conf (Scenario.fresh [] ("[General]" +:+ NL
                                    +:+ "REMARKABLE_RELEASE_VERSION=3.3.2.1666"
                                    +:+ NL +:+ "SERVER=old"))
    = pre +:+ release_key +:+ current +:+ post
    ∧ (∀ p q,
         update_conf (Scenario.fresh [] ("[General]" +:+ NL
                                         +:+ "REMARKABLE_RELEASE_VERSION=3.3.2.1666"
                                         +:+ NL +:+ "SERVER=old"))
         = p +:+ release_key +:+ q →
         (String.length pre ≤ String.length p)%nat)
    ∧ single_line current
    ∧ (post = "" ∨ ∃ post', post = NL +:+ post')
    ∧ last (events_of (do_status Scenario.on_usb Cases.files (Scenario.args "")
                         (Scenario.fresh [] ("[General]" +:+ NL
                                             +:+ "REMARKABLE_RELEASE_VERSION=3.3.2.1666"
                                             +:+ NL +:+ "SERVER=old"))))
      = Some (Print ("You are running " +:+ current +:+ " [" +:+ tail)).
Proof.
  apply (do_status_reports_release Scenario.on_usb Cases.files (Scenario.args "")).
  - reflexivity.
  - vm_compute. reflexivity.
Defined.

(** ** The patch and the status command *)

Lemma after_prefix_line (key l rest : string) :
  key ≠ "" → single_line key →
  Re.after_prefix key (l +:+ String LF rest)
  = (λ r, r +:+ String LF rest) <$> Re.after_prefix key l.
Proof.
  unfold single_line. revert l. induction key as [| a key IH]; intros l Hne Hkey.
  - contradiction.
  - cbn [Py.contains] in Hkey. apply orb_false_iff in Hkey as [Ha Hkey].
    destruct l as [| b l].
    + rewrite append_empty_l. cbn [Re.after_prefix]. rewrite Ha. reflexivity.
    + rewrite append_cons. cbn [Re.after_prefix]. destruct (Ascii.eqb a b); [| reflexivity].
      destruct key as [| a' key]; [reflexivity |].
      apply IH; [discriminate | exact Hkey].
Qed.

Lemma dot_star_line (l rest : string) :
  Re.dot_star (l +:+ String LF rest) = Re.dot_star l.
Proof.
  induction l as [| c l IH].
  - rewrite append_empty_l. cbn. reflexivity.
  - rewrite append_cons. cbn [Re.dot_star]. rewrite IH. reflexivity.
Qed.

Lemma search_after_line (key l rest : string) :
  key ≠ "" → single_line key →
  Re.search_after [key] (l +:+ String LF rest)
  = match Re.search_after [key] l with
    | Some group => Some group
    | None => Re.search_after [key] rest
    end.
Proof.
  intros Hne Hkey. induction l as [| c l IH].
  - rewrite append_empty_l. cbn [Re.search_after Re.first_after].
    pose proof (after_prefix_line key "" rest Hne Hkey) as H.
    rewrite append_empty_l in H. rewrite H.
    destruct (Re.after_prefix key "") as [r |] eqn:Hempty; [| reflexivity].
    apply after_prefix_spec in Hempty. destruct key; [contradiction | discriminate].
  - rewrite append_cons. cbn [Re.search_after Re.first_after].
    rewrite <- append_cons, (after_prefix_line key (String c l) rest Hne Hkey).
    destruct (Re.after_prefix key (String c l)) as [r |]; cbn [fmap option_fmap option_map].
    + rewrite dot_star_line. reflexivity.
    + exact IH.
Qed.

(** The search in a document goes through its lines in their order. *)
Lemma search_after_join (key : string) (ls : list string) :
  key ≠ "" → single_line key →
  Re.search_after [key] (Py.join NL ls)
  = foldr (λ l found, match Re.search_after [key] l with
                      | Some group => Some group
                      | None => found
                      end) None ls.
Proof.
  intros Hne Hkey. induction ls as [| l ls IH].
  - cbn. destruct key; [contradiction | reflexivity].
  - destruct ls as [| l' ls].
    + cbn [foldr Py.join String.concat]. destruct (Re.search_after [key] l); reflexivity.
    + rewrite join_cons by discriminate. unfold NL at 1.
      rewrite append_cons, append_empty_l, search_after_line by assumption.
      rewrite IH. reflexivity.
Qed.

Lemma search_release_deactivate (l : string) :
  Re.search_after [release_key] (deactivate l) = Re.search_after [release_key] l.
Proof. unfold deactivate. destruct (Py.startswith l "SERVER="); reflexivity. Qed.

Lemma search_release_server_line (name : string) :
  Re.search_after [release_key] ("SERVER=" +:+ name) = Re.search_after [release_key] name.
Proof. reflexivity. Qed.

Lemma search_lines_insert (key line : string) (k : nat) (ls : list string) :
  Re.search_after [key] line = None →
  foldr (λ l found, match Re.search_after [key] l with
                    | Some group => Some group
                    | None => found
                    end) None (Py.list_insert k line ls)
  = foldr (λ l found, match Re.search_after [key] l with
                      | Some group => Some group
                      | None => found
                      end) None ls.
Proof.
  intros Hline. unfold Py.list_insert.
  rewrite <- (take_drop k ls) at 3. rewrite !foldr_app. cbn [foldr].
  rewrite Hline. reflexivity.
Qed.

Lemma search_lines_deactivate (ls : list string) :
  foldr (λ l found, match Re.search_after [release_key] l with
                    | Some group => Some group
                    | None => found
                    end) None (deactivate <$> ls)
  = foldr (λ l found, match Re.search_after [release_key] l with
                      | Some group => Some group
                      | None => found
                      end) None ls.
Proof.
  induction ls as [| l ls IH]; [reflexivity |].
  cbn [fmap list_fmap foldr]. fold (fmap deactivate ls).
  rewrite search_release_deactivate, IH. reflexivity.
Qed.

Lemma after_prefix_none (key s : string) :
  String.prefix key s = false → Re.after_prefix key s = None.
Proof.
  revert s. induction key as [| a key IH]; intros s; [destruct s; discriminate |].
  destruct s as [| b s]; [reflexivity |]. cbn [String.prefix Re.after_prefix].
  destruct (Ascii.ascii_dec a b) as [-> | Hab].
  - rewrite Ascii.eqb_refl. apply IH.
  - intros _. apply Ascii.eqb_neq in Hab. rewrite Hab. reflexivity.
Qed.

Lemma search_after_absent (key s : string) :
  Py.str_in key s = false → Re.search_after [key] s = None.
Proof.
  induction s as [| c s IH]; cbn [Py.str_in Re.search_after Re.first_after];
    intros Habsent; apply orb_false_iff in Habsent as [Hprefix Hrest];
    rewrite (after_prefix_none _ _ Hprefix); [reflexivity | exact (IH Hrest)].
Qed.

(** The message for a patched [update.conf] is the message for the
    original. *)
Lemma status_message_patch (contents server_host_name out : string)
    (config_contents version_id : string) :
  Py.str_in release_key server_host_name = false →
  set_server_config contents server_host_name = Return out →
  status_message config_contents version_id out
  = status_message config_contents version_id contents.
Proof.
  intros Hname Hout. rewrite set_server_config_eq in Hout. injection Hout as <-.
  assert (Hkey : release_key ≠ "" ∧ single_line release_key) by (split; [discriminate | reflexivity]).
  destruct Hkey as [Hne Hkey].
  assert (Hline : Re.search_after [release_key] ("SERVER=" +:+ server_host_name) = None).
  { rewrite search_release_server_line. apply search_after_absent. exact Hname. }
  unfold status_message.
  rewrite (search_after_join release_key _ Hne Hkey).
  rewrite (search_lines_insert release_key _ _ _ Hline), search_lines_deactivate.
  rewrite <- (search_after_join release_key _ Hne Hkey). unfold lines.
  rewrite join_split. reflexivity.
Qed.

Section Ignores.
Context {A B : Type}.

Lemma ignores_ret (a : A) : ignores_update_conf (ret a).
Proof. intros text w. reflexivity. Qed.

Lemma ignores_raise e : ignores_update_conf (raise (A := A) e).
Proof. intros text w. reflexivity. Qed.

Lemma ignores_bind (m : M A) (k : A → M B) :
  ignores_update_conf m → (∀ a, ignores_update_conf (k a)) → ignores_update_conf (bind m k).
Proof.
  intros Hm Hk text w. unfold bind. rewrite (Hm text w).
  unfold result_of, world_of, events_of.
  destruct (m w) as [[[a | e] w1] evs1]; cbn [fst snd]; [| reflexivity].
  rewrite (Hk a text w1). unfold result_of, world_of, events_of.
  destruct (k a w1) as [[r w2] evs2]. reflexivity.
Qed.

Lemma ignores_interact (loop : list string → result A * list string * list event) :
  ignores_update_conf (interact loop).
Proof.
  intros text w. unfold interact. cbn [stdin with_update_conf].
  destruct (loop (stdin w)) as [[r rest] evs]. reflexivity.
Qed.
End Ignores.

Lemma ignores_emit e : ignores_update_conf (emit e).
Proof. intros text w. reflexivity. Qed.

Lemma ignores_input prompt : ignores_update_conf (input prompt).
Proof.
  intros text w. unfold input. cbn [stdin with_update_conf].
  destruct (stdin w); reflexivity.
Qed.

Lemma connect_to_rm_ignores env args ip : ignores_update_conf (connect_to_rm env args ip).
Proof.
  unfold connect_to_rm.
  repeat lazymatch goal with
    | |- ignores_update_conf (bind _ _) => apply ignores_bind; [| intros ?]
    | |- ignores_update_conf (ret _) => apply ignores_ret
    | |- ignores_update_conf (raise _) => apply ignores_raise
    | |- ignores_update_conf (emit _) => apply ignores_emit
    | |- ignores_update_conf (print _) => apply ignores_emit
    | |- ignores_update_conf (input _) => apply ignores_input
    | |- ignores_update_conf (interact _) => apply ignores_interact
    | |- ignores_update_conf (match ?x with _ => _ end) => destruct x
    end.
Qed.

Lemma status_session_ignores env files args :
  ignores_update_conf (status_session env files args).
Proof.
  unfold status_session.
  apply ignores_bind.
  { destruct (get_host_ip (net_if_addrs env)) as [| only [| ? ?]];
      try apply ignores_ret; apply ignores_interact. }
  intros ip. apply ignores_bind; [apply connect_to_rm_ignores | intros remote].
  unfold sftp_read.
  do 2 (apply ignores_bind;
        [destruct (_ : option string); [apply ignores_ret | apply ignores_raise] | intros ?]).
  apply ignores_ret.
Qed.

(** X27. Patching the configuration through the session does not change
    what the status command reports through the session, as long as the
    name of the server does not contain [REMARKABLE_RELEASE_VERSION=]:
    run after [edit_config], the status command ends and prints as it
    does run before. *)
Theorem patch_keeps_status env files args (remote : Remote) (server_ip : string)
    (port : Z) (w : World) :
  is_rm env = false →
  Py.str_in release_key (server_host_name server_ip port) = false →
  result_of (do_status env files args
               (world_of (edit_config server_ip port (Some remote) w)))
  = result_of (do_status env files args w)
  ∧ events_of (do_status env files args
                 (world_of (edit_config server_ip port (Some remote) w)))
    = events_of (do_status env files args w).
Proof.
  intros Hrm Hname.
  destruct (set_server_config (update_conf w) (server_host_name server_ip port))
    as [out | e] eqn:Hout; [| rewrite set_server_config_eq in Hout; discriminate].
  assert (Hworld : world_of (edit_config server_ip port (Some remote) w)
                   = with_update_conf out w).
  { unfold edit_config, bind, read_update_conf, of_result, write_update_conf.
    rewrite Hout. reflexivity. }
  rewrite Hworld.
  destruct (REMOTE_DEPS_MET env) eqn:Hdeps.
  2: { unfold do_status. rewrite Hrm, Hdeps. split; reflexivity. }
  rewrite !(do_status_session_run env files args _ Hrm Hdeps).
  rewrite (status_session_ignores env files args out w).
  pose proof (status_session_keeps env files args w) as Hkeeps.
  unfold result_of, world_of, events_of, device_state in *.
  destruct (status_session env files args w) as [[[[config_contents version_id] | e] w1] evs];
    cbn [fst snd update_conf with_update_conf] in *; [| split; reflexivity].
  injection Hkeeps as Hconf _. rewrite Hconf.
  rewrite (status_message_patch _ _ _ config_contents (Str.strip_lf version_id) Hname Hout).
  destruct (status_message _ _ _); split; reflexivity.
Qed.

Lemma patch_keeps_status_witness :
  result_of (do_status Scenario.on_usb Cases.files (Scenario.args "")
               (world_of (edit_config "10.11.99.2" 8080 (Some {| remote_ip := default_ip |})
                            (Scenario.fresh [] ("[General]" +:+ NL
                                                +:+ "REMARKABLE_RELEASE_VERSION=3.3.2.1666"
                                                +:+ NL +:+ "SERVER=old")))))
  = result_of (do_status Scenario.on_usb Cases.files (Scenario.args "")
                 (Scenario.fresh [] ("[General]" +:+ NL
                                     +:+ "REMARKABLE_RELEASE_VERSION=3.3.2.1666"
                                     +:+ NL +:+ "SERVER=old")))
  ∧ events_of (do_status Scenario.on_usb Cases.files (Scenario.args "")
                 (world_of (edit_config "10.11.99.2" 8080
                              (Some {| remote_ip := default_ip |})
                              (Scenario.fresh [] ("[General]" +:+ NL
                                                  +:+ "REMARKABLE_RELEASE_VERSION=3.3.2.1666"
                                                  +:+ NL +:+ "SERVER=old")))))
    = events_of (do_status Scenario.on_usb Cases.files (Scenario.args "")
                   (Scenario.fresh [] ("[General]" +:+ NL
                                       +:+ "REMARKABLE_RELEASE_VERSION=3.3.2.1666"
                                       +:+ NL +:+ "SERVER=old"))).
Proof.
  apply (patch_keeps_status Scenario.on_usb Cases.files (Scenario.args "")
           {| remote_ip := default_ip |} "10.11.99.2" 8080).
  - reflexivity.
  - reflexivity.
Defined.
